(** * USB1901-record-tool: a shallow embedding of [USB1901-record-tool.c]

    The program records analog samples from a USB-1901 card in double
    buffered mode.  This development models its C functions as Rocq
    functions over an explicit program state (the C globals and the trace
    of the calls made to the C library and to the UD-DASK driver) and
    proves properties of them.

    Conventions:
    - a C [int] is a [Z] in [INT_MIN, INT_MAX]; arithmetic that can leave
      that range is wrapped with [to_int], the way the two's-complement
      target does;
    - a C [double] is a binary64 [float];
    - [exit], a trap (null stream, index outside an array, division by
      zero) and a normal return are the three outcomes of a call. *)

From Stdlib Require Import ZArith String Ascii List Bool Lia.
From Stdlib Require Import Floats.
From stdpp Require Import base list.

Open Scope Z_scope.

(** ** Machine integers *)

Definition INT_MIN : Z := -2147483648.
Definition INT_MAX : Z := 2147483647.

(** Conversion to [int], [I16], [U16] and [U32]. *)
Definition to_int (z : Z) : Z := (z + 2147483648) mod 4294967296 - 2147483648.
Definition to_I16 (z : Z) : Z := (z + 32768) mod 65536 - 32768.
Definition to_U16 (z : Z) : Z := z mod 65536.
Definition to_U32 (z : Z) : Z := z mod 4294967296.

Definition is_int (z : Z) : Prop := INT_MIN <= z <= INT_MAX.
Definition is_short (z : Z) : Prop := -32768 <= z <= 32767.

(** ** USB-1901 related constants of the program *)

Definition MAX_CHANNELS : Z := 8.
Definition AI_COUNT : Z := 20480.
Definition U1902_TIMEBASE : Z := 80000000.
Definition INVALID_CARD_ID : Z := 65535.

(** ** Doubles *)

(** [(double)n] for an integer [n] whose magnitude is below 2^63. *)
Definition int_to_double (n : Z) : float :=
  if n <? 0 then PrimFloat.opp (PrimFloat.of_uint63 (Uint63.of_Z (- n)))
  else PrimFloat.of_uint63 (Uint63.of_Z n).

(** The literals [0.200], [1.00], [2.00], [10.00] and [0.00]. *)
Definition d_0_200 : float := 0x1.999999999999ap-3%float.
Definition d_1_00 : float := 1%float.
Definition d_2_00 : float := 2%float.
Definition d_10_00 : float := 10%float.
Definition d_0_00 : float := 0%float.

(** [(double)(1<<15)] *)
Definition d_1_shl_15 : float := int_to_double (Z.shiftl 1 15).

(** ** Text produced by the C library

    The characters of the format strings that Rocq strings cannot escape. *)

Definition TAB : string := String (ascii_of_nat 9) EmptyString.
Definition NL : string := String (ascii_of_nat 10) EmptyString.

Definition dec_digit (d : Z) : ascii := ascii_of_nat (48 + Z.to_nat d).

(** The [width] low decimal digits of [n], most significant first. *)
Fixpoint dec_fixed (width : nat) (n : Z) : string :=
  match width with
  | O => EmptyString
  | S w => String.append (dec_fixed w (n / 10)) (String (dec_digit (n mod 10)) EmptyString)
  end.

(** Number of decimal digits of [n >= 0] (1 for 0). *)
Fixpoint dec_width_fuel (fuel : nat) (n : Z) : nat :=
  match fuel with
  | O => 1%nat
  | S f => if n <? 10 then 1%nat else S (dec_width_fuel f (n / 10))
  end.

Definition dec_width (n : Z) : nat := dec_width_fuel (Z.to_nat (Z.log2 n) + 1) n.

(** Shortest decimal form of [n >= 0]. *)
Definition dec_nat (n : Z) : string := dec_fixed (dec_width n) n.

(** The conversion [%d]. *)
Definition fmt_d (n : Z) : string :=
  if n <? 0 then String "-" (dec_nat (- n)) else dec_nat n.

(** *** The conversion [%e]

    ISO C: a double is written as [-]d.ddde+-dd with one digit before the
    point, [prec] digits after it (6 when the directive gives none) and an
    exponent of at least two digits; the value is rounded to that number of
    digits (to nearest, ties to even, from the exact binary value). *)

Definition DEFAULT_PRECISION : nat := 6.

(** [num/den >= 10^k] *)
Definition ge_pow10 (num den k : Z) : bool :=
  if 0 <=? k then den * 10 ^ k <=? num else den <=? num * 10 ^ (- k).

(** Largest [x] with [10^x <= num/den], searched around a first guess taken
    from the binary logarithms. *)
Fixpoint exp10_up (fuel : nat) (num den x : Z) : Z :=
  match fuel with
  | O => x
  | S f => if ge_pow10 num den (x + 1) then exp10_up f num den (x + 1) else x
  end.

Fixpoint exp10_down (fuel : nat) (num den x : Z) : Z :=
  match fuel with
  | O => x
  | S f => if ge_pow10 num den x then x else exp10_down f num den (x - 1)
  end.

Definition exp10 (num den : Z) : Z :=
  let guess := ((Z.log2 num - Z.log2 den) * 30103) / 100000 in
  exp10_up 8 num den (exp10_down 8 num den guess).

(** [num/den] rounded to an integer, ties to even. *)
Definition round_half_even (num den : Z) : Z :=
  let q := num / den in
  let r := num mod den in
  if (den <? 2 * r) || ((den =? 2 * r) && Z.odd q) then q + 1 else q.

(** The digits [d.ddd] ([prec + 1] of them, as one integer) and the decimal
    exponent of the positive rational [num/den]. *)
Definition sci_digits (prec : nat) (num den : Z) : Z * Z :=
  let p := Z.of_nat prec in
  let x := exp10 num den in
  let s := p - x in
  let m := if 0 <=? s then round_half_even (num * 10 ^ s) den
           else round_half_even num (den * 10 ^ (- s)) in
  if 10 ^ (p + 1) <=? m then (10 ^ p, x + 1) else (m, x).

Definition fmt_exponent (x : Z) : string :=
  String.append (if x <? 0 then "e-" else "e+")
    (if Z.abs x <? 100 then dec_fixed 2 (Z.abs x) else dec_nat (Z.abs x)).

Definition fmt_sci (prec : nat) (neg : bool) (m x : Z) : string :=
  let p := Z.of_nat prec in
  String.append (if neg then "-" else "")
   (String (dec_digit (m / 10 ^ p))
     (String.append
        (match prec with O => "" | _ => String.append "." (dec_fixed prec (m mod 10 ^ p)) end)
        (fmt_exponent x))).

Definition fmt_e (prec : nat) (d : float) : string :=
  match Prim2SF d with
  | S754_zero neg => fmt_sci prec neg 0 0
  | S754_infinity neg => if neg then "-inf" else "inf"
  | S754_nan => "nan"
  | S754_finite neg m e =>
      let num := Z.pos m * 2 ^ (Z.max e 0) in
      let den := 2 ^ (Z.max (- e) 0) in
      let '(digs, x) := sci_digits prec num den in
      fmt_sci prec neg digs x
  end%string.

(** *** Format strings *)

Inductive arg : Type :=
| AInt (n : Z)
| ADouble (d : float)
| AStr (s : string)
| ANull.

(** The conversions this program uses whose text is modelled: [%d], [%e]
    without flags, width or precision, and [%s].  Another directive, or an
    argument of the wrong kind, gives [None]. *)
Fixpoint format (fmt : string) (args : list arg) : option string :=
  match fmt with
  | EmptyString => Some EmptyString
  | String "%" (String c rest) =>
      match c, args with
      | "d"%char, AInt n :: args' => option_map (String.append (fmt_d n)) (format rest args')
      | "e"%char, ADouble d :: args' =>
          option_map (String.append (fmt_e DEFAULT_PRECISION d)) (format rest args')
      | "s"%char, AStr s :: args' => option_map (String.append s) (format rest args')
      | "s"%char, ANull :: args' => option_map (String.append "(null)") (format rest args')
      | _, _ => None
      end
  | String c rest => option_map (String c) (format rest args)
  end.

(** *** The conversion [%d] of [sscanf]

    White space is skipped, then an optional sign and a non-empty run of
    decimal digits are read; what follows stays unread.  ISO C does not
    define the value stored when the number does not fit an [int]; the
    model stores it wrapped to 32 bits. *)

Definition EOF : Z := -1.

Definition isspace (c : ascii) : bool :=
  let n := nat_of_ascii c in
  Nat.eqb n 32 || (Nat.leb 9 n && Nat.leb n 13).

Definition isdigit (c : ascii) : bool :=
  let n := nat_of_ascii c in Nat.leb 48 n && Nat.leb n 57.

Fixpoint skip_space (s : string) : string :=
  match s with
  | String c rest => if isspace c then skip_space rest else s
  | EmptyString => s
  end.

(** The value of the leading digits after [acc], and the rest. *)
Fixpoint scan_digits (s : string) (acc : Z) : Z * string :=
  match s with
  | String c rest =>
      if isdigit c then scan_digits rest (10 * acc + (Z.of_nat (nat_of_ascii c) - 48))
      else (acc, s)
  | EmptyString => (acc, s)
  end.

Inductive scanned : Type :=
| Converted (v : Z) (rest : string)   (* a number was read *)
| MatchFailure                        (* the input is not a number *)
| InputFailure.                       (* the input ended before a number *)

Definition scan_d (s : string) : scanned :=
  match skip_space s with
  | EmptyString => InputFailure
  | String c rest =>
      let '(neg, body) :=
        if Ascii.eqb c "-" then (true, rest)
        else if Ascii.eqb c "+" then (false, rest)
        else (false, String c rest) in
      match body with
      | String d _ =>
          if isdigit d then
            let '(v, rest') := scan_digits body 0 in
            Converted (to_int (if neg then - v else v)) rest'
          else MatchFailure
      | EmptyString => MatchFailure
      end
  end.

(** [sscanf(s, "%d", &a)]: the return value and the values assigned. *)
Definition sscanf_d (s : string) : Z * list Z :=
  match scan_d s with
  | Converted v _ => (1, [v])
  | MatchFailure => (0, [])
  | InputFailure => (EOF, [])
  end.

(** [sscanf(s, "%d:%d", &a, &b)] *)
Definition sscanf_d_colon_d (s : string) : Z * list Z :=
  match scan_d s with
  | Converted a rest =>
      match rest with
      | String c rest' =>
          if Ascii.eqb c ":" then
            match scan_d rest' with
            | Converted b _ => (2, [a; b])
            | _ => (1, [a])
            end
          else (1, [a])
      | EmptyString => (1, [a])
      end
  | MatchFailure => (0, [])
  | InputFailure => (EOF, [])
  end.

(** *** The shape of [%e] output *)

Fixpoint all_digits (t : string) : bool :=
  match t with
  | EmptyString => true
  | String c rest => isdigit c && all_digits rest
  end.

(** [-]d.ddd...e+-dd: one digit, a point, [prec] digits, and an exponent
    of at least two digits. *)
Definition exponential_notation (prec : nat) (t : string) : Prop :=
  exists sign d frac esign edigits,
    t = (sign ++ String d ("." ++ frac ++ "e" ++ esign ++ edigits))%string /\
    (sign = EmptyString \/ sign = "-"%string) /\
    isdigit d = true /\
    String.length frac = prec /\ all_digits frac = true /\
    (esign = "+"%string \/ esign = "-"%string) /\
    (2 <= String.length edigits)%nat /\ all_digits edigits = true.

(** ** The UD-DASK header [UsbDask.h]

    The header is not part of the repository.  The program uses these of
    its macros; their values are taken as parameters.  The four range codes
    label the cases of one [switch], so they are pairwise distinct, and
    they are stored in [U16] fields. *)

Class UsbDask : Type := {
  AD_B_10_V : Z;
  AD_B_2_V : Z;
  AD_B_1_V : Z;
  AD_B_0_2_V : Z;
  USB_1901 : Z;
  P1902_AI_Differential : Z;
  P1902_AI_CONVSRC_INT : Z;
  P1902_AI_TRGMOD_POST : Z;
  P1902_AI_TRGSRC_SOFT : Z;
  ASYNCH_OP : Z;
  AD_codes_distinct : NoDup [AD_B_0_2_V; AD_B_1_V; AD_B_2_V; AD_B_10_V];
  AD_codes_U16 : Forall (fun c => 0 <= c < 65536) [AD_B_0_2_V; AD_B_1_V; AD_B_2_V; AD_B_10_V]
}.

(** ** Program state *)

(** Channels descriptor. *)
Record channel_t : Type := mk_channel { id : Z; AdRange : Z }.

(** An entry of the module table the driver fills. *)
Record USBDAQ_DEVICE : Type := mk_device { wModuleType : Z; wCardID : Z }.

(** An open stream of the C library. *)
Inductive FILE : Type := Stream (path : string).

Inductive stream : Type := Stdout | Stderr | DataFile.

(** Calls into the driver, with the arguments the program passes. *)
Inductive driver_call : Type :=
| UD_Device_Scan
| UD_Register_Card (CardType card_num : Z)
| UD_AI_1902_Config (card ConfigCtrl TrigCtrl TriggerLvel ReTriggerCount DelayCount : Z)
| UD_AI_AsyncDblBufferMode (card : Z) (Enable : Z)
| UD_AI_1902_CounterInterval (card ScanIntrv SampIntrv : Z)
| UD_AI_ContReadChannel (card Channel AdRange_ ReadCount SampleRate SyncMode : Z)
| UD_AI_ContReadMultiChannels (card NumChans : Z) (Chans AdRanges : list (option Z))
    (ReadCount SampleRate SyncMode : Z)
| UD_AI_AsyncDblBufferHalfReady (card : Z)
| UD_AI_AsyncDblBufferTransfer (card : Z)
| UD_AI_AsyncClear (card : Z)
| UD_Release_Card (card : Z)
| GetLastError.

(** What the program does to the outside world, in order. *)
Inductive event : Type :=
| EvPrintf (st : stream) (fmt : string) (args : list arg)
| EvPerror (msg : string)
| EvFopen (name mode : string)
| EvFclose (f : FILE)
| EvDriver (c : driver_call)
| EvGetTickCount
| EvSleep (ms : Z)
| EvKbhit
| EvGetch.

(** What the outside world answers: the value a call returns and what it
    writes through the pointers it is given. *)
Inductive response : Type :=
| RInt (v : Z)
| RScan (err wModuleNum : Z) (AvailModules : list USBDAQ_DEVICE)
| RHalfReady (err HalfReady Stopped : Z)
| RTransfer (err : Z) (data : list Z)
| RClear (err AccessCnt : Z)
| ROpen (f : option FILE).

(** The globals of the program, the trace of its calls and the answers the
    outside world is still to give. *)
Record state : Type := mk_state {
  file_name : string;
  file : option FILE;
  card : Z;
  sample_rate : Z;
  duration : Z;
  no_channels : Z;
  channel : list channel_t;
  trace : list event;
  inputs : list response
}.

Definition set_file_name (v : string) (s : state) : state :=
  mk_state v (file s) (card s) (sample_rate s) (duration s)
           (no_channels s) (channel s) (trace s) (inputs s).
Definition set_file (v : option FILE) (s : state) : state :=
  mk_state (file_name s) v (card s) (sample_rate s) (duration s)
           (no_channels s) (channel s) (trace s) (inputs s).
Definition set_card (v : Z) (s : state) : state :=
  mk_state (file_name s) (file s) v (sample_rate s) (duration s)
           (no_channels s) (channel s) (trace s) (inputs s).
Definition set_sample_rate (v : Z) (s : state) : state :=
  mk_state (file_name s) (file s) (card s) v (duration s)
           (no_channels s) (channel s) (trace s) (inputs s).
Definition set_duration (v : Z) (s : state) : state :=
  mk_state (file_name s) (file s) (card s) (sample_rate s) v
           (no_channels s) (channel s) (trace s) (inputs s).
Definition set_no_channels (v : Z) (s : state) : state :=
  mk_state (file_name s) (file s) (card s) (sample_rate s) (duration s)
           v (channel s) (trace s) (inputs s).
Definition set_channel (v : list channel_t) (s : state) : state :=
  mk_state (file_name s) (file s) (card s) (sample_rate s) (duration s)
           (no_channels s) v (trace s) (inputs s).
Definition set_trace (v : list event) (s : state) : state :=
  mk_state (file_name s) (file s) (card s) (sample_rate s) (duration s)
           (no_channels s) (channel s) v (inputs s).
Definition set_inputs (v : list response) (s : state) : state :=
  mk_state (file_name s) (file s) (card s) (sample_rate s) (duration s)
           (no_channels s) (channel s) (trace s) v.

(** The globals as their initialisers leave them, before a given script of
    answers. *)
Definition initial_state (script : list response) : state :=
  mk_state "data.csv" None (to_I16 INVALID_CARD_ID) 200 (-1) 0
           (replicate (Z.to_nat MAX_CHANNELS) (mk_channel 0 0)) [] script.

(** ** Outcomes and the monad of the program *)

Inductive trap : Type :=
| NullStream
| OutOfBounds (array : string)
| Uninitialised (array : string)
| DivideByZero.

(** A call returns, ends the process with [exit], traps, or waits for an
    answer that the script does not hold. *)
Inductive outcome (A : Type) : Type :=
| Returns (a : A) (s : state)
| Exits (code : Z) (s : state)
| Traps (t : trap) (s : state)
| Waits (s : state).
Arguments Returns {A} a s.
Arguments Exits {A} code s.
Arguments Traps {A} t s.
Arguments Waits {A} s.

Definition M (A : Type) : Type := state -> outcome A.

Definition ret {A} (a : A) : M A := fun s => Returns a s.

Definition bind {A B} (m : M A) (k : A -> M B) : M B :=
  fun s => match m s with
           | Returns a s' => k a s'
           | Exits c s' => Exits c s'
           | Traps t s' => Traps t s'
           | Waits s' => Waits s'
           end.

Notation "x <- m ;; k" := (bind m (fun x => k))
  (at level 100, m at next level, right associativity).
Notation "m ;;; k" := (bind m (fun _ => k))
  (at level 100, right associativity).

Definition get {A} (field : state -> A) : M A := fun s => Returns (field s) s.
Definition modify (f : state -> state) : M unit := fun s => Returns tt (f s).
Definition emit (e : event) : M unit :=
  fun s => Returns tt (set_trace (trace s ++ [e]) s).
Definition exit {A} (code : Z) : M A := fun s => Exits code s.
Definition raise {A} (t : trap) : M A := fun s => Traps t s.

(** The next answer of the outside world. *)
Definition answer : M response :=
  fun s => match inputs s with
           | r :: rest => Returns r (set_inputs rest s)
           | [] => Waits s
           end.

(** [printf], [fprintf(stderr, ...)] and [fprintf(file, ...)]; the last one
    dereferences the global [file]. *)
Definition printf (fmt : string) (args : list arg) : M unit :=
  emit (EvPrintf Stdout fmt args).
Definition fprintf_stderr (fmt : string) (args : list arg) : M unit :=
  emit (EvPrintf Stderr fmt args).
Definition fprintf_file (fmt : string) (args : list arg) : M unit :=
  f <- get file ;;
  match f with
  | None => raise NullStream
  | Some _ => emit (EvPrintf DataFile fmt args)
  end.

(** Integer division and remainder of C: truncated, a zero divisor traps. *)
Definition int_div (a b : Z) : M Z :=
  if b =? 0 then raise DivideByZero else ret (to_int (Z.quot a b)).
Definition int_rem (a b : Z) : M Z :=
  if b =? 0 then raise DivideByZero else ret (Z.rem a b).

(** Arrays: [a[i]] as an rvalue and [a[i] = v]. *)
Definition load {A} (name : string) (a : list A) (i : Z) : M A :=
  if i <? 0 then raise (OutOfBounds name)
  else match a !! Z.to_nat i with
       | Some x => ret x
       | None => raise (OutOfBounds name)
       end.
Definition store {A} (name : string) (a : list A) (i : Z) (v : A) : M (list A) :=
  if (0 <=? i) && (i <? Z.of_nat (length a)) then ret (<[Z.to_nat i := v]> a)
  else raise (OutOfBounds name).

(** A local array; [None] is a cell not yet written. *)
Definition local_array (A : Type) (n : Z) : list (option A) := replicate (Z.to_nat n) None.
Definition load_init {A} (name : string) (a : list (option A)) (i : Z) : M A :=
  c <- load name a i ;;
  match c with
  | Some d => ret d
  | None => raise (Uninitialised name)
  end.

(** [for (i = first; i < first + n; i++) acc = body i acc] *)
Fixpoint for_range {S} (n : nat) (i : Z) (body : Z -> S -> M S) (acc : S) : M S :=
  match n with
  | O => ret acc
  | Datatypes.S n' => acc' <- body i acc ;; for_range n' (i + 1) body acc'
  end.

(** [for (i = 0; i < bound; i++)] for a bound the body leaves alone. *)
Definition for_to {S} (bound : Z) (body : Z -> S -> M S) (acc : S) : M S :=
  for_range (Z.to_nat bound) 0 body acc.

(** Calls out of the program.  A call is recorded in the trace; when the
    program uses what the call returns, the call takes the next answer of
    the script.  [wait] stands for an answer of a shape the call cannot
    produce. *)
Definition wait {A} : M A := fun s => Waits s.

Definition ask (e : event) : M response := emit e ;;; answer.

Definition ask_int (e : event) : M Z :=
  r <- ask e ;;
  match r with RInt v => ret v | _ => wait end.

(** A driver call that returns an [I16] status. *)
Definition driver (c : driver_call) : M Z :=
  v <- ask_int (EvDriver c) ;; ret (to_I16 v).

Section Program.
Context {hdr : UsbDask}.

(** ** [ad_range_to_volt] *)

Definition ad_range_to_volt (range : Z) : M float :=
  if range =? AD_B_0_2_V then ret d_0_200
  else if range =? AD_B_1_V then ret d_1_00
  else if range =? AD_B_2_V then ret d_2_00
  else if range =? AD_B_10_V then ret d_10_00
  else (fprintf_stderr "ad_range_to_volt: Unknown AD range." [] ;;;
        ret d_0_00).

(** ** [process_samples] *)

Definition fmt_field_sep : string := ("%e," ++ TAB)%string.     (* "%e,\t" *)
Definition fmt_field_end : string := ("%e" ++ NL)%string.       (* "%e\n" *)
Definition fmt_average : string :=
  ("  Channel %d average %e V." ++ NL)%string.

Definition process_samples (buffer : list Z) (length offset : Z) : M Z :=
  nc <- get no_channels ;;
  chans <- get channel ;;
  q <- int_div length nc ;;
  let samplesPerChannel := int_to_double q in
  arrays <-
    for_to nc (fun i '(toVolts, sum) =>
      sum <- store "sum" sum i (Some d_0_00) ;;
      ch <- load "channel" chans i ;;
      v <- ad_range_to_volt (AdRange ch) ;;
      toVolts <- store "toVolts" toVolts i (Some (PrimFloat.div v d_1_shl_15)) ;;
      ret (toVolts, sum))
    (local_array float MAX_CHANNELS, local_array float MAX_CHANNELS) ;;
  let '(toVolts, sum) := arrays in
  sum <-
    for_to length (fun i sum =>
      c <- int_rem (to_int (i + offset)) nc ;;
      raw <- load "buffer" buffer i ;;
      scale <- load_init "toVolts" toVolts c ;;
      let volts := PrimFloat.mul (int_to_double raw) scale in
      acc <- load_init "sum" sum c ;;
      sum <- store "sum" sum c (Some (PrimFloat.add acc volts)) ;;
      r <- int_rem (to_int (c + 1)) nc ;;
      (if negb (r =? 0) then fprintf_file fmt_field_sep [ADouble volts]
       else fprintf_file fmt_field_end [ADouble volts]) ;;;
      ret sum)
    sum ;;
  for_to nc (fun i (_ : unit) =>
      ch <- load "channel" chans i ;;
      total <- load_init "sum" sum i ;;
      printf fmt_average [AInt (id ch); ADouble (PrimFloat.div total samplesPerChannel)])
    tt ;;;
  r <- int_rem (to_int (length + offset)) nc ;;
  ret r.

(** *** What a call of [process_samples] computes

    The values below are read off the loops of [process_samples]; the
    theorems relate the call to them. *)

(** The value [ad_range_to_volt] returns, and whether it complains. *)
Definition range_volt (range : Z) : float :=
  if range =? AD_B_0_2_V then d_0_200
  else if range =? AD_B_1_V then d_1_00
  else if range =? AD_B_2_V then d_2_00
  else if range =? AD_B_10_V then d_10_00
  else d_0_00.

Definition known_range (range : Z) : bool :=
  (range =? AD_B_0_2_V) || (range =? AD_B_1_V) || (range =? AD_B_2_V) || (range =? AD_B_10_V).

Definition ev_unknown_range : event :=
  EvPrintf Stderr "ad_range_to_volt: Unknown AD range." [].

(** [channel[c]] *)
Definition chan_at (s : state) (c : Z) : channel_t :=
  default (mk_channel 0 0) (channel s !! Z.to_nat c).

(** [toVolts[c]] after the first loop. *)
Definition scale_factor (s : state) (c : Z) : float :=
  PrimFloat.div (range_volt (AdRange (chan_at s c))) d_1_shl_15.

(** The channel of the sample at index [i]. *)
Definition sample_channel (nc offset i : Z) : Z := (i + offset) mod nc.

(** [volts] at index [i]. *)
Definition sample_volts (s : state) (buffer : list Z) (offset i : Z) : float :=
  PrimFloat.mul (int_to_double (default 0 (buffer !! Z.to_nat i)))
                (scale_factor s (sample_channel (no_channels s) offset i)).

(** The call of [fprintf] for the sample at index [i]. *)
Definition field_event (s : state) (buffer : list Z) (offset i : Z) : event :=
  EvPrintf DataFile
    (if sample_channel (no_channels s) offset i =? no_channels s - 1
     then fmt_field_end else fmt_field_sep)
    [ADouble (sample_volts s buffer offset i)].

(** [sum[c]] after the first [n] samples. *)
Definition channel_sum (s : state) (buffer : list Z) (offset c n : Z) : float :=
  foldl (fun acc i =>
           if sample_channel (no_channels s) offset i =? c
           then PrimFloat.add acc (sample_volts s buffer offset i) else acc)
        d_0_00 (seqZ 0 n).

(** The report line of channel [c]. *)
Definition average_event (s : state) (buffer : list Z) (length offset c : Z) : event :=
  EvPrintf Stdout fmt_average
    [AInt (id (chan_at s c));
     ADouble (PrimFloat.div (channel_sum s buffer offset c length)
                            (int_to_double (length / no_channels s)))].

(** The complaints of [ad_range_to_volt] in the first loop. *)
Definition unknown_range_events (s : state) (n : Z) : list event :=
  flat_map (fun c => if known_range (AdRange (chan_at s c)) then [] else [ev_unknown_range])
           (seqZ 0 n).

(** Everything one call adds to the trace. *)
Definition samples_events (s : state) (buffer : list Z) (length offset : Z) : list event :=
  unknown_range_events s (no_channels s)
  ++ map (field_event s buffer offset) (seqZ 0 length)
  ++ map (average_event s buffer length offset) (seqZ 0 (no_channels s)).

(** The state a call can work in: between one and [MAX_CHANNELS] channels
    in a table of [MAX_CHANNELS] entries, an open file, [length] samples in
    the buffer, and an offset that keeps [i + offset] an [int]. *)
Definition samples_ready (s : state) (buffer : list Z) (length_ offset : Z) : Prop :=
  1 <= no_channels s <= MAX_CHANNELS /\
  Z.of_nat (length (channel s)) = MAX_CHANNELS /\
  file s <> None /\
  0 <= length_ <= Z.of_nat (length buffer) /\
  0 <= offset /\
  length_ + offset <= INT_MAX.

(** ** [print_usage] *)

Definition usage_lines : list string :=
  [ "  -h                       Print this message and exit.";
    "  -o <file name>           Save the result in the named file.";
    "                           The default is 'data.csv'.";
    "  -s <sample rate in Hz>   Set the sample rate in Hz. The default is 200 Hz.";
    "  -c <channel id>:<range>  Add <channel id> to the set of sampled channels with";
    "                           the selected range. Ranges: 0 - +/-200mV;";
    "                           1 - +/-1.00V; 2 - +/-2.00V; 3 - +/-10.0V.";
    "  -d <duration>            Sample for <duration> seconds.";
    "                           The default is until a key is pressed. " ]%string.

Fixpoint print_lines (lines : list string) : M unit :=
  match lines with
  | [] => ret tt
  | l :: rest => printf (l ++ NL)%string [] ;;; print_lines rest
  end.

Definition print_usage (argv0 : arg) : M unit :=
  printf ("Usage: %s [OPTIONS]" ++ NL ++ NL)%string [argv0] ;;;
  print_lines usage_lines.

(** ** [process_arguments]

    [argv0] is [argv[0]]; the cursor [i] of the C loop is the list of the
    arguments not yet read, and [argv[argc]] is the null pointer. *)

Definition scanned_1 (r : Z * list Z) : option Z :=
  match r with
  | (1, [a]) => Some a
  | _ => None
  end.

Definition scanned_2 (r : Z * list Z) : option (Z * Z) :=
  match r with
  | (2, [a; b]) => Some (a, b)
  | _ => None
  end.

Definition bad_option {A} (fmt : string) (args : list arg) : M A :=
  fprintf_stderr fmt args ;;; exit (-1).

(** The [switch] over the range number: the range code to store, if any. *)
Definition range_code (range : Z) : option Z :=
  match range with
  | 0 => Some AD_B_0_2_V
  | 1 => Some AD_B_1_V
  | 2 => Some AD_B_2_V
  | 3 => Some AD_B_10_V
  | _ => None
  end.

(** [channel[no_channels].id = id], the [switch], [no_channels++]. *)
Definition add_channel (id_ range : Z) : M unit :=
  nc <- get no_channels ;;
  chans <- get channel ;;
  ch <- load "channel" chans nc ;;
  chans <- store "channel" chans nc (mk_channel (to_U16 id_) (AdRange ch)) ;;
  chans <-
    match range_code range with
    | Some code =>
        ch <- load "channel" chans nc ;;
        store "channel" chans nc (mk_channel (id ch) (to_U16 code))
    | None => ret chans
    end ;;
  modify (set_channel chans) ;;;
  modify (set_no_channels (to_int (nc + 1))).

Fixpoint arguments_loop (argv0 : arg) (rest : list string) : M unit :=
  match rest with
  | [] => ret tt
  | a :: rest =>
      if String.eqb a "-h" then
        print_usage argv0 ;;; exit 0
      else if String.eqb a "-o" then
        match rest with
        | [] => bad_option ("%s: No file name given to '-o'." ++ NL)%string [argv0]
        | v :: rest =>
            modify (set_file_name v) ;;;
            arguments_loop argv0 rest
        end
      else if String.eqb a "-s" then
        let bad := bad_option ("%s: Bad sample frequency given to '-s'." ++ NL)%string [argv0] in
        match rest with
        | [] => bad
        | v :: rest =>
            match scanned_1 (sscanf_d v) with
            | Some s =>
                if s <? 1 then bad
                else (modify (set_sample_rate s) ;;; arguments_loop argv0 rest)
            | None => bad
            end
        end
      else if String.eqb a "-c" then
        nc <- get no_channels ;;
        if nc <? MAX_CHANNELS then
          let bad (v : arg) :=
            bad_option ("%s: Bad parameter '%s' given to '-c'." ++ NL)%string [argv0; v] in
          match rest with
          | [] => bad ANull
          | v :: rest =>
              match scanned_2 (sscanf_d_colon_d v) with
              | Some (id_, range) =>
                  if (id_ <? 0) || (id_ >? 15) || (range <? 0) || (range >? 3)
                  then bad (AStr v)
                  else (add_channel id_ range ;;; arguments_loop argv0 rest)
              | None => bad (AStr v)
              end
          end
        else bad_option ("%s: Too many channels." ++ NL)%string [argv0]
      else if String.eqb a "-d" then
        let bad := bad_option ("%s: Bad duration given to '-d'." ++ NL)%string [argv0] in
        match rest with
        | [] => bad
        | v :: rest =>
            match scanned_1 (sscanf_d v) with
            | Some d =>
                if d <? 1 then bad
                else (modify (set_duration d) ;;; arguments_loop argv0 rest)
            | None => bad
            end
        end
      else
        bad_option ("%s: Unknown commandline argument '%s'." ++ NL)%string [argv0; AStr a]
  end.

Definition process_arguments (argv : list string) : M unit :=
  modify (set_no_channels 0) ;;;
  match argv with
  | [] => ret tt
  | argv0 :: rest => arguments_loop (AStr argv0) rest
  end.

(** *** The loop, one option at a time

    These definitions serve the properties of [process_arguments]. *)

(** One turn of the loop of [process_arguments]: the option [a] is handled
    and the arguments that follow its value are returned. *)
Definition option_step (argv0 : arg) (a : string) (rest : list string) : M (list string) :=
  if String.eqb a "-h" then
    print_usage argv0 ;;; exit 0
  else if String.eqb a "-o" then
    match rest with
    | [] => bad_option ("%s: No file name given to '-o'." ++ NL)%string [argv0]
    | v :: rest => modify (set_file_name v) ;;; ret rest
    end
  else if String.eqb a "-s" then
    let bad := bad_option ("%s: Bad sample frequency given to '-s'." ++ NL)%string [argv0] in
    match rest with
    | [] => bad
    | v :: rest =>
        match scanned_1 (sscanf_d v) with
        | Some s => if s <? 1 then bad else (modify (set_sample_rate s) ;;; ret rest)
        | None => bad
        end
    end
  else if String.eqb a "-c" then
    nc <- get no_channels ;;
    if nc <? MAX_CHANNELS then
      let bad (v : arg) :=
        bad_option ("%s: Bad parameter '%s' given to '-c'." ++ NL)%string [argv0; v] in
      match rest with
      | [] => bad ANull
      | v :: rest =>
          match scanned_2 (sscanf_d_colon_d v) with
          | Some (id_, range) =>
              if (id_ <? 0) || (id_ >? 15) || (range <? 0) || (range >? 3)
              then bad (AStr v)
              else (add_channel id_ range ;;; ret rest)
          | None => bad (AStr v)
          end
      end
    else bad_option ("%s: Too many channels." ++ NL)%string [argv0]
  else if String.eqb a "-d" then
    let bad := bad_option ("%s: Bad duration given to '-d'." ++ NL)%string [argv0] in
    match rest with
    | [] => bad
    | v :: rest =>
        match scanned_1 (sscanf_d v) with
        | Some d => if d <? 1 then bad else (modify (set_duration d) ;;; ret rest)
        | None => bad
        end
    end
  else
    bad_option ("%s: Unknown commandline argument '%s'." ++ NL)%string [argv0; AStr a].

(** The entry [add_channel] writes at [channel[no_channels]]. *)
Definition new_channel (s : state) (id_ range : Z) : channel_t :=
  mk_channel (to_U16 id_)
    (match range_code range with
     | Some code => to_U16 code
     | None => AdRange (chan_at s (no_channels s))
     end).

Definition with_channel (s : state) (id_ range : Z) : state :=
  set_no_channels (to_int (no_channels s + 1))
    (set_channel (<[Z.to_nat (no_channels s) := new_channel s id_ range]> (channel s)) s).

(** The number of [-c] options among accepted arguments. *)
Fixpoint channel_options (rest : list string) : Z :=
  match rest with
  | a :: _ :: rest' => (if String.eqb a "-c" then 1 else 0) + channel_options rest'
  | _ => 0
  end.

(** ** [clean_exit] *)

Definition clean_exit {A} (card_ : Z) (code : Z) : M A :=
  emit (EvDriver (UD_Release_Card card_)) ;;;
  f <- get file ;;
  match f with
  | Some f => emit (EvFclose f)
  | None => ret tt
  end ;;;
  exit code.

(** ** [open_USB1901] *)

Definition AI_ReadCount : Z := AI_COUNT.

(** Pick the first available device of the right type. *)
Fixpoint first_USB_1901 (n : nat) (i : Z) (AvailModules : list USBDAQ_DEVICE) : M Z :=
  match n with
  | O => ret INVALID_CARD_ID
  | Datatypes.S n' =>
      m <- load "AvailModules" AvailModules i ;;
      if wModuleType m =? USB_1901 then ret (to_U16 (wCardID m))
      else first_USB_1901 n' (i + 1) AvailModules
  end.

Definition open_USB1901 : M Z :=
  let ConfigCtrl := to_U16 (Z.lor P1902_AI_Differential P1902_AI_CONVSRC_INT) in
  let TrigCtrl := to_U16 (Z.lor P1902_AI_TRGMOD_POST P1902_AI_TRGSRC_SOFT) in
  let TriggerLvel := 0 in
  let ReTriggerCount := 0 in
  let DelayCount := 0 in
  rate <- get sample_rate ;;
  q <- int_div U1902_TIMEBASE rate ;;
  let ScanIntrv := to_U32 q in
  let SampIntrv := 128 * 320 in
  nc <- get no_channels ;;
  let NumChans := to_U16 nc in
  chans <- get channel ;;
  (* Configure the channel order and per-channel range. *)
  arrays <-
    for_to NumChans (fun i '(Chans, AdRanges) =>
      ch <- load "channel" chans i ;;
      Chans <- store "Chans" Chans i (Some (id ch)) ;;
      ch <- load "channel" chans i ;;
      AdRanges <- store "AdRanges" AdRanges i (Some (AdRange ch)) ;;
      ret (Chans, AdRanges))
    (local_array Z MAX_CHANNELS, local_array Z MAX_CHANNELS) ;;
  let '(Chans, AdRanges) := arrays in
  printf ("Configuring USB-1901 to perform analog data acquisition from %d channels" ++ NL)%string
         [AInt nc] ;;;
  printf ("at %6.3lf Hz scan rate in double buffer mode." ++ NL ++ NL)%string
         [ADouble (PrimFloat.div (int_to_double U1902_TIMEBASE) (int_to_double ScanIntrv))] ;;;
  (* Find all devices. *)
  r <- ask (EvDriver UD_Device_Scan) ;;
  match r with
  | RScan err wModuleNum AvailModules =>
      let err := to_I16 err in
      (if err <? 0 then
         fprintf_stderr ("UD_Device_Scan Error: %d" ++ NL)%string [AInt err] ;;; exit 1
       else ret tt) ;;;
      card_num <- first_USB_1901 (Z.to_nat (to_U16 wModuleNum)) 0 AvailModules ;;
      (if card_num =? INVALID_CARD_ID then
         fprintf_stderr ("No active USB_1901 USB device" ++ NL)%string [] ;;; exit 2
       else ret tt) ;;;
      (* Register/open the device. *)
      card_ <- driver (UD_Register_Card USB_1901 card_num) ;;
      (if card_ <? 0 then
         fprintf_stderr ("UD_Register_Card Error: %d" ++ NL)%string [AInt card_] ;;; exit 3
       else ret tt) ;;;
      (* Configure Analog Input *)
      err <- driver (UD_AI_1902_Config card_ ConfigCtrl TrigCtrl TriggerLvel ReTriggerCount DelayCount) ;;
      (if err <? 0 then
         fprintf_stderr ("UD_AI_1902_Config Error: %d" ++ NL)%string [AInt err] ;;; exit 1
       else ret tt) ;;;
      (* Enable Double Buffer Mode *)
      err <- driver (UD_AI_AsyncDblBufferMode card_ 1) ;;
      (if err <? 0 then
         fprintf_stderr ("UD_AI_AsyncDblBufferMode Error: %d" ++ NL)%string [AInt err] ;;; exit 1
       else ret tt) ;;;
      (* Set Scan and Sampling Rate *)
      let SampIntrv := if NumChans =? 1 then 320 else SampIntrv in
      err <- driver (UD_AI_1902_CounterInterval card_ ScanIntrv SampIntrv) ;;
      (if err <? 0 then
         fprintf_stderr ("UD_AI_1902_CounterInterval Error: %d" ++ NL)%string [AInt err] ;;; exit 1
       else ret tt) ;;;
      (* AI Acquisition Start *)
      (if NumChans =? 1 then
         chan0 <- load_init "Chans" Chans 0 ;;
         range0 <- load_init "AdRanges" AdRanges 0 ;;
         err <- driver (UD_AI_ContReadChannel card_ chan0 range0 AI_ReadCount 0 ASYNCH_OP) ;;
         if err <? 0 then
           dwError <- ask_int (EvDriver GetLastError) ;;
           fprintf_stderr ("UD_AI_ContReadChannel Error: %d, GetLastError = %d" ++ NL)%string
                          [AInt err; AInt (to_int dwError)] ;;;
           clean_exit (to_U16 card_) 1
         else ret tt
       else
         err <- driver (UD_AI_ContReadMultiChannels card_ NumChans Chans AdRanges
                          AI_ReadCount 0 ASYNCH_OP) ;;
         if err <? 0 then
           dwError <- ask_int (EvDriver GetLastError) ;;
           fprintf_stderr ("UD_AI_ContReadMultiChannels Error: %d, GetLastError = %d" ++ NL)%string
                          [AInt err; AInt (to_int dwError)] ;;;
           clean_exit (to_U16 card_) 1
         else ret tt) ;;;
      ret card_
  | _ => wait
  end.

(** ** [main] *)

(** The locals of [main] that live across the iterations of its loop. *)
Record locals : Type := mk_locals {
  offset : Z;
  samples : Z;
  buffer : list Z
}.

(** [UD_AI_AsyncDblBufferTransfer(card, (U16* )buffer)]: the driver writes
    the samples it hands over at the start of [buffer], where the program
    reads them as [signed short]. *)
Definition transfer (card_ : Z) (buf : list Z) : M (Z * list Z) :=
  r <- ask (EvDriver (UD_AI_AsyncDblBufferTransfer card_)) ;;
  match r with
  | RTransfer err data =>
      let data := map to_I16 data in
      ret (to_I16 err, take (length buf) (data ++ drop (length data) buf))
  | _ => wait
  end.

(** The body of [for (;;)]: [inl] to go round again, [inr] after [break]. *)
Definition acquire_step (t1 : Z) (l : locals) : M (locals + locals) :=
  (* Wait some milliseconds. *)
  emit (EvSleep 10) ;;;
  (* Check Buffer Ready *)
  card_ <- get card ;;
  r <- ask (EvDriver (UD_AI_AsyncDblBufferHalfReady card_)) ;;
  match r with
  | RHalfReady err HalfReady Stopped =>
      let err := to_I16 err in
      (if err <? 0 then
         fprintf_stderr ("AI_AsyncDblBufferHalfReady Error: %d" ++ NL)%string [AInt err] ;;;
         emit (EvDriver (UD_AI_AsyncClear card_)) ;;;
         clean_exit (to_U16 card_) 1
       else ret tt) ;;;
      dur <- get duration ;;
      l <-
        (if negb (HalfReady =? 0) then
           name <- get file_name ;;
           printf (NL ++ "Buffer Half Ready..." ++ NL)%string [] ;;;
           printf ("Writing %d samples to the file '%s'..." ++ NL)%string
                  [AInt (Z.quot AI_COUNT 2); AStr name] ;;;
           (if dur <? 1 then
              printf ("                            Press any key to stop..." ++ NL)%string []
            else ret tt) ;;;
           r <- transfer card_ (buffer l) ;;
           let '(err, buf) := r in
           (if err <? 0 then
              fprintf_stderr ("AI_AsyncDblBufferTransfer Error: %d" ++ NL)%string [AInt err] ;;;
              emit (EvDriver (UD_AI_AsyncClear card_)) ;;;
              clean_exit (to_U16 card_) 1
            else ret tt) ;;;
           let samples_ := to_int (samples l + Z.quot AI_COUNT 2) in
           offset_ <- process_samples buf (Z.quot AI_COUNT 2) (offset l) ;;
           ret (mk_locals offset_ samples_ buf)
         else ret l) ;;
      (* Exit check. *)
      if dur <? 1 then
        k <- ask_int EvKbhit ;;
        if negb (k =? 0) then emit EvGetch ;;; ret (inr l)
        else ret (inl l)
      else
        t2 <- ask_int EvGetTickCount ;;
        let t2 := to_U32 t2 in
        if to_U32 (to_int (1000 * dur)) <? to_U32 (t2 - t1) then ret (inr l)
        else ret (inl l)
  | _ => wait
  end.

(** [for (;;)], for at most [fuel] iterations; every iteration takes an
    answer from the script, so the length of the script is fuel enough. *)
Fixpoint acquire (fuel : nat) (t1 : Z) (l : locals) : M locals :=
  match fuel with
  | O => wait
  | Datatypes.S fuel' =>
      r <- acquire_step t1 l ;;
      match r with
      | inl l' => acquire fuel' t1 l'
      | inr l' => ret l'
      end
  end.

(** What follows the loop. *)
Definition drain (t1 : Z) (l : locals) : M unit :=
  (* Clear AI Setting and Get Remaining data *)
  card_ <- get card ;;
  r <- ask (EvDriver (UD_AI_AsyncClear card_)) ;;
  match r with
  | RClear err AccessCnt =>
      let err := to_I16 err in
      let AccessCnt := to_U32 AccessCnt in
      (if err <? 0 then
         fprintf_stderr ("AI_AsyncClear Error: %d" ++ NL)%string [AInt err] ;;;
         clean_exit (to_U16 card_) 1
       else ret tt) ;;;
      t2 <- ask_int EvGetTickCount ;;
      let t2 := to_U32 t2 in
      (* Read the last data. *)
      r <- transfer card_ (buffer l) ;;
      let '(err, buf) := r in
      (if err <? 0 then
         fprintf_stderr ("AI_AsyncDblBufferTransfer Error: %d" ++ NL)%string [AInt err] ;;;
         clean_exit (to_U16 card_) 1
       else ret tt) ;;;
      name <- get file_name ;;
      dur <- get duration ;;
      printf (NL ++ "Writing the last %d samples out of %d to '%s'. Total duration %f sec." ++ NL)%string
             [AInt (to_int AccessCnt); AInt (to_int (to_U32 (samples l + AccessCnt))); AStr name;
              ADouble (PrimFloat.div (int_to_double (to_U32 (t2 - t1))) 1000%float)] ;;;
      process_samples buf (to_int AccessCnt) (offset l) ;;;
      emit (EvDriver (UD_Release_Card card_)) ;;;
      (if dur <? 1 then
         printf ("                            Press any key to exit..." ++ NL)%string [] ;;;
         emit EvGetch
       else ret tt) ;;;
      clean_exit (to_U16 card_) 0
  | _ => wait
  end.

(** [main]; [stack] is what the [AI_COUNT] cells of the array [buffer]
    hold before anything is written to them. *)
Definition main (argv : list string) (stack : list Z) : M unit :=
  let l := mk_locals 0 0 stack in
  process_arguments argv ;;;
  c <- open_USB1901 ;;
  modify (set_card c) ;;;
  t1 <- ask_int EvGetTickCount ;;
  let t1 := to_U32 t1 in
  (* Open the data file *)
  name <- get file_name ;;
  r <- ask (EvFopen name "w") ;;
  match r with
  | ROpen f =>
      modify (set_file f) ;;;
      (match f with
       | None => emit (EvPerror "fopen error: ")
       | Some _ => ret tt
       end) ;;;
      (* Acquire and store the samples. *)
      dur <- get duration ;;
      (if dur <? 1 then
         printf ("                            Press any key to stop..." ++ NL)%string []
       else ret tt) ;;;
      script <- get inputs ;;
      l <- acquire (length script) t1 l ;;
      drain t1 l
  | _ => wait
  end.

End Program.

(** ** The text of the data file

    What the calls of [fprintf(file, ...)] in a trace write, when the
    format strings are among the modelled ones. *)

Definition is_file_event (e : event) : bool :=
  match e with
  | EvPrintf DataFile _ _ => true
  | _ => false
  end.

Definition file_events (t : list event) : list event := List.filter is_file_event t.

(** The calls of [printf] in a trace. *)
Definition is_console_event (e : event) : bool :=
  match e with
  | EvPrintf Stdout _ _ => true
  | _ => false
  end.

Definition console_events (t : list event) : list event := List.filter is_console_event t.

Fixpoint file_text (t : list event) : option string :=
  match t with
  | [] => Some EmptyString
  | EvPrintf DataFile fmt args :: rest =>
      match format fmt args, file_text rest with
      | Some a, Some b => Some (a ++ b)%string
      | _, _ => None
      end
  | _ :: rest => file_text rest
  end.

(** ** Predicates of the properties *)

(** What [clean_exit] does before [exit]: the card is released and the data
    file, if open, is closed. *)
Definition cleanup_events (s : state) : list event :=
  EvDriver (UD_Release_Card (to_U16 (card s)))
  :: match file s with
     | Some f => [EvFclose f]
     | None => []
     end.

(** The globals of [t] are those of [s]. *)
Definition globals_kept (s t : state) : Prop :=
  file_name t = file_name s /\ file t = file s /\ card t = card s /\
  sample_rate t = sample_rate s /\ duration t = duration s /\
  no_channels t = no_channels s /\ channel t = channel s.

(** The process ended in [exit(code)] right after the events of
    [clean_exit]. *)
Definition exits_clean (s0 : state) (t : state) : Prop :=
  exists before, trace t = before ++ cleanup_events s0.

(** The traps of [process_samples] that do not come from its own arrays:
    the data file is not open, or the buffer is shorter than [length]. *)
Definition caller_trap (t : trap) : Prop :=
  t = NullStream \/ t = OutOfBounds "buffer".

(** ** Finite doubles *)

(** A double that is neither an infinity nor a NaN. *)
Definition finite_double (x : float) : bool :=
  PrimFloat.ltb (PrimFloat.abs x) PrimFloat.infinity.

(** [P] on every integer of [base * 2^bits, (base + 1) * 2^bits). *)
Fixpoint all_below (bits : nat) (base : Z) (P : Z -> bool) : bool :=
  match bits with
  | O => P base
  | S b => all_below b (2 * base) P && all_below b (2 * base + 1) P
  end.

(** Every [signed short] times [scale] is finite. *)
Definition short_products_finite (scale : float) : bool :=
  all_below 16 0 (fun u => finite_double (PrimFloat.mul (int_to_double (u - 32768)) scale)).

(** ** Further definitions of the properties

    What the traces of [print_usage], [open_USB1901] and [main] hold, and the
    invariants of the loops. *)

(** A call of [fprintf(file, ...)] that ends a row. *)
Definition is_row_end {hdr : UsbDask} (e : event) : bool :=
  match e with
  | EvPrintf DataFile fmt _ => String.eqb fmt fmt_field_end
  | _ => false
  end.

(** The rows a trace completes. *)
Definition rows_ended {hdr : UsbDask} (t : list event) : Z :=
  Z.of_nat (length (List.filter is_row_end t)).

(** A call of [printf] or [fprintf]. *)
Definition is_print (e : event) : bool :=
  match e with
  | EvPrintf _ _ _ => true
  | _ => false
  end.

(** The state is the one of [s] but for calls of [printf] and [fprintf]
    added to the trace. *)
Definition only_printed (s t : state) : Prop :=
  globals_kept s t /\ inputs t = inputs s /\
  exists added, trace t = trace s ++ added /\ Forall (fun e => is_print e = true) added.

(** What [print_usage] prints. *)
Definition usage_events (argv0 : arg) : list event :=
  EvPrintf Stdout ("Usage: %s [OPTIONS]" ++ NL ++ NL)%string [argv0]
  :: map (fun l => EvPrintf Stdout (l ++ NL)%string []) usage_lines.

(** A channel entry as [-c] leaves it: an id in [0, 15] and one of the four
    range codes. *)
Definition channel_configured {hdr : UsbDask} (ch : channel_t) : Prop :=
  0 <= id ch <= 15 /\ known_range (AdRange ch) = true.

(** The invariant of the loop of [process_arguments]. *)
Definition configuration_from {hdr : UsbDask} (s u : state) : Prop :=
  length (channel u) = length (channel s) /\
  0 <= no_channels u <= MAX_CHANNELS /\
  (forall c, 0 <= c < no_channels u ->
     exists ch, channel u !! Z.to_nat c = Some ch /\ channel_configured ch) /\
  file u = file s /\ card u = card s /\
  (1 <= sample_rate s -> 1 <= sample_rate u) /\
  (duration u = duration s \/ 1 <= duration u).

(** The outcomes of parsing from the state [u]: it returns without a
    trace, ends in [exit(0)] after the usage text, or ends in [exit(-1)]
    after one line on [stderr]. *)
Definition parse_outcome {A} (argv0 : arg) (u : state) (o : outcome A) : Prop :=
  match o with
  | Returns _ t => trace t = trace u /\ inputs t = inputs u
  | Exits c t =>
      inputs t = inputs u /\
      ((c = 0 /\ trace t = trace u ++ usage_events argv0) \/
       (c = -1 /\ exists fmt args, trace t = trace u ++ [EvPrintf Stderr fmt args]))
  | Traps _ _ => False
  | Waits _ => False
  end.

(** The arrays [Chans] and [AdRanges] of [open_USB1901] after its loop: the
    first [no_channels] cells are written. *)
Definition channel_array (s : state) (f : channel_t -> Z) : list (option Z) :=
  map (fun c => Some (f (chan_at s c))) (seqZ 0 (no_channels s))
  ++ replicate (Z.to_nat (MAX_CHANNELS - no_channels s)) None.

(** What [open_USB1901] does up to the scan for devices. *)
Definition scan_events (s : state) : list event :=
  [EvPrintf Stdout
     ("Configuring USB-1901 to perform analog data acquisition from %d channels" ++ NL)%string
     [AInt (no_channels s)];
   EvPrintf Stdout ("at %6.3lf Hz scan rate in double buffer mode." ++ NL ++ NL)%string
     [ADouble (PrimFloat.div (int_to_double U1902_TIMEBASE)
                 (int_to_double (U1902_TIMEBASE / sample_rate s)))];
   EvDriver UD_Device_Scan].

(** The module [open_USB1901] picks among the first [n] the scan found. *)
Definition found_module {hdr : UsbDask} (n : nat) (mods : list USBDAQ_DEVICE) : Z :=
  match List.find (fun m => wModuleType m =? USB_1901) (take n mods) with
  | Some m => to_U16 (wCardID m)
  | None => INVALID_CARD_ID
  end.

(** The driver calls from the registration of the card to the setting of
    the intervals. *)
Definition register_call {hdr : UsbDask} (card_num : Z) : event :=
  EvDriver (UD_Register_Card USB_1901 card_num).

Definition config_call {hdr : UsbDask} (card_ : Z) : event :=
  EvDriver (UD_AI_1902_Config card_
              (to_U16 (Z.lor P1902_AI_Differential P1902_AI_CONVSRC_INT))
              (to_U16 (Z.lor P1902_AI_TRGMOD_POST P1902_AI_TRGSRC_SOFT)) 0 0 0).

Definition mode_call (card_ : Z) : event :=
  EvDriver (UD_AI_AsyncDblBufferMode card_ 1).

Definition interval_call (s : state) (card_ : Z) : event :=
  EvDriver (UD_AI_1902_CounterInterval card_ (U1902_TIMEBASE / sample_rate s)
              (if no_channels s =? 1 then 320 else 40960)).

Definition read_call {hdr : UsbDask} (s : state) (card_ : Z) : event :=
  if no_channels s =? 1
  then EvDriver (UD_AI_ContReadChannel card_ (id (chan_at s 0)) (AdRange (chan_at s 0))
                   AI_COUNT 0 ASYNCH_OP)
  else EvDriver (UD_AI_ContReadMultiChannels card_ (no_channels s)
                   (channel_array s id) (channel_array s AdRange) AI_COUNT 0 ASYNCH_OP).

(** The state [open_USB1901] can start in: a positive sample rate and a
    table of [MAX_CHANNELS] entries with at most that many counted. *)
Definition configured (s : state) : Prop :=
  1 <= sample_rate s /\ 0 <= no_channels s <= MAX_CHANNELS /\
  Z.of_nat (length (channel s)) = MAX_CHANNELS.

(** The line [open_USB1901] prints when the start of the acquisition
    fails. *)
Definition read_error_event (s : state) (err dwError : Z) : event :=
  EvPrintf Stderr
    (if no_channels s =? 1
     then String.append "UD_AI_ContReadChannel Error: %d, GetLastError = %d" NL
     else String.append "UD_AI_ContReadMultiChannels Error: %d, GetLastError = %d" NL)
    [AInt err; AInt (to_int dwError)].

(** What a turn of the loop of [main] does before it looks at the buffer. *)
Definition poll_events (s : state) : list event :=
  [EvSleep 10; EvDriver (UD_AI_AsyncDblBufferHalfReady (card s))].

(** The locals after a turn, whether the loop goes on or not. *)
Definition locals_after (r : locals + locals) : locals :=
  match r with inl l => l | inr l => l end.

(** What the driver leaves in [buffer] when it hands over [data]. *)
Definition transferred (data buf : list Z) : list Z :=
  take (length buf) (map to_I16 data ++ drop (length (map to_I16 data)) buf).

(** The lines a turn prints before it transfers a buffer. *)
Definition half_ready_events (s : state) : list event :=
  [EvPrintf Stdout (NL ++ "Buffer Half Ready..." ++ NL)%string [];
   EvPrintf Stdout ("Writing %d samples to the file '%s'..." ++ NL)%string
     [AInt 10240; AStr (file_name s)]]
  ++ (if duration s <? 1
      then [EvPrintf Stdout ("                            Press any key to stop..." ++ NL)%string []]
      else [])
  ++ [EvDriver (UD_AI_AsyncDblBufferTransfer (card s))].

(** What the loop keeps true of its locals. *)
Definition locals_kept (s0 : state) (l0 l : locals) : Prop :=
  0 <= offset l < no_channels s0 /\ length (buffer l) = length (buffer l0).

(** What [main] does between [open_USB1901] and its loop. *)
Definition start_events (s1 : state) (f : option FILE) : list event :=
  [EvGetTickCount; EvFopen (file_name s1) "w"]
  ++ match f with
     | None => [EvPerror "fopen error: "]
     | Some _ => []
     end
  ++ (if duration s1 <? 1
      then [EvPrintf Stdout ("                            Press any key to stop..." ++ NL)%string []]
      else []).


(** * Properties *)

(** ** Integers, the monad and the loops *)

Lemma to_int_id z : INT_MIN <= z <= INT_MAX -> to_int z = z.
Proof. unfold to_int, INT_MIN, INT_MAX. intros. rewrite Z.mod_small; lia. Qed.

Lemma rem_nonneg a b : 0 <= a -> 0 < b -> Z.rem a b = a mod b.
Proof. intros. apply Z.rem_mod_nonneg; lia. Qed.

Lemma bind_returns {A B} (m : M A) (k : A -> M B) s a s' :
  m s = Returns a s' -> bind m k s = k a s'.
Proof. unfold bind. intros ->. reflexivity. Qed.

Lemma for_range_inv {S} (I : Z -> S -> state -> Prop) (body : Z -> S -> M S) n :
  forall i acc s,
  I i acc s ->
  (forall j acc s, i <= j < i + Z.of_nat n -> I j acc s ->
     exists acc' s', body j acc s = Returns acc' s' /\ I (j + 1) acc' s') ->
  exists acc' s', for_range n i body acc s = Returns acc' s' /\ I (i + Z.of_nat n) acc' s'.
Proof.
  induction n as [|n IH]; intros i acc s HI Hbody.
  - exists acc, s. split; [reflexivity|]. replace (i + Z.of_nat 0) with i by lia. exact HI.
  - destruct (Hbody i acc s) as (acc1 & s1 & Hrun & HI1); [lia|exact HI|].
    destruct (IH (i + 1) acc1 s1 HI1) as (acc2 & s2 & Hrun2 & HI2).
    + intros j a t Hj. apply Hbody. lia.
    + exists acc2, s2. split.
      * simpl. rewrite (bind_returns _ _ _ _ _ Hrun). exact Hrun2.
      * replace (i + Z.of_nat (Datatypes.S n)) with (i + 1 + Z.of_nat n) by lia. exact HI2.
Qed.

Lemma for_to_inv {S} (I : Z -> S -> state -> Prop) (body : Z -> S -> M S) bound acc s :
  0 <= bound ->
  I 0 acc s ->
  (forall j acc s, 0 <= j < bound -> I j acc s ->
     exists acc' s', body j acc s = Returns acc' s' /\ I (j + 1) acc' s') ->
  exists acc' s', for_to bound body acc s = Returns acc' s' /\ I bound acc' s'.
Proof.
  intros Hb HI Hbody. unfold for_to.
  destruct (for_range_inv I body (Z.to_nat bound) 0 acc s HI) as (a & t & Hr & Ht).
  - intros j a t Hj. apply Hbody. lia.
  - exists a, t. split; [exact Hr|]. replace bound with (0 + Z.of_nat (Z.to_nat bound)) by lia. exact Ht.
Qed.

Lemma load_ok {A} name (a : list A) i x s :
  0 <= i -> a !! Z.to_nat i = Some x -> load name a i s = Returns x s.
Proof.
  intros Hi Hx. unfold load. destruct (Z.ltb_spec i 0); [lia|]. rewrite Hx. reflexivity.
Qed.

Lemma store_ok {A} name (a : list A) i v s :
  0 <= i < Z.of_nat (length a) -> store name a i v s = Returns (<[Z.to_nat i := v]> a) s.
Proof.
  intros Hi. unfold store.
  destruct (Z.leb_spec 0 i); [|lia]. destruct (Z.ltb_spec i (Z.of_nat (length a))); [|lia].
  reflexivity.
Qed.

Lemma load_init_ok {A} name (a : list (option A)) i x s :
  0 <= i -> a !! Z.to_nat i = Some (Some x) -> load_init name a i s = Returns x s.
Proof.
  intros Hi Hx. unfold load_init. rewrite (bind_returns _ _ _ _ _ (load_ok name a i _ s Hi Hx)).
  reflexivity.
Qed.

Section ProcessSamples.
Context {hdr : UsbDask}.

Lemma ad_range_to_volt_run range s :
  ad_range_to_volt range s =
  Returns (range_volt range)
          (if known_range range then s else set_trace (trace s ++ [ev_unknown_range]) s).
Proof.
  unfold ad_range_to_volt, range_volt, known_range.
  destruct (range =? AD_B_0_2_V); [reflexivity|].
  destruct (range =? AD_B_1_V); [reflexivity|].
  destruct (range =? AD_B_2_V); [reflexivity|].
  destruct (range =? AD_B_10_V); reflexivity.
Qed.


Lemma seqZ_snoc k : 0 <= k -> seqZ 0 (k + 1) = seqZ 0 k ++ [k].
Proof.
  intros Hk. rewrite seqZ_app by lia. reflexivity.
Qed.

Lemma set_trace_twice t1 t2 s : set_trace t2 (set_trace t1 s) = set_trace t2 s.
Proof. reflexivity. Qed.

Lemma set_trace_same s : set_trace (trace s) s = s.
Proof. destruct s; reflexivity. Qed.

Lemma chan_at_lookup s c ch :
  channel s !! Z.to_nat c = Some ch -> chan_at s c = ch.
Proof. unfold chan_at. intros ->. reflexivity. Qed.

Lemma channel_lookup s c :
  Z.of_nat (length (channel s)) = MAX_CHANNELS -> 0 <= c < MAX_CHANNELS ->
  channel s !! Z.to_nat c = Some (chan_at s c).
Proof.
  intros Hlen Hc. destruct (lookup_lt_is_Some_2 (channel s) (Z.to_nat c)) as [ch Hch]; [lia|].
  rewrite (chan_at_lookup _ _ _ Hch). exact Hch.
Qed.

Lemma unknown_range_events_snoc s k :
  0 <= k ->
  unknown_range_events s (k + 1) =
  unknown_range_events s k ++
    (if known_range (AdRange (chan_at s k)) then [] else [ev_unknown_range]).
Proof.
  intros Hk. unfold unknown_range_events. rewrite seqZ_snoc by lia.
  rewrite flat_map_app. simpl. rewrite app_nil_r. reflexivity.
Qed.

(** The first loop of [process_samples]. *)
Lemma scale_loop_run s :
  1 <= no_channels s <= MAX_CHANNELS ->
  Z.of_nat (length (channel s)) = MAX_CHANNELS ->
  exists toVolts sum,
    for_to (no_channels s) (fun i '(toVolts, sum) =>
      sum <- store "sum" sum i (Some d_0_00) ;;
      ch <- load "channel" (channel s) i ;;
      v <- ad_range_to_volt (AdRange ch) ;;
      toVolts <- store "toVolts" toVolts i (Some (PrimFloat.div v d_1_shl_15)) ;;
      ret (toVolts, sum))
    (local_array float MAX_CHANNELS, local_array float MAX_CHANNELS) s
    = Returns (toVolts, sum)
        (set_trace (trace s ++ unknown_range_events s (no_channels s)) s) /\
    Z.of_nat (length toVolts) = MAX_CHANNELS /\ Z.of_nat (length sum) = MAX_CHANNELS /\
    forall c, 0 <= c < no_channels s ->
      toVolts !! Z.to_nat c = Some (Some (scale_factor s c)) /\
      sum !! Z.to_nat c = Some (Some d_0_00).
Proof.
  intros Hnc Hlen.
  set (body := fun (i : Z) (p : list (option float) * list (option float)) => _).
  pose (I := fun (k : Z) (p : list (option float) * list (option float)) (t : state) =>
    t = set_trace (trace s ++ unknown_range_events s k) s /\
    Z.of_nat (length (fst p)) = MAX_CHANNELS /\ Z.of_nat (length (snd p)) = MAX_CHANNELS /\
    forall c, 0 <= c < k ->
      fst p !! Z.to_nat c = Some (Some (scale_factor s c)) /\
      snd p !! Z.to_nat c = Some (Some d_0_00)).
  destruct (for_to_inv I body (no_channels s)
              (local_array float MAX_CHANNELS, local_array float MAX_CHANNELS) s)
    as ([tv sm] & t & Hrun & Ht & Hl1 & Hl2 & Hcells).
  - lia.
  - unfold I. simpl. repeat split; try reflexivity; try lia.
    unfold unknown_range_events. rewrite seqZ_nil by lia. simpl.
    rewrite app_nil_r. symmetry. apply set_trace_same.
  - intros j [tv sm] t Hj (Ht & Hl1 & Hl2 & Hcells). simpl in Hl1, Hl2, Hcells.
    unfold body.
    rewrite (bind_returns _ _ _ _ _ (store_ok "sum" sm j _ t ltac:(lia))).
    assert (Hch : channel s !! Z.to_nat j = Some (chan_at s j))
      by (apply channel_lookup; [exact Hlen | lia]).
    rewrite (bind_returns _ _ _ _ _ (load_ok "channel" _ j _ t ltac:(lia) Hch)).
    rewrite (bind_returns _ _ _ _ _ (ad_range_to_volt_run _ t)).
    erewrite bind_returns by (apply store_ok; lia).
    eexists _, _. split; [reflexivity|]. unfold I. simpl.
    rewrite !length_insert. repeat split; try assumption.
    + rewrite unknown_range_events_snoc by lia. subst t.
      destruct (known_range (AdRange (chan_at s j))).
      * rewrite app_nil_r. reflexivity.
      * simpl. rewrite app_assoc. reflexivity.
    + destruct (Z.eq_dec c j) as [->|Hne].
      * rewrite list_lookup_insert_eq by lia. reflexivity.
      * rewrite list_lookup_insert_ne by lia. apply Hcells. lia.
    + destruct (Z.eq_dec c j) as [->|Hne].
      * rewrite list_lookup_insert_eq by lia. reflexivity.
      * rewrite list_lookup_insert_ne by lia. apply Hcells. lia.
  - exists tv, sm. simpl in *. repeat split; try assumption.
    + rewrite Hrun, Ht. reflexivity.
    + apply Hcells; assumption.
    + apply Hcells; assumption.
Qed.


Lemma int_rem_ok a b s : 0 <= a -> 0 < b -> int_rem a b s = Returns (a mod b) s.
Proof.
  intros Ha Hb. unfold int_rem. destruct (Z.eqb_spec b 0); [lia|].
  rewrite rem_nonneg by lia. reflexivity.
Qed.

Lemma last_channel_test c nc :
  0 <= c < nc -> ((c + 1) mod nc =? 0) = (c =? nc - 1).
Proof.
  intros Hc. destruct (Z.eqb_spec c (nc - 1)) as [->|Hne].
  - replace (nc - 1 + 1) with nc by lia. rewrite Z.mod_same by lia. reflexivity.
  - rewrite Z.mod_small by lia. apply Z.eqb_neq. lia.
Qed.

Lemma channel_sum_snoc s buffer O c k :
  0 <= k ->
  channel_sum s buffer O c (k + 1) =
  if sample_channel (no_channels s) O k =? c
  then PrimFloat.add (channel_sum s buffer O c k) (sample_volts s buffer O k)
  else channel_sum s buffer O c k.
Proof.
  intros Hk. unfold channel_sum. rewrite seqZ_snoc by lia. rewrite foldl_snoc. reflexivity.
Qed.

Lemma fprintf_file_ok fmt args s :
  file s <> None ->
  fprintf_file fmt args s = Returns tt (set_trace (trace s ++ [EvPrintf DataFile fmt args]) s).
Proof.
  intros Hf. unfold fprintf_file, bind, get. destruct (file s); [reflexivity|congruence].
Qed.

(** The second loop of [process_samples]. *)
Lemma field_loop_run s tr buffer L O toVolts sum :
  samples_ready s buffer L O ->
  Z.of_nat (length toVolts) = MAX_CHANNELS -> Z.of_nat (length sum) = MAX_CHANNELS ->
  (forall c, 0 <= c < no_channels s ->
      toVolts !! Z.to_nat c = Some (Some (scale_factor s c)) /\
      sum !! Z.to_nat c = Some (Some d_0_00)) ->
  exists sum',
    for_to L (fun i sum =>
      c <- int_rem (to_int (i + O)) (no_channels s) ;;
      raw <- load "buffer" buffer i ;;
      scale <- load_init "toVolts" toVolts c ;;
      let volts := PrimFloat.mul (int_to_double raw) scale in
      acc <- load_init "sum" sum c ;;
      sum <- store "sum" sum c (Some (PrimFloat.add acc volts)) ;;
      r <- int_rem (to_int (c + 1)) (no_channels s) ;;
      (if negb (r =? 0) then fprintf_file fmt_field_sep [ADouble volts]
       else fprintf_file fmt_field_end [ADouble volts]) ;;;
      ret sum)
    sum (set_trace tr s)
    = Returns sum' (set_trace (tr ++ map (field_event s buffer O) (seqZ 0 L)) s) /\
    Z.of_nat (length sum') = MAX_CHANNELS /\
    forall c, 0 <= c < no_channels s ->
      sum' !! Z.to_nat c = Some (Some (channel_sum s buffer O c L)).
Proof.
  intros (Hnc & Hlen & Hfile & HL & HO & Hmax) Hl1 Hl2 Hcells.
  unfold MAX_CHANNELS in *.
  set (body := fun (i : Z) (sum : list (option float)) => _).
  pose (I := fun (k : Z) (sm : list (option float)) (t : state) =>
    t = set_trace (tr ++ map (field_event s buffer O) (seqZ 0 k)) s /\
    Z.of_nat (length sm) = 8 /\
    forall c, 0 <= c < no_channels s ->
      sm !! Z.to_nat c = Some (Some (channel_sum s buffer O c k))).
  destruct (for_to_inv I body L sum (set_trace tr s)) as (sm & t & Hrun & Ht & Hl & Hsm).
  - lia.
  - unfold I. rewrite seqZ_nil by lia. simpl. rewrite app_nil_r.
    repeat split; [assumption|]. intros c Hc. unfold channel_sum. rewrite seqZ_nil by lia.
    simpl. apply Hcells. exact Hc.
  - intros j sm t Hj (Ht & Hl & Hsm). unfold body.
    assert (Hint : INT_MIN <= j + O <= INT_MAX) by (unfold INT_MIN, INT_MAX in *; lia).
    rewrite (to_int_id _ Hint).
    rewrite (bind_returns _ _ _ _ _ (int_rem_ok (j + O) (no_channels s) t ltac:(lia) ltac:(lia))).
    fold (sample_channel (no_channels s) O j).
    assert (Hc : 0 <= sample_channel (no_channels s) O j < no_channels s)
      by (unfold sample_channel; apply Z.mod_pos_bound; lia).
    set (c := sample_channel (no_channels s) O j) in *.
    destruct (lookup_lt_is_Some_2 buffer (Z.to_nat j)) as [raw Hraw]; [lia|].
    rewrite (bind_returns _ _ _ _ _ (load_ok "buffer" buffer j raw t ltac:(lia) Hraw)).
    destruct (Hcells c Hc) as [Htv _].
    rewrite (bind_returns _ _ _ _ _ (load_init_ok "toVolts" toVolts c _ t ltac:(lia) Htv)).
    rewrite (bind_returns _ _ _ _ _ (load_init_ok "sum" sm c _ t ltac:(lia) (Hsm c Hc))).
    erewrite bind_returns by (apply store_ok; lia).
    assert (Hint1 : INT_MIN <= c + 1 <= INT_MAX) by (unfold INT_MIN, INT_MAX in *; lia).
    rewrite (to_int_id _ Hint1).
    rewrite (bind_returns _ _ _ _ _ (int_rem_ok (c + 1) (no_channels s) t ltac:(lia) ltac:(lia))).
    rewrite last_channel_test by lia.
    assert (Hvolts : PrimFloat.mul (int_to_double raw) (scale_factor s c)
                     = sample_volts s buffer O j).
    { unfold sample_volts. rewrite Hraw. reflexivity. }
    rewrite Hvolts.
    assert (Hft : file t <> None) by (subst t; exact Hfile).
    assert (Hprint :
      (if negb (c =? no_channels s - 1)
       then fprintf_file fmt_field_sep [ADouble (sample_volts s buffer O j)]
       else fprintf_file fmt_field_end [ADouble (sample_volts s buffer O j)]) t
      = Returns tt (set_trace (trace t ++ [field_event s buffer O j]) t)).
    { unfold field_event. fold c. destruct (c =? no_channels s - 1); simpl;
        apply fprintf_file_ok; exact Hft. }
    rewrite (bind_returns _ _ _ _ _ Hprint).
    eexists _, _. split; [reflexivity|]. unfold I. rewrite length_insert.
    repeat split; [|assumption|].
    + subst t. simpl. rewrite seqZ_snoc by lia. rewrite map_app, app_assoc. reflexivity.
    + intros c' Hc'. rewrite channel_sum_snoc by lia. fold c.
      destruct (Z.eqb_spec c c') as [<-|Hne].
      * rewrite list_lookup_insert_eq by lia. reflexivity.
      * rewrite list_lookup_insert_ne by lia. apply Hsm. exact Hc'.
  - exists sm. destruct Ht. repeat split; assumption.
Qed.

(** The third loop of [process_samples]. *)
Lemma report_loop_run s tr buffer L O sum :
  1 <= no_channels s <= MAX_CHANNELS ->
  Z.of_nat (length (channel s)) = MAX_CHANNELS ->
  (forall c, 0 <= c < no_channels s ->
      sum !! Z.to_nat c = Some (Some (channel_sum s buffer O c L))) ->
  for_to (no_channels s) (fun i (_ : unit) =>
      ch <- load "channel" (channel s) i ;;
      total <- load_init "sum" sum i ;;
      printf fmt_average
        [AInt (id ch);
         ADouble (PrimFloat.div total (int_to_double (L / no_channels s)))])
    tt (set_trace tr s)
  = Returns tt
      (set_trace (tr ++ map (average_event s buffer L O) (seqZ 0 (no_channels s))) s).
Proof.
  intros Hnc Hlen Hsm. unfold MAX_CHANNELS in *.
  set (body := fun (i : Z) (_ : unit) => _).
  pose (I := fun (k : Z) (_ : unit) (t : state) =>
    t = set_trace (tr ++ map (average_event s buffer L O) (seqZ 0 k)) s).
  destruct (for_to_inv I body (no_channels s) tt (set_trace tr s)) as ([] & t & Hrun & Ht).
  - lia.
  - unfold I. rewrite seqZ_nil by lia. simpl. rewrite app_nil_r. reflexivity.
  - intros j [] t Hj Ht. unfold I in Ht. unfold body.
    assert (Hch : channel s !! Z.to_nat j = Some (chan_at s j))
      by (apply channel_lookup; unfold MAX_CHANNELS; [exact Hlen | lia]).
    rewrite (bind_returns _ _ _ _ _ (load_ok "channel" _ j _ t ltac:(lia) Hch)).
    rewrite (bind_returns _ _ _ _ _ (load_init_ok "sum" sum j _ t ltac:(lia) (Hsm j ltac:(lia)))).
    eexists tt, _. split; [reflexivity|]. unfold I. subst t. simpl.
    rewrite seqZ_snoc by lia. rewrite map_app, app_assoc. reflexivity.
  - unfold I in Ht. rewrite Hrun, Ht. reflexivity.
Qed.


Lemma get_ok {A} (f : state -> A) s : get f s = Returns (f s) s.
Proof. reflexivity. Qed.

Lemma int_div_ok a b s :
  0 <= a <= INT_MAX -> 0 < b -> int_div a b s = Returns (a / b) s.
Proof.
  intros Ha Hb. unfold int_div. destruct (Z.eqb_spec b 0); [lia|].
  rewrite Z.quot_div_nonneg by lia.
  rewrite to_int_id; [reflexivity|].
  assert (0 <= a / b) by (apply Z.div_pos; lia).
  assert (a / b <= a) by (apply Z.div_le_upper_bound; nia).
  unfold INT_MIN, INT_MAX in *. lia.
Qed.

(** What a call of [process_samples] does in a state it can work in. *)
Lemma process_samples_run s buffer L O :
  samples_ready s buffer L O ->
  process_samples buffer L O s =
  Returns ((L + O) mod no_channels s)
          (set_trace (trace s ++ samples_events s buffer L O) s).
Proof.
  intros Hready. pose proof Hready as (Hnc & Hlen & Hfile & HL & HO & Hmax).
  unfold process_samples.
  rewrite (bind_returns _ _ _ _ _ (get_ok no_channels s)). cbv beta.
  rewrite (bind_returns _ _ _ _ _ (get_ok channel s)). cbv beta.
  rewrite (bind_returns _ _ _ _ _
             (int_div_ok L (no_channels s) s ltac:(unfold INT_MAX in *; lia) ltac:(lia))).
  cbv beta zeta.
  destruct (scale_loop_run s Hnc Hlen) as (tv & sm & Hrun1 & Hl1 & Hl2 & Hcells).
  rewrite (bind_returns _ _ _ _ _ Hrun1). cbv beta iota.
  destruct (field_loop_run s (trace s ++ unknown_range_events s (no_channels s))
              buffer L O tv sm Hready Hl1 Hl2 Hcells)
    as (sm' & Hrun2 & Hl3 & Hsums).
  rewrite (bind_returns _ _ _ _ _ Hrun2). cbv beta.
  rewrite (bind_returns _ _ _ _ _ (report_loop_run s _ buffer L O sm' Hnc Hlen Hsums)).
  rewrite (to_int_id (L + O)) by (unfold INT_MIN, INT_MAX in *; lia).
  rewrite (bind_returns _ _ _ _ _ (int_rem_ok (L + O) (no_channels s) _ ltac:(lia) ltac:(lia))).
  unfold ret, samples_events. rewrite <- !app_assoc. reflexivity.
Qed.

End ProcessSamples.

(** ** What every run of a computation satisfies

    [post o R E T]: if the run returned, [R] holds of the result; if it
    called [exit], [E] holds; if it trapped, [T] holds. *)

Definition post {A} (o : outcome A) (R : A -> state -> Prop)
    (E : Z -> state -> Prop) (T : trap -> state -> Prop) : Prop :=
  match o with
  | Returns a s => R a s
  | Exits c s => E c s
  | Traps t s => T t s
  | Waits _ => True
  end.

Lemma post_bind {A B} (m : M A) (k : A -> M B) s R E T :
  post (m s) (fun a t => post (k a t) R E T) E T -> post (bind m k s) R E T.
Proof. unfold bind. destruct (m s); simpl; auto. Qed.

Lemma post_weaken {A} (o : outcome A) (R R' : A -> state -> Prop)
    (E E' : Z -> state -> Prop) (T T' : trap -> state -> Prop) :
  post o R E T ->
  (forall a s, R a s -> R' a s) -> (forall c s, E c s -> E' c s) ->
  (forall t s, T t s -> T' t s) ->
  post o R' E' T'.
Proof. destruct o; simpl; auto. Qed.

Lemma post_for_range {S} (I : Z -> S -> state -> Prop) (body : Z -> S -> M S) E T n :
  forall i acc s,
  I i acc s ->
  (forall j acc s, i <= j < i + Z.of_nat n -> I j acc s ->
     post (body j acc s) (I (j + 1)) E T) ->
  post (for_range n i body acc s) (I (i + Z.of_nat n)) E T.
Proof.
  induction n as [|n IH]; intros i acc s HI Hbody.
  - simpl. replace (i + Z.of_nat 0) with i by lia. exact HI.
  - simpl for_range. apply post_bind.
    eapply post_weaken; [apply (Hbody i acc s); [lia|exact HI] | | auto | auto].
    intros acc1 s1 HI1. simpl.
    replace (i + Z.of_nat (Datatypes.S n)) with (i + 1 + Z.of_nat n) by lia.
    apply IH; [exact HI1|]. intros j a t Hj. apply Hbody. lia.
Qed.

Lemma post_for_to {S} (I : Z -> S -> state -> Prop) (body : Z -> S -> M S) E T bound acc s :
  I 0 acc s ->
  (forall j acc s, 0 <= j < bound -> I j acc s -> post (body j acc s) (I (j + 1)) E T) ->
  post (for_to bound body acc s) (fun a t => I (Z.max 0 bound) a t) E T.
Proof.
  intros HI Hbody. unfold for_to.
  replace (Z.max 0 bound) with (0 + Z.of_nat (Z.to_nat bound)) by lia.
  apply post_for_range; [exact HI|]. intros j a t Hj. apply Hbody. lia.
Qed.

Lemma bind_returns_inv {A B} (m : M A) (k : A -> M B) s b s' :
  bind m k s = Returns b s' -> exists a t, m s = Returns a t /\ k a t = Returns b s'.
Proof.
  unfold bind. destruct (m s) as [a t| | |]; try discriminate. intros H. exists a, t. auto.
Qed.

(** ** The shape of [%e] output *)

Lemma isdigit_dec_digit d : 0 <= d <= 9 -> isdigit (dec_digit d) = true.
Proof.
  intros Hd. assert (H : d = 0 \/ d = 1 \/ d = 2 \/ d = 3 \/ d = 4 \/ d = 5 \/ d = 6
                       \/ d = 7 \/ d = 8 \/ d = 9) by lia.
  repeat (destruct H as [->|H]; [reflexivity|]). subst. reflexivity.
Qed.

Lemma length_append (a b : string) :
  String.length (a ++ b) = (String.length a + String.length b)%nat.
Proof. induction a as [|x a IH]; simpl; [reflexivity|]. rewrite IH. reflexivity. Qed.

Lemma all_digits_append (a b : string) :
  all_digits (a ++ b) = all_digits a && all_digits b.
Proof.
  induction a as [|x a IH]; simpl; [reflexivity|]. rewrite IH, andb_assoc. reflexivity.
Qed.

Lemma dec_fixed_length w n : String.length (dec_fixed w n) = w.
Proof.
  revert n. induction w as [|w IH]; intros n; simpl; [reflexivity|].
  rewrite length_append, IH. cbn [String.length]. lia.
Qed.

Lemma dec_fixed_digits w n : all_digits (dec_fixed w n) = true.
Proof.
  revert n. induction w as [|w IH]; intros n; simpl; [reflexivity|].
  rewrite all_digits_append, IH. cbn [all_digits andb].
  rewrite isdigit_dec_digit; [reflexivity|].
  pose proof (Z.mod_pos_bound n 10). lia.
Qed.

Lemma dec_width_fuel_pos fuel n : (1 <= dec_width_fuel fuel n)%nat.
Proof. destruct fuel; simpl; [lia|]. destruct (n <? 10); lia. Qed.

Lemma dec_width_two n : 10 <= n -> (2 <= dec_width n)%nat.
Proof.
  intros Hn. unfold dec_width. rewrite Nat.add_1_r. cbn [dec_width_fuel].
  destruct (Z.ltb_spec n 10); [lia|].
  pose proof (dec_width_fuel_pos (Z.to_nat (Z.log2 n)) (n / 10)). lia.
Qed.

Lemma fmt_exponent_shape x :
  exists esign edigits,
    fmt_exponent x = ("e" ++ esign ++ edigits)%string /\
    (esign = "+"%string \/ esign = "-"%string) /\
    (2 <= String.length edigits)%nat /\ all_digits edigits = true.
Proof.
  unfold fmt_exponent.
  exists (if x <? 0 then String "-" EmptyString else String "+" EmptyString),
         (if Z.abs x <? 100 then dec_fixed 2 (Z.abs x) else dec_nat (Z.abs x)).
  split; [destruct (x <? 0); reflexivity|].
  split; [destruct (x <? 0); auto|].
  destruct (Z.ltb_spec (Z.abs x) 100).
  - rewrite dec_fixed_length, dec_fixed_digits. auto.
  - unfold dec_nat. rewrite dec_fixed_length, dec_fixed_digits.
    split; [apply dec_width_two; lia|reflexivity].
Qed.

Lemma fmt_sci_shape prec neg m x :
  prec <> O -> 0 <= m < 10 ^ (Z.of_nat prec + 1) ->
  exponential_notation prec (fmt_sci prec neg m x).
Proof.
  intros Hprec Hm. unfold fmt_sci.
  destruct (fmt_exponent_shape x) as (esign & edigits & Hex & Hes & Hlen & Hdig).
  exists (if neg then "-" else "")%string, (dec_digit (m / 10 ^ Z.of_nat prec)),
         (dec_fixed prec (m mod 10 ^ Z.of_nat prec)), esign, edigits.
  repeat split; auto.
  - destruct prec as [|p]; [congruence|]. rewrite Hex. reflexivity.
  - destruct neg; auto.
  - apply isdigit_dec_digit.
    assert (0 < 10 ^ Z.of_nat prec) by (apply Z.pow_pos_nonneg; lia).
    split; [apply Z.div_pos; lia|].
    assert (m / 10 ^ Z.of_nat prec < 10); [|lia].
    apply Z.div_lt_upper_bound; [lia|].
    rewrite Z.pow_add_r in Hm by lia. lia.
  - apply dec_fixed_length.
  - apply dec_fixed_digits.
Qed.

Lemma round_half_even_nonneg num den : 0 <= num -> 0 < den -> 0 <= round_half_even num den.
Proof.
  intros Hn Hd. unfold round_half_even.
  assert (0 <= num / den) by (apply Z.div_pos; lia).
  destruct (_ || _); lia.
Qed.

Lemma sci_digits_range prec num den :
  0 <= num -> 0 < den ->
  0 <= fst (sci_digits prec num den) < 10 ^ (Z.of_nat prec + 1).
Proof.
  intros Hn Hd. unfold sci_digits.
  set (p := Z.of_nat prec). set (x := exp10 num den).
  set (m := if 0 <=? p - x then _ else _).
  assert (Hm : 0 <= m).
  { subst m. destruct (Z.leb_spec 0 (p - x)).
    - apply round_half_even_nonneg; [|lia].
      apply Z.mul_nonneg_nonneg; [lia|]. apply Z.pow_nonneg. lia.
    - apply round_half_even_nonneg; [lia|].
      apply Z.mul_pos_pos; [lia|]. apply Z.pow_pos_nonneg; lia. }
  destruct (Z.leb_spec (10 ^ (p + 1)) m); cbn [fst].
  - split; [apply Z.pow_nonneg; lia|]. apply Z.pow_lt_mono_r; lia.
  - lia.
Qed.

(** Every number that is not an infinity or a NaN is written in that shape. *)
Lemma fmt_e_shape prec d :
  prec <> O ->
  (forall neg, Prim2SF d <> S754_infinity neg) -> Prim2SF d <> S754_nan ->
  exponential_notation prec (fmt_e prec d).
Proof.
  intros Hprec Hinf Hnan. unfold fmt_e.
  destruct (Prim2SF d) as [neg|neg| |neg m e].
  - apply fmt_sci_shape; [exact Hprec|]. split; [lia|]. apply Z.pow_pos_nonneg; lia.
  - exfalso. exact (Hinf neg eq_refl).
  - congruence.
  - pose proof (sci_digits_range prec (Z.pos m * 2 ^ Z.max e 0) (2 ^ Z.max (- e) 0)) as H.
    destruct (sci_digits prec _ _) as [digs x]. cbn [fst] in H.
    apply fmt_sci_shape; [exact Hprec|]. apply H.
    + apply Z.mul_nonneg_nonneg; [lia|]. apply Z.pow_nonneg. lia.
    + apply Z.pow_pos_nonneg; lia.
Qed.

(** ** The text of the data file *)

Lemma append_assoc (a b c : string) : ((a ++ b) ++ c = a ++ (b ++ c))%string.
Proof. induction a as [|x a IH]; simpl; [reflexivity|]. rewrite IH. reflexivity. Qed.

Lemma append_nil_r (a : string) : (a ++ "" = a)%string.
Proof. induction a as [|x a IH]; simpl; [reflexivity|]. rewrite IH. reflexivity. Qed.

Lemma file_text_app t1 t2 :
  file_text (t1 ++ t2) =
  match file_text t1, file_text t2 with
  | Some a, Some b => Some (a ++ b)%string
  | _, _ => None
  end.
Proof.
  induction t1 as [|e t1 IH]; simpl.
  - destruct (file_text t2); reflexivity.
  - destruct e as [st fmt args| | | | | | | |]; try exact IH.
    destruct st; try exact IH.
    rewrite IH. destruct (format fmt args) as [a|]; [|reflexivity].
    destruct (file_text t1) as [b|]; [|reflexivity].
    destruct (file_text t2) as [c|]; [|reflexivity].
    rewrite append_assoc. reflexivity.
Qed.

Lemma file_text_no_file_event t :
  Forall (fun e => is_file_event e = false) t -> file_text t = Some EmptyString.
Proof.
  induction 1 as [|e t He _ IH]; [reflexivity|].
  destruct e as [st fmt args| | | | | | | |]; try exact IH.
  destruct st; try exact IH. discriminate.
Qed.

Lemma format_field_sep v :
  format fmt_field_sep [ADouble v] = Some (fmt_e DEFAULT_PRECISION v ++ "," ++ TAB)%string.
Proof. reflexivity. Qed.

Lemma format_field_end v :
  format fmt_field_end [ADouble v] = Some (fmt_e DEFAULT_PRECISION v ++ NL)%string.
Proof. reflexivity. Qed.

Section FileText.
Context {hdr : UsbDask}.

(** The text of one field: the number and what follows it. *)
Definition field_text (s : state) (buffer : list Z) (offset i : Z) : string :=
  String.append (fmt_e DEFAULT_PRECISION (sample_volts s buffer offset i))
    (if sample_channel (no_channels s) offset i =? no_channels s - 1
     then NL else String.append "," TAB).

Lemma concat_cons (x : string) (l : list string) :
  String.concat "" (x :: l) = String.append x (String.concat "" l).
Proof. destruct l; simpl; [rewrite append_nil_r|]; reflexivity. Qed.

Lemma file_text_field_cons s buffer O i t :
  file_text (field_event s buffer O i :: t)
  = match file_text t with
    | Some b => Some (String.append (field_text s buffer O i) b)
    | None => None
    end.
Proof.
  unfold field_event, field_text.
  destruct (sample_channel (no_channels s) O i =? no_channels s - 1); cbn [file_text].
  - rewrite format_field_end. reflexivity.
  - rewrite format_field_sep. reflexivity.
Qed.

Lemma file_text_fields s buffer O l :
  file_text (map (field_event s buffer O) l)
  = Some (String.concat "" (map (field_text s buffer O) l)).
Proof.
  induction l as [|i l IH]; [reflexivity|].
  cbn [map]. rewrite file_text_field_cons, IH, concat_cons. reflexivity.
Qed.

Lemma unknown_range_events_no_file s n :
  Forall (fun e => is_file_event e = false) (unknown_range_events s n).
Proof.
  unfold unknown_range_events. induction (seqZ 0 n) as [|c l IH]; simpl; [constructor|].
  destruct (known_range _); simpl; [exact IH|]. constructor; [reflexivity|exact IH].
Qed.

Lemma average_events_no_file s buffer L O l :
  Forall (fun e => is_file_event e = false) (map (average_event s buffer L O) l).
Proof. induction l; simpl; constructor; auto. Qed.

(** The text one call appends to the data file. *)
Lemma file_text_samples_events s buffer L O :
  file_text (samples_events s buffer L O)
  = Some (String.concat "" (map (field_text s buffer O) (seqZ 0 L))).
Proof.
  unfold samples_events. rewrite !file_text_app.
  rewrite (file_text_no_file_event _ (unknown_range_events_no_file s _)).
  rewrite (file_text_no_file_event _ (average_events_no_file s buffer L O _)).
  rewrite file_text_fields. simpl. rewrite append_nil_r. reflexivity.
Qed.

End FileText.

(** ** A header and a state to run the model on

    Any four distinct range codes do; the state is the one two options
    [-c 0:1 -c 1:3] and an open file give. *)

Definition demo_header : UsbDask.
Proof.
  refine {| AD_B_10_V := 1; AD_B_2_V := 2; AD_B_1_V := 3; AD_B_0_2_V := 4;
            USB_1901 := 5;
            P1902_AI_Differential := 1; P1902_AI_CONVSRC_INT := 0;
            P1902_AI_TRGMOD_POST := 0; P1902_AI_TRGSRC_SOFT := 0;
            ASYNCH_OP := 2 |}.
  - repeat constructor; rewrite ?elem_of_cons, ?elem_of_nil; lia.
  - repeat constructor; lia.
Defined.

Definition demo_state : state :=
  mk_state "data.csv" (Some (Stream "data.csv")) 0 200 (-1) 2
    (mk_channel 0 3 :: mk_channel 1 1 :: replicate 6 (mk_channel 0 0)) [] [].

(** ** The returned offset *)

(** C1.  A call of [process_samples] with [C > 0] channels, a length
    [L >= 0] and an offset [0 <= O < C], where [L + O] is an [int], returns
    the offset [(L + O) mod C]: whenever the call returns, it returns that
    value, and it does return when the channel table, the file and the
    buffer are as the loops need them. *)
Theorem process_samples_new_offset {hdr : UsbDask} (s : state) (buffer : list Z) (L O : Z) :
  0 < no_channels s -> 0 <= L -> 0 <= O < no_channels s -> L + O <= INT_MAX ->
  (forall r s', process_samples buffer L O s = Returns r s' ->
                r = (L + O) mod no_channels s) /\
  (no_channels s <= MAX_CHANNELS ->
   Z.of_nat (length (channel s)) = MAX_CHANNELS ->
   file s <> None ->
   L <= Z.of_nat (length buffer) ->
   exists s', process_samples buffer L O s = Returns ((L + O) mod no_channels s) s').
Proof.
  intros Hnc HL HO Hmax. split.
  - intros r s' Hrun. unfold process_samples in Hrun.
    apply bind_returns_inv in Hrun as (nc & t0 & Hget & Hrun).
    rewrite get_ok in Hget. injection Hget as <- <-.
    apply bind_returns_inv in Hrun as (chans & t0 & Hget & Hrun).
    apply bind_returns_inv in Hrun as (q & t1 & _ & Hrun).
    apply bind_returns_inv in Hrun as ([tv sm] & t2 & _ & Hrun).
    apply bind_returns_inv in Hrun as (sm' & t3 & _ & Hrun).
    apply bind_returns_inv in Hrun as (u & t4 & _ & Hrun).
    apply bind_returns_inv in Hrun as (r' & t5 & Hrem & Hrun).
    rewrite to_int_id in Hrem by (unfold INT_MIN, INT_MAX in *; lia).
    rewrite int_rem_ok in Hrem by lia.
    unfold ret in Hrun. congruence.
  - intros Hmaxc Hlen Hfile Hbuf.
    eexists. apply process_samples_run. repeat split; try assumption; lia.
Qed.

Lemma process_samples_new_offset_witness :
  exists s', process_samples (hdr := demo_header) [16384; 16384; 0] 3 1 demo_state
             = Returns 0 s'.
Proof.
  refine (proj2 (process_samples_new_offset (hdr := demo_header) demo_state
                   [16384; 16384; 0] 3 1 _ _ _ _) _ _ _ _);
    simpl; unfold INT_MAX, MAX_CHANNELS; try lia; discriminate.
Defined.

(** ** Buffer boundaries *)

Lemma map_seqZ_shift {A} (f : Z -> A) (m n : Z) :
  map f (seqZ m n) = map (fun i => f (m + i)) (seqZ 0 n).
Proof.
  assert (H : seqZ m n = map (Z.add m) (seqZ 0 n)).
  { change (map (Z.add m) (seqZ 0 n)) with (Z.add m <$> seqZ 0 n).
    rewrite fmap_add_seqZ. f_equal. lia. }
  rewrite H, map_map. reflexivity.
Qed.

Lemma map_seqZ_ext {A} (f g : Z -> A) (m n : Z) :
  (forall i, m <= i < m + n -> f i = g i) -> map f (seqZ m n) = map g (seqZ m n).
Proof.
  intros H. apply map_ext_in. intros i Hi. apply H.
  apply list_elem_of_In in Hi. apply elem_of_seqZ in Hi. exact Hi.
Qed.

Lemma sample_channel_shift nc O n i :
  0 < nc -> sample_channel nc O (n + i) = sample_channel nc ((n + O) mod nc) i.
Proof.
  intros Hnc. unfold sample_channel.
  rewrite Zplus_mod_idemp_r. f_equal. lia.
Qed.

Lemma field_event_app_l {hdr : UsbDask} s B1 B2 O i :
  0 <= i < Z.of_nat (length B1) ->
  field_event s (B1 ++ B2) O i = field_event s B1 O i.
Proof.
  intros Hi. unfold field_event, sample_volts.
  rewrite lookup_app_l by lia. reflexivity.
Qed.

Lemma field_event_app_r {hdr : UsbDask} s B1 B2 O i :
  0 < no_channels s -> 0 <= i ->
  field_event s (B1 ++ B2) O (Z.of_nat (length B1) + i)
  = field_event s B2 ((Z.of_nat (length B1) + O) mod no_channels s) i.
Proof.
  intros Hnc Hi. unfold field_event, sample_volts.
  rewrite sample_channel_shift by lia.
  rewrite lookup_app_r by lia.
  replace (Z.to_nat (Z.of_nat (length B1) + i) - length B1)%nat with (Z.to_nat i) by lia.
  reflexivity.
Qed.

(** The fields of a buffer cut in two are the fields of the first part, then
    those of the second part from the offset the first part ends on. *)
Lemma field_events_app {hdr : UsbDask} s B1 B2 O :
  0 < no_channels s ->
  map (field_event s (B1 ++ B2) O) (seqZ 0 (Z.of_nat (length B1) + Z.of_nat (length B2)))
  = map (field_event s B1 O) (seqZ 0 (Z.of_nat (length B1)))
    ++ map (field_event s B2 ((Z.of_nat (length B1) + O) mod no_channels s))
           (seqZ 0 (Z.of_nat (length B2))).
Proof.
  intros Hnc. rewrite seqZ_app by lia. rewrite map_app. f_equal.
  - apply map_seqZ_ext. intros i Hi. apply field_event_app_l. lia.
  - rewrite map_seqZ_shift. apply map_seqZ_ext. intros i Hi.
    replace (0 + Z.of_nat (length B1) + i) with (Z.of_nat (length B1) + i) by lia.
    apply field_event_app_r; lia.
Qed.

Lemma file_text_file_events t : file_text (file_events t) = file_text t.
Proof.
  induction t as [|e t IH]; [reflexivity|].
  destruct e as [st fmt args| | | | | | | |]; try exact IH.
  destruct st; try exact IH. simpl. rewrite IH. reflexivity.
Qed.

Lemma file_events_app t1 t2 : file_events (t1 ++ t2) = file_events t1 ++ file_events t2.
Proof. unfold file_events. apply List.filter_app. Qed.

Lemma file_events_none t :
  Forall (fun e => is_file_event e = false) t -> file_events t = [].
Proof.
  induction 1 as [|e t He _ IH]; [reflexivity|].
  unfold file_events in *. simpl. rewrite He. exact IH.
Qed.

Lemma file_events_fields {hdr : UsbDask} s B O l :
  file_events (map (field_event s B O) l) = map (field_event s B O) l.
Proof.
  induction l as [|i l IH]; [reflexivity|].
  unfold file_events in *. simpl. rewrite IH. reflexivity.
Qed.

(** The calls of [fprintf(file, ...)] of one call of [process_samples]. *)
Lemma file_events_samples_events {hdr : UsbDask} s B L O :
  file_events (samples_events s B L O) = map (field_event s B O) (seqZ 0 L).
Proof.
  unfold samples_events. rewrite !file_events_app.
  rewrite (file_events_none _ (unknown_range_events_no_file s _)).
  rewrite (file_events_none _ (average_events_no_file s B L O _)).
  rewrite file_events_fields, app_nil_r. reflexivity.
Qed.

(** C2.  With [C] channels ([1 <= C <= MAX_CHANNELS]), an open file and an
    offset [0 <= O < C]: a call on the buffer [B1] followed by a call on
    [B2] with the offset the first call returned appends to the data file
    the byte-identical text (so the same commas, tabs and newlines at the
    same positions) as one call on [B1 ++ B2], and ends on the same offset.
    The lengths are those of the buffers and [L1 + L2 + O] is an [int]. *)
Theorem row_splitting_ignores_buffer_boundaries {hdr : UsbDask}
    (s : state) (B1 B2 : list Z) (O : Z) :
  let L1 := Z.of_nat (length B1) in
  let L2 := Z.of_nat (length B2) in
  1 <= no_channels s <= MAX_CHANNELS ->
  Z.of_nat (length (channel s)) = MAX_CHANNELS ->
  file s <> None ->
  0 <= O < no_channels s ->
  L1 + L2 + O <= INT_MAX ->
  exists O1 s1 O2 s2 s12 text,
    process_samples B1 L1 O s = Returns O1 s1 /\
    process_samples B2 L2 O1 s1 = Returns O2 s2 /\
    process_samples (B1 ++ B2) (L1 + L2) O s = Returns O2 s12 /\
    file_text (drop (length (trace s)) (trace s2)) = Some text /\
    file_text (drop (length (trace s)) (trace s12)) = Some text.
Proof.
  intros L1 L2 Hnc Hlen Hfile HO Hmax.
  assert (HO1 : 0 <= (L1 + O) mod no_channels s < no_channels s)
    by (apply Z.mod_pos_bound; lia).
  assert (HO1' : (L1 + O) mod no_channels s <= L1 + O) by (apply Z.mod_le; lia).
  assert (Hr1 : samples_ready s B1 L1 O)
    by (unfold samples_ready; repeat split; try assumption; lia).
  pose proof (process_samples_run s B1 L1 O Hr1) as Hrun1.
  set (s1 := set_trace (trace s ++ samples_events s B1 L1 O) s) in *.
  assert (Hr2 : samples_ready s1 B2 L2 ((L1 + O) mod no_channels s)).
  { unfold samples_ready. subst s1. cbn [no_channels channel file set_trace].
    unfold INT_MAX in *. repeat split; try assumption; lia. }
  pose proof (process_samples_run s1 B2 L2 _ Hr2) as Hrun2.
  assert (Hr12 : samples_ready s (B1 ++ B2) (L1 + L2) O).
  { unfold samples_ready. rewrite length_app.
    repeat split; try assumption; lia. }
  pose proof (process_samples_run s (B1 ++ B2) (L1 + L2) O Hr12) as Hrun12.
  exists ((L1 + O) mod no_channels s), s1, ((L1 + L2 + O) mod no_channels s).
  eexists _, _, _. split; [exact Hrun1|]. split; [|split].
  - rewrite Hrun2. f_equal. subst s1. simpl.
    rewrite Zplus_mod_idemp_r. f_equal. lia.
  - exact Hrun12.
  - subst s1. simpl. rewrite <- !app_assoc, !drop_app_length.
    split; [|apply file_text_samples_events].
    rewrite <- file_text_file_events, file_events_app, !file_events_samples_events.
    change (map (field_event (set_trace ?t s) B2 ?o)) with (map (field_event s B2 o)).
    change (no_channels (set_trace ?t s)) with (no_channels s).
    subst L1 L2. rewrite <- field_events_app by lia.
    apply file_text_fields.
Qed.

Lemma row_splitting_ignores_buffer_boundaries_witness :
  exists O1 s1 O2 s2 s12 text,
    process_samples (hdr := demo_header) [16384; 16384; 0] 3 0 demo_state = Returns O1 s1 /\
    process_samples (hdr := demo_header) [0] 1 O1 s1 = Returns O2 s2 /\
    process_samples (hdr := demo_header) [16384; 16384; 0; 0] 4 0 demo_state
      = Returns O2 s12 /\
    file_text (drop (length (trace demo_state)) (trace s2)) = Some text /\
    file_text (drop (length (trace demo_state)) (trace s12)) = Some text.
Proof.
  refine (row_splitting_ignores_buffer_boundaries (hdr := demo_header)
            demo_state [16384; 16384; 0] [0] 0 _ _ _ _ _);
    cbn; unfold INT_MAX, MAX_CHANNELS; try lia; discriminate.
Defined.

(** ** The voltage converter *)

Lemma AD_codes_pairwise {hdr : UsbDask} :
  AD_B_0_2_V <> AD_B_1_V /\ AD_B_0_2_V <> AD_B_2_V /\ AD_B_0_2_V <> AD_B_10_V /\
  AD_B_1_V <> AD_B_2_V /\ AD_B_1_V <> AD_B_10_V /\ AD_B_2_V <> AD_B_10_V.
Proof.
  pose proof AD_codes_distinct as Hd.
  apply NoDup_cons in Hd as [H1 Hd]. apply NoDup_cons in Hd as [H2 Hd].
  apply NoDup_cons in Hd as [H3 _].
  repeat rewrite not_elem_of_cons in H1. repeat rewrite not_elem_of_cons in H2.
  repeat rewrite not_elem_of_cons in H3. tauto.
Qed.

Lemma range_volt_codes {hdr : UsbDask} :
  range_volt AD_B_0_2_V = d_0_200 /\ range_volt AD_B_1_V = d_1_00 /\
  range_volt AD_B_2_V = d_2_00 /\ range_volt AD_B_10_V = d_10_00.
Proof.
  destruct AD_codes_pairwise as (H12 & H13 & H14 & H23 & H24 & H34).
  unfold range_volt. rewrite !Z.eqb_refl.
  destruct (Z.eqb_spec AD_B_1_V AD_B_0_2_V); [congruence|].
  destruct (Z.eqb_spec AD_B_2_V AD_B_0_2_V); [congruence|].
  destruct (Z.eqb_spec AD_B_2_V AD_B_1_V); [congruence|].
  destruct (Z.eqb_spec AD_B_10_V AD_B_0_2_V); [congruence|].
  destruct (Z.eqb_spec AD_B_10_V AD_B_1_V); [congruence|].
  destruct (Z.eqb_spec AD_B_10_V AD_B_2_V); [congruence|].
  auto.
Qed.

Lemma known_range_codes {hdr : UsbDask} range :
  known_range range = true <->
  range = AD_B_0_2_V \/ range = AD_B_1_V \/ range = AD_B_2_V \/ range = AD_B_10_V.
Proof.
  unfold known_range. rewrite !orb_true_iff, !Z.eqb_eq. tauto.
Qed.

Lemma range_volt_unknown {hdr : UsbDask} range :
  known_range range = false -> range_volt range = d_0_00.
Proof.
  unfold known_range, range_volt. rewrite !orb_false_iff.
  intros [[[-> ->] ->] ->]. reflexivity.
Qed.

(** C4.  [ad_range_to_volt] returns 0.2, 1.0, 2.0 and 10.0 for the four
    range codes and writes nothing; for every other argument it writes one
    message to [stderr] and returns 0.0: the call returns, it does not end
    the program. *)
Theorem ad_range_to_volt_values {hdr : UsbDask} (s : state) :
  ad_range_to_volt AD_B_0_2_V s = Returns d_0_200 s /\
  ad_range_to_volt AD_B_1_V s = Returns d_1_00 s /\
  ad_range_to_volt AD_B_2_V s = Returns d_2_00 s /\
  ad_range_to_volt AD_B_10_V s = Returns d_10_00 s /\
  forall range,
    range <> AD_B_0_2_V -> range <> AD_B_1_V -> range <> AD_B_2_V -> range <> AD_B_10_V ->
    ad_range_to_volt range s
    = Returns d_0_00
        (set_trace (trace s ++ [EvPrintf Stderr "ad_range_to_volt: Unknown AD range." []]) s).
Proof.
  destruct range_volt_codes as (V1 & V2 & V3 & V4).
  assert (K : forall r, (r = AD_B_0_2_V \/ r = AD_B_1_V \/ r = AD_B_2_V \/ r = AD_B_10_V) ->
                        known_range r = true) by (intros r; apply known_range_codes).
  repeat split.
  - rewrite ad_range_to_volt_run, V1, K by auto. reflexivity.
  - rewrite ad_range_to_volt_run, V2, K by auto. reflexivity.
  - rewrite ad_range_to_volt_run, V3, K by auto. reflexivity.
  - rewrite ad_range_to_volt_run, V4, K by auto. reflexivity.
  - intros range H1 H2 H3 H4. rewrite ad_range_to_volt_run.
    assert (Hk : known_range range = false).
    { destruct (known_range range) eqn:E; [|reflexivity].
      apply known_range_codes in E. tauto. }
    rewrite Hk, range_volt_unknown by exact Hk. reflexivity.
Qed.

Lemma ad_range_to_volt_values_witness :
  ad_range_to_volt (hdr := demo_header) 0 demo_state
  = Returns d_0_00
      (set_trace (trace demo_state
                  ++ [EvPrintf Stderr "ad_range_to_volt: Unknown AD range." []]) demo_state).
Proof.
  refine (proj2 (proj2 (proj2 (proj2
            (ad_range_to_volt_values (hdr := demo_header) demo_state)))) 0 _ _ _ _);
    cbn; lia.
Defined.

(** ** Fields, values and averages *)

Lemma lookup_map_seqZ {A} (f : Z -> A) (n i : Z) :
  0 <= i < n -> map f (seqZ 0 n) !! Z.to_nat i = Some (f i).
Proof.
  intros Hi. change (map f (seqZ 0 n)) with (f <$> seqZ 0 n).
  rewrite list_lookup_fmap, lookup_seqZ_lt by lia.
  simpl. f_equal. f_equal. lia.
Qed.

Lemma console_events_app t1 t2 :
  console_events (t1 ++ t2) = console_events t1 ++ console_events t2.
Proof. unfold console_events. apply List.filter_app. Qed.

Lemma console_events_none t :
  Forall (fun e => is_console_event e = false) t -> console_events t = [].
Proof.
  induction 1 as [|e t He _ IH]; [reflexivity|].
  unfold console_events in *. simpl. rewrite He. exact IH.
Qed.

Lemma unknown_range_events_no_console {hdr : UsbDask} s n :
  Forall (fun e => is_console_event e = false) (unknown_range_events s n).
Proof.
  unfold unknown_range_events. induction (seqZ 0 n) as [|c l IH]; simpl; [constructor|].
  destruct (known_range _); simpl; [exact IH|]. constructor; [reflexivity|exact IH].
Qed.

Lemma field_events_no_console {hdr : UsbDask} s B O l :
  Forall (fun e => is_console_event e = false) (map (field_event s B O) l).
Proof. induction l; simpl; constructor; auto. Qed.

Lemma console_events_samples_events {hdr : UsbDask} s B L O :
  console_events (samples_events s B L O)
  = map (average_event s B L O) (seqZ 0 (no_channels s)).
Proof.
  unfold samples_events. rewrite !console_events_app.
  rewrite (console_events_none _ (unknown_range_events_no_console s _)).
  rewrite (console_events_none _ (field_events_no_console s B O _)).
  simpl. induction (seqZ 0 (no_channels s)) as [|c l IH]; [reflexivity|].
  unfold console_events in *. simpl. rewrite IH. reflexivity.
Qed.

(** What one call adds to the trace. *)
Lemma process_samples_added {hdr : UsbDask} s buffer L O :
  samples_ready s buffer L O ->
  exists s',
    process_samples buffer L O s = Returns ((L + O) mod no_channels s) s' /\
    drop (length (trace s)) (trace s') = samples_events s buffer L O.
Proof.
  intros Hready. eexists. split; [apply process_samples_run; exact Hready|].
  simpl. apply drop_app_length.
Qed.

(** C3.  The sample at index [i] of a buffer processed with offset [O] and
    [C] channels belongs to channel [(i + O) mod C]; the value written for
    it is its raw code times the scale factor of that channel, the voltage
    [ad_range_to_volt] gives for the range of the channel divided by 2^15.
    A raw code of 32767 on the 10 V range gives 10.00 * 32767 / 32768
    (9.99969482421875) and a raw code of 0 gives 0.0 on every range. *)
Theorem sample_conversion {hdr : UsbDask} (s : state) (buffer : list Z) (L O i : Z) :
  samples_ready s buffer L O -> 0 <= i < L ->
  (exists raw ch volt t s' fmt,
     buffer !! Z.to_nat i = Some raw /\
     channel s !! Z.to_nat ((i + O) mod no_channels s) = Some ch /\
     ad_range_to_volt (AdRange ch) s = Returns volt t /\
     process_samples buffer L O s = Returns ((L + O) mod no_channels s) s' /\
     file_events (drop (length (trace s)) (trace s')) !! Z.to_nat i
     = Some (EvPrintf DataFile fmt
               [ADouble (PrimFloat.mul (int_to_double raw)
                                       (PrimFloat.div volt d_1_shl_15))])) /\
  (forall volt t,
     ad_range_to_volt AD_B_10_V s = Returns volt t ->
     PrimFloat.mul (int_to_double 32767) (PrimFloat.div volt d_1_shl_15)
     = PrimFloat.div (PrimFloat.mul d_10_00 (int_to_double 32767)) (int_to_double 32768) /\
     PrimFloat.mul (int_to_double 32767) (PrimFloat.div volt d_1_shl_15)
     = 9.99969482421875%float) /\
  (forall range volt t,
     ad_range_to_volt range s = Returns volt t ->
     PrimFloat.mul (int_to_double 0) (PrimFloat.div volt d_1_shl_15) = d_0_00).
Proof.
  intros Hready Hi. pose proof Hready as (Hnc & Hlen & Hfile & HL & HO & Hmax).
  split; [|split].
  - destruct (process_samples_added s buffer L O Hready) as (s' & Hrun & Hadd).
    destruct (lookup_lt_is_Some_2 buffer (Z.to_nat i)) as [raw Hraw]; [lia|].
    assert (Hc : 0 <= (i + O) mod no_channels s < no_channels s)
      by (apply Z.mod_pos_bound; lia).
    exists raw, (chan_at s ((i + O) mod no_channels s)). eexists _, _, s', _.
    split; [exact Hraw|]. split; [apply channel_lookup; [exact Hlen|lia]|].
    split; [apply ad_range_to_volt_run|]. split; [exact Hrun|].
    rewrite Hadd, file_events_samples_events, lookup_map_seqZ by lia.
    unfold field_event, sample_volts, scale_factor, sample_channel. rewrite Hraw.
    reflexivity.
  - intros volt t Hrun. rewrite ad_range_to_volt_run in Hrun.
    injection Hrun as <- _. destruct range_volt_codes as (_ & _ & _ & ->).
    split; vm_compute; reflexivity.
  - intros range volt t Hrun. rewrite ad_range_to_volt_run in Hrun.
    injection Hrun as <- _. unfold range_volt.
    destruct (range =? AD_B_0_2_V); [vm_compute; reflexivity|].
    destruct (range =? AD_B_1_V); [vm_compute; reflexivity|].
    destruct (range =? AD_B_2_V); [vm_compute; reflexivity|].
    destruct (range =? AD_B_10_V); vm_compute; reflexivity.
Qed.

Lemma demo_ready : samples_ready demo_state [16384; 16384; 0; 0] 4 0.
Proof.
  unfold samples_ready, INT_MAX, MAX_CHANNELS. cbn.
  repeat split; try lia. discriminate.
Defined.

Lemma sample_conversion_witness :
  exists raw ch volt t s' fmt,
    [16384; 16384; 0; 0] !! Z.to_nat 1 = Some raw /\
    channel demo_state !! Z.to_nat ((1 + 0) mod no_channels demo_state) = Some ch /\
    ad_range_to_volt (hdr := demo_header) (AdRange ch) demo_state = Returns volt t /\
    process_samples (hdr := demo_header) [16384; 16384; 0; 0] 4 0 demo_state
    = Returns ((4 + 0) mod no_channels demo_state) s' /\
    file_events (drop (length (trace demo_state)) (trace s')) !! Z.to_nat 1
    = Some (EvPrintf DataFile fmt
              [ADouble (PrimFloat.mul (int_to_double raw)
                                      (PrimFloat.div volt d_1_shl_15))]).
Proof.
  refine (proj1 (sample_conversion (hdr := demo_header) demo_state
                   [16384; 16384; 0; 0] 4 0 1 demo_ready _)).
  lia.
Defined.

(** ** The fields of the data file *)

Lemma finite_double_spec x :
  finite_double x = true ->
  (forall neg, Prim2SF x <> S754_infinity neg) /\ Prim2SF x <> S754_nan.
Proof.
  unfold finite_double. rewrite FloatAxioms.ltb_spec, FloatAxioms.abs_spec.
  change (Prim2SF infinity) with (S754_infinity false).
  destruct (Prim2SF x) as [neg|neg| |neg m e]; intros H; try discriminate H.
  - split; [intros n|]; discriminate.
  - split; [intros n|]; discriminate.
Qed.

Lemma all_below_spec P bits :
  forall base u,
  all_below bits base P = true ->
  base * 2 ^ Z.of_nat bits <= u < (base + 1) * 2 ^ Z.of_nat bits ->
  P u = true.
Proof.
  induction bits as [|b IH]; intros base u Hall Hu.
  - cbn [all_below] in Hall. change (2 ^ Z.of_nat 0) with 1 in Hu.
    replace u with base by lia. exact Hall.
  - cbn [all_below] in Hall. apply andb_true_iff in Hall as [H0 H1].
    replace (Z.of_nat (S b)) with (Z.of_nat b + 1) in Hu by lia.
    rewrite Z.pow_add_r in Hu by lia. change (2 ^ 1) with 2 in Hu.
    assert (Hp : 0 < 2 ^ Z.of_nat b) by (apply Z.pow_pos_nonneg; lia).
    destruct (Z.lt_ge_cases u ((2 * base + 1) * 2 ^ Z.of_nat b)).
    + apply (IH (2 * base)); [exact H0|]. nia.
    + apply (IH (2 * base + 1)); [exact H1|]. nia.
Qed.

Lemma short_products_finite_spec scale raw :
  short_products_finite scale = true -> is_short raw ->
  finite_double (PrimFloat.mul (int_to_double raw) scale) = true.
Proof.
  intros Hall Hraw. unfold short_products_finite in Hall. unfold is_short in Hraw.
  pose proof (all_below_spec _ 16 0 (raw + 32768) Hall) as H.
  cbv beta in H. replace (raw + 32768 - 32768) with raw in H by lia.
  apply H. change (2 ^ Z.of_nat 16) with 65536. lia.
Qed.

(** The scale factors of the four ranges, and of an unknown range. *)
Lemma scale_0_2 : short_products_finite (PrimFloat.div d_0_200 d_1_shl_15) = true.
Proof. vm_compute. reflexivity. Qed.
Lemma scale_1 : short_products_finite (PrimFloat.div d_1_00 d_1_shl_15) = true.
Proof. vm_compute. reflexivity. Qed.
Lemma scale_2 : short_products_finite (PrimFloat.div d_2_00 d_1_shl_15) = true.
Proof. vm_compute. reflexivity. Qed.
Lemma scale_10 : short_products_finite (PrimFloat.div d_10_00 d_1_shl_15) = true.
Proof. vm_compute. reflexivity. Qed.
Lemma scale_0 : short_products_finite (PrimFloat.div d_0_00 d_1_shl_15) = true.
Proof. vm_compute. reflexivity. Qed.

(** The voltage of a [signed short] is finite, whatever the range. *)
Lemma short_volts_finite {hdr : UsbDask} raw range :
  is_short raw ->
  finite_double (PrimFloat.mul (int_to_double raw)
                   (PrimFloat.div (range_volt range) d_1_shl_15)) = true.
Proof.
  intros Hraw. apply short_products_finite_spec; [|exact Hraw]. unfold range_volt.
  destruct (range =? AD_B_0_2_V); [exact scale_0_2|].
  destruct (range =? AD_B_1_V); [exact scale_1|].
  destruct (range =? AD_B_2_V); [exact scale_2|].
  destruct (range =? AD_B_10_V); [exact scale_10|exact scale_0].
Qed.

(** C5.  Every sample adds one call of [fprintf] on the data file, in the
    order of the samples, and the number the call for the sample at index
    [i] writes is the voltage of that sample: its raw code times the scale
    factor of its channel [(i + O) mod C].  The field of a channel that is
    not the last of the cycle has the format [%e,\t], so its number is
    followed by a comma and a tab; the field of the last channel, [C - 1],
    has the format [%e\n], so its number is followed by a newline; the text
    the call appends to the file is these fields one after the other.  The
    directive [%e] carries no precision: the number is written with the
    default precision of 6 digits after the point, and the voltage of a
    [signed short] is finite, so its text has the shape [-]d.dddddde+-dd. *)
Theorem field_separators_and_format {hdr : UsbDask}
    (s : state) (buffer : list Z) (L O i : Z) :
  samples_ready s buffer L O -> 0 <= i < L ->
  exists s' raw ch volt t,
    let volts := PrimFloat.mul (int_to_double raw) (PrimFloat.div volt d_1_shl_15) in
    let separator :=
      if (i + O) mod no_channels s =? no_channels s - 1
      then NL else String.append "," TAB in
    buffer !! Z.to_nat i = Some raw /\
    channel s !! Z.to_nat ((i + O) mod no_channels s) = Some ch /\
    ad_range_to_volt (AdRange ch) s = Returns volt t /\
    process_samples buffer L O s = Returns ((L + O) mod no_channels s) s' /\
    length (file_events (drop (length (trace s)) (trace s'))) = Z.to_nat L /\
    file_events (drop (length (trace s)) (trace s')) !! Z.to_nat i
    = Some (EvPrintf DataFile
              (if (i + O) mod no_channels s =? no_channels s - 1
               then fmt_field_end else fmt_field_sep)
              [ADouble volts]) /\
    file_text [EvPrintf DataFile
                 (if (i + O) mod no_channels s =? no_channels s - 1
                  then fmt_field_end else fmt_field_sep)
                 [ADouble volts]]
    = Some (String.append (fmt_e 6 volts) separator) /\
    (exists fields,
       file_text (drop (length (trace s)) (trace s')) = Some (String.concat "" fields) /\
       length fields = Z.to_nat L /\
       fields !! Z.to_nat i = Some (String.append (fmt_e 6 volts) separator)) /\
    (is_short raw -> exponential_notation 6 (fmt_e 6 volts)).
Proof.
  intros Hready Hi. pose proof Hready as (Hnc & Hlen & Hfile & HL & HO & Hmax).
  destruct (process_samples_added s buffer L O Hready) as (s' & Hrun & Hadd).
  destruct (lookup_lt_is_Some_2 buffer (Z.to_nat i)) as [raw Hraw]; [lia|].
  assert (Hc : 0 <= (i + O) mod no_channels s < no_channels s)
    by (apply Z.mod_pos_bound; lia).
  assert (Hv : sample_volts s buffer O i
               = PrimFloat.mul (int_to_double raw)
                   (PrimFloat.div (range_volt (AdRange (chan_at s ((i + O) mod no_channels s))))
                      d_1_shl_15)).
  { unfold sample_volts, scale_factor, sample_channel. rewrite Hraw. reflexivity. }
  exists s', raw, (chan_at s ((i + O) mod no_channels s)). eexists _, _. cbv zeta.
  split; [exact Hraw|]. split; [apply channel_lookup; [exact Hlen|lia]|].
  split; [apply ad_range_to_volt_run|]. split; [exact Hrun|].
  rewrite Hadd, file_events_samples_events.
  split; [rewrite length_map, length_seqZ; reflexivity|].
  split.
  { rewrite lookup_map_seqZ by lia. unfold field_event, sample_channel. rewrite Hv.
    reflexivity. }
  split.
  { destruct (_ =? _); cbn [file_text];
      [rewrite format_field_end|rewrite format_field_sep]; rewrite append_nil_r; reflexivity. }
  split.
  { exists (map (field_text s buffer O) (seqZ 0 L)).
    split; [apply file_text_samples_events|].
    split; [rewrite length_map, length_seqZ; reflexivity|].
    rewrite lookup_map_seqZ by lia. unfold field_text, sample_channel. rewrite Hv.
    reflexivity. }
  intros Hshort.
  destruct (finite_double_spec _ (short_volts_finite raw
              (AdRange (chan_at s ((i + O) mod no_channels s))) Hshort)) as [Hinf Hnan].
  apply fmt_e_shape; [discriminate|exact Hinf|exact Hnan].
Qed.

Lemma field_separators_and_format_witness :
  exists s' raw ch volt,
    let volts := PrimFloat.mul (int_to_double raw) (PrimFloat.div volt d_1_shl_15) in
    raw = 16384 /\ ch = mk_channel 1 1 /\ volt = d_10_00 /\
    process_samples (hdr := demo_header) [16384; 16384; 0; 0] 4 0 demo_state
    = Returns ((4 + 0) mod no_channels demo_state) s' /\
    file_events (drop (length (trace demo_state)) (trace s')) !! Z.to_nat 1
    = Some (EvPrintf DataFile fmt_field_end [ADouble volts]) /\
    exponential_notation 6 (fmt_e 6 volts).
Proof.
  destruct (field_separators_and_format (hdr := demo_header) demo_state
              [16384; 16384; 0; 0] 4 0 1 demo_ready ltac:(lia))
    as (s' & raw & ch & volt & t & Hraw & Hch & Hvolt & Hrun & _ & Hev & _ & _ & Hshape).
  injection Hraw as <-. injection Hch as <-.
  injection Hvolt as <- _.
  exists s', 16384, (mk_channel 1 1), d_10_00. cbv zeta.
  split; [reflexivity|]. split; [reflexivity|]. split; [reflexivity|].
  split; [exact Hrun|]. split; [exact Hev|].
  apply Hshape. unfold is_short. lia.
Defined.

Lemma format_average n v :
  format fmt_average [AInt n; ADouble v]
  = Some (String.append "  Channel "
            (String.append (fmt_d n)
               (String.append " average "
                  (String.append (fmt_e 6 v) (String.append " V." NL))))).
Proof. reflexivity. Qed.

(** C6.  The calls of [printf] of one call of [process_samples] are, for
    the channels [0 .. C-1] in order, one line [  Channel <id> average
    <value> V.]; they come after everything else the call does.  <value> is
    the sum of the channel divided by [(double)(length / no_channels)],
    where the sum starts from 0.0 in every call and takes the converted
    samples of that channel in this buffer only: nothing of an earlier call
    enters it. *)
Theorem per_buffer_averages {hdr : UsbDask} (s : state) (buffer : list Z) (L O : Z) :
  samples_ready s buffer L O ->
  let report c :=
    EvPrintf Stdout fmt_average
      [AInt (id (chan_at s c));
       ADouble (PrimFloat.div
                  (foldl (fun acc i =>
                            if (i + O) mod no_channels s =? c
                            then PrimFloat.add acc (sample_volts s buffer O i)
                            else acc)
                         d_0_00 (seqZ 0 L))
                  (int_to_double (L / no_channels s)))] in
  exists s' before,
    process_samples buffer L O s = Returns ((L + O) mod no_channels s) s' /\
    trace s' = trace s ++ before ++ map report (seqZ 0 (no_channels s)) /\
    console_events before = [] /\
    console_events (drop (length (trace s)) (trace s')) = map report (seqZ 0 (no_channels s)) /\
    forall n v,
      format fmt_average [AInt n; ADouble v]
      = Some (String.append "  Channel "
                (String.append (fmt_d n)
                   (String.append " average "
                      (String.append (fmt_e 6 v) (String.append " V." NL))))).
Proof.
  intros Hready report.
  exists (set_trace (trace s ++ samples_events s buffer L O) s),
         (unknown_range_events s (no_channels s)
          ++ map (field_event s buffer O) (seqZ 0 L)).
  split; [apply process_samples_run; exact Hready|].
  split; [simpl; unfold samples_events; rewrite <- app_assoc; reflexivity|].
  split.
  - rewrite console_events_app.
    rewrite (console_events_none _ (unknown_range_events_no_console s _)).
    apply console_events_none, field_events_no_console.
  - split; [|apply format_average].
    simpl. rewrite drop_app_length. apply console_events_samples_events.
Qed.

Lemma per_buffer_averages_witness :
  exists s',
    process_samples (hdr := demo_header) [16384; 16384; 0; 0] 4 0 demo_state
    = Returns 0 s' /\
    console_events (drop (length (trace demo_state)) (trace s'))
    = [EvPrintf Stdout fmt_average [AInt 0; ADouble 0.25%float];
       EvPrintf Stdout fmt_average [AInt 1; ADouble 2.5%float]].
Proof.
  destruct (per_buffer_averages (hdr := demo_header) demo_state
              [16384; 16384; 0; 0] 4 0 demo_ready)
    as (s' & before & Hrun & _ & _ & Hconsole & _).
  exists s'. split; [exact Hrun|]. rewrite Hconsole. vm_compute. reflexivity.
Defined.

(** ** Which traps a call of [process_samples] can reach *)

Lemma post_ret {A} (a : A) s (R : A -> state -> Prop) E T : R a s -> post (ret a s) R E T.
Proof. intros H. exact H. Qed.

Lemma post_get {A} (f : state -> A) s (R : A -> state -> Prop) E T :
  R (f s) s -> post (get f s) R E T.
Proof. intros H. exact H. Qed.

Lemma post_load {A} name (a : list A) i s (R : A -> state -> Prop) E (T : trap -> state -> Prop) :
  (forall x, 0 <= i -> a !! Z.to_nat i = Some x -> R x s) ->
  (~ (0 <= i < Z.of_nat (length a)) -> T (OutOfBounds name) s) ->
  post (load name a i s) R E T.
Proof.
  intros HR HT. unfold load. destruct (Z.ltb_spec i 0); [apply HT; lia|].
  destruct (a !! Z.to_nat i) as [x|] eqn:Hx; [apply HR; [lia|reflexivity]|].
  apply HT. apply lookup_ge_None in Hx. lia.
Qed.

Lemma post_store {A} name (a : list A) i v s (R : list A -> state -> Prop) E
    (T : trap -> state -> Prop) :
  (0 <= i < Z.of_nat (length a) -> R (<[Z.to_nat i := v]> a) s) ->
  (~ (0 <= i < Z.of_nat (length a)) -> T (OutOfBounds name) s) ->
  post (store name a i v s) R E T.
Proof.
  intros HR HT. unfold store.
  destruct (Z.leb_spec 0 i); [|apply HT; lia].
  destruct (Z.ltb_spec i (Z.of_nat (length a))); [apply HR; lia|apply HT; lia].
Qed.

Lemma post_load_init {A} name (a : list (option A)) i s (R : A -> state -> Prop) E
    (T : trap -> state -> Prop) :
  (forall x, 0 <= i -> a !! Z.to_nat i = Some (Some x) -> R x s) ->
  (~ (0 <= i < Z.of_nat (length a)) -> T (OutOfBounds name) s) ->
  (a !! Z.to_nat i = Some None -> T (Uninitialised name) s) ->
  post (load_init name a i s) R E T.
Proof.
  intros HR HT HU. unfold load_init. apply post_bind. apply post_load; [|exact HT].
  intros [x|] Hi Hx; [apply HR; assumption|apply HU; exact Hx].
Qed.

Lemma post_int_rem a b s (R : Z -> state -> Prop) E (T : trap -> state -> Prop) :
  (b <> 0 -> R (Z.rem a b) s) -> (b = 0 -> T DivideByZero s) ->
  post (int_rem a b s) R E T.
Proof.
  intros HR HT. unfold int_rem. destruct (Z.eqb_spec b 0); [apply HT|apply HR]; assumption.
Qed.

Lemma post_int_div a b s (R : Z -> state -> Prop) E (T : trap -> state -> Prop) :
  (b <> 0 -> R (to_int (Z.quot a b)) s) -> (b = 0 -> T DivideByZero s) ->
  post (int_div a b s) R E T.
Proof.
  intros HR HT. unfold int_div. destruct (Z.eqb_spec b 0); [apply HT|apply HR]; assumption.
Qed.

Lemma post_emit e s (R : unit -> state -> Prop) E T :
  R tt (set_trace (trace s ++ [e]) s) -> post (emit e s) R E T.
Proof. intros H. exact H. Qed.

Lemma post_fprintf_file fmt args s (R : unit -> state -> Prop) E (T : trap -> state -> Prop) :
  (file s <> None -> R tt (set_trace (trace s ++ [EvPrintf DataFile fmt args]) s)) ->
  (file s = None -> T NullStream s) ->
  post (fprintf_file fmt args s) R E T.
Proof.
  intros HR HT. unfold fprintf_file, bind, get.
  destruct (file s) eqn:Hf; [apply HR; discriminate|apply HT; reflexivity].
Qed.

Lemma post_ad_range_to_volt {hdr : UsbDask} range s (R : float -> state -> Prop) E T :
  (forall t, R (range_volt range) t) -> post (ad_range_to_volt range s) R E T.
Proof. intros HR. rewrite ad_range_to_volt_run. apply HR. Qed.

Lemma sample_index_in_range nc O i :
  0 < nc -> 0 <= i -> 0 <= O -> i + O <= INT_MAX ->
  Z.rem (to_int (i + O)) nc = (i + O) mod nc /\ 0 <= (i + O) mod nc < nc.
Proof.
  intros Hnc Hi HO Hmax.
  rewrite to_int_id by (unfold INT_MIN, INT_MAX in *; lia).
  rewrite rem_nonneg by lia. split; [reflexivity|]. apply Z.mod_pos_bound. lia.
Qed.

Lemma process_samples_traps {hdr : UsbDask} s buffer L O :
  1 <= no_channels s <= MAX_CHANNELS ->
  Z.of_nat (length (channel s)) = MAX_CHANNELS ->
  0 <= O -> L + O <= INT_MAX ->
  post (process_samples buffer L O s)
       (fun _ _ => True) (fun _ _ => False) (fun t _ => caller_trap t).
Proof.
  intros Hnc Hlen HO Hmax. unfold MAX_CHANNELS in *.
  set (T := fun (t : trap) (_ : state) => caller_trap t).
  set (E := fun (_ : Z) (_ : state) => False).
  unfold process_samples.
  apply post_bind, post_get. apply post_bind, post_get.
  apply post_bind, post_int_div; [intros _|lia].
  (* the first loop *)
  apply post_bind.
  pose (I1 := fun (k : Z) (p : list (option float) * list (option float)) (_ : state) =>
    Z.of_nat (length (fst p)) = 8 /\ Z.of_nat (length (snd p)) = 8 /\
    forall c, 0 <= c < k ->
      (exists x, fst p !! Z.to_nat c = Some (Some x)) /\
      (exists x, snd p !! Z.to_nat c = Some (Some x))).
  eapply post_weaken; [apply (post_for_to I1 _ E T)| |auto|auto].
  { unfold I1. cbn. repeat split; try reflexivity; lia. }
  { intros j [tv sm] t Hj (Hl1 & Hl2 & Hcells). cbn [fst snd] in *.
    apply post_bind, post_store; [intros _|lia].
    apply post_bind, post_load; [intros ch _ _|lia].
    apply post_bind, post_ad_range_to_volt. intros t'.
    apply post_bind, post_store; [intros _|lia].
    apply post_ret. unfold I1. cbn [fst snd]. rewrite !length_insert.
    repeat split; try assumption.
    - destruct (Z.eq_dec c j) as [->|Hne].
      + rewrite list_lookup_insert_eq by lia. eauto.
      + rewrite list_lookup_insert_ne by lia. apply Hcells. lia.
    - destruct (Z.eq_dec c j) as [->|Hne].
      + rewrite list_lookup_insert_eq by lia. eauto.
      + rewrite list_lookup_insert_ne by lia. apply Hcells. lia. }
  intros [tv sm] t1 (Hl1 & Hl2 & Hcells). cbn [fst snd] in *.
  rewrite Z.max_r in Hcells by lia.
  (* the second loop *)
  apply post_bind.
  pose (I2 := fun (k : Z) (sm : list (option float)) (_ : state) =>
    Z.of_nat (length sm) = 8 /\
    forall c, 0 <= c < no_channels s -> exists x, sm !! Z.to_nat c = Some (Some x)).
  eapply post_weaken; [apply (post_for_to I2 _ E T)| |auto|auto].
  { unfold I2. split; [exact Hl2|]. intros c Hc. apply Hcells. exact Hc. }
  { intros j sm' t Hj (Hl & Hsm).
    destruct (sample_index_in_range (no_channels s) O j) as [Hrem Hc]; try lia.
    apply post_bind, post_int_rem; [intros _|lia]. rewrite Hrem.
    set (c := (j + O) mod no_channels s) in *.
    apply post_bind, post_load; [intros raw _ _|intros _; right; reflexivity].
    destruct (Hcells c Hc) as [[x Hx] _]. destruct (Hsm c Hc) as [y Hy].
    apply post_bind, post_load_init; [intros x' _ _|lia|congruence].
    apply post_bind, post_load_init; [intros y' _ _|lia|congruence].
    apply post_bind, post_store; [intros _|lia].
    apply post_bind, post_int_rem; [intros _|lia].
    apply post_bind.
    assert (Hw : forall fmt args u,
      post (fprintf_file fmt args u)
           (fun _ t' => post (ret (<[Z.to_nat c := Some (PrimFloat.add y'
                                   (PrimFloat.mul (int_to_double raw) x'))]> sm') t')
                             (I2 (j + 1)) E T) E T).
    { intros fmt args u. apply post_fprintf_file; [intros _|intros _; left; reflexivity].
      apply post_ret. unfold I2. rewrite length_insert. split; [exact Hl|].
      intros c' Hc'. destruct (Z.eq_dec c' c) as [->|Hne].
      - rewrite list_lookup_insert_eq by lia. eauto.
      - rewrite list_lookup_insert_ne by lia. apply Hsm. exact Hc'. }
    destruct (negb _); apply Hw. }
  intros sm' t2 (Hl & Hsm).
  (* the third loop *)
  apply post_bind.
  eapply post_weaken;
    [apply (post_for_to (fun _ (_ : unit) _ => True) _ E T)| |auto|auto].
  { exact Logic.I. }
  { intros j [] t Hj _.
    apply post_bind, post_load; [intros ch _ _|lia].
    destruct (Hsm j ltac:(lia)) as [x Hx].
    apply post_bind, post_load_init; [intros x' _ _|lia|congruence].
    exact Logic.I. }
  intros _ t3 _.
  apply post_bind, post_int_rem; [intros _|lia]. exact Logic.I.
Qed.

(** C10 as stated fails: the offset is an [int], and with [O = INT_MAX] the
    sum [i + O] wraps at [i = 1]; with three channels the index computed is
    [-2] and [toVolts[-2]] is outside the array. *)
Lemma nonnegative_offset_out_of_bounds :
  let s := set_no_channels 3 demo_state in
  1 <= no_channels s <= 8 /\ 0 <= INT_MAX /\
  int_rem (to_int (1 + INT_MAX)) (no_channels s) s = Returns (-2) s /\
  exists s', process_samples (hdr := demo_header) [0; 0] 2 INT_MAX s
             = Traps (OutOfBounds "toVolts") s'.
Proof.
  cbv zeta. split; [cbn; lia|]. split; [unfold INT_MAX; lia|].
  split; [reflexivity|]. eexists. vm_compute. reflexivity.
Qed.

(** C10, amended.  With [1 <= C <= MAX_CHANNELS] channels in a table of
    [MAX_CHANNELS] entries and an offset [O >= 0] such that [L + O] is an
    [int], every channel index [(i + O) % C] computed for [0 <= i < L] is
    [(i + O) mod C] and lies in [0, C); the divisor is not zero; and the
    call reaches no division by zero, no index outside [toVolts], [sum] or
    [channel] and no unwritten cell: the only traps left are those of a
    closed file and of a buffer shorter than [L]. *)
Theorem channel_index_in_bounds {hdr : UsbDask} (s : state) (buffer : list Z) (L O : Z) :
  1 <= no_channels s <= MAX_CHANNELS ->
  Z.of_nat (length (channel s)) = MAX_CHANNELS ->
  0 <= O -> L + O <= INT_MAX ->
  (forall i t, 0 <= i < L ->
     int_rem (to_int (i + O)) (no_channels s) t = Returns ((i + O) mod no_channels s) t /\
     0 <= (i + O) mod no_channels s < no_channels s) /\
  (forall t s', process_samples buffer L O s = Traps t s' ->
     t = NullStream \/ t = OutOfBounds "buffer") /\
  (forall c s', process_samples buffer L O s <> Exits c s').
Proof.
  intros Hnc Hlen HO Hmax. split; [|split].
  - intros i t Hi.
    destruct (sample_index_in_range (no_channels s) O i) as [Hrem Hc]; try lia.
    split; [|exact Hc]. unfold int_rem.
    destruct (Z.eqb_spec (no_channels s) 0); [lia|]. rewrite Hrem. reflexivity.
  - intros t s' Hrun.
    pose proof (process_samples_traps s buffer L O Hnc Hlen HO Hmax) as H.
    rewrite Hrun in H. exact H.
  - intros c s' Hrun.
    pose proof (process_samples_traps s buffer L O Hnc Hlen HO Hmax) as H.
    rewrite Hrun in H. exact H.
Qed.

Lemma channel_index_in_bounds_witness :
  (forall i t, 0 <= i < 4 ->
     int_rem (to_int (i + 1)) (no_channels demo_state) t
     = Returns ((i + 1) mod no_channels demo_state) t /\
     0 <= (i + 1) mod no_channels demo_state < no_channels demo_state) /\
  (forall t s', process_samples (hdr := demo_header) [16384; 16384; 0; 0] 4 1 demo_state
                = Traps t s' ->
     t = NullStream \/ t = OutOfBounds "buffer") /\
  (forall c s', process_samples (hdr := demo_header) [16384; 16384; 0; 0] 4 1 demo_state
                <> Exits c s').
Proof.
  refine (channel_index_in_bounds (hdr := demo_header) demo_state
            [16384; 16384; 0; 0] 4 1 _ _ _ _);
    cbn; unfold INT_MAX, MAX_CHANNELS; lia.
Defined.

(** ** Argument parsing *)

Lemma bind_assoc {A B C} (m : M A) (k : A -> M B) (h : B -> M C) s :
  bind (bind m k) h s = bind m (fun a => bind (k a) h) s.
Proof. unfold bind. destruct (m s); reflexivity. Qed.

Lemma bind_exits {A B} (m : M A) (k : A -> M B) s c s' :
  m s = Exits c s' -> bind m k s = Exits c s'.
Proof. unfold bind. intros ->. reflexivity. Qed.

Lemma bad_option_bind {A B} fmt args (k : A -> M B) s :
  bind (bad_option fmt args) k s = bad_option fmt args s.
Proof. reflexivity. Qed.

Lemma arguments_loop_cons {hdr : UsbDask} argv0 a rest s :
  arguments_loop argv0 (a :: rest) s
  = bind (option_step argv0 a rest) (arguments_loop argv0) s.
Proof.
  cbn [arguments_loop]. unfold option_step.
  destruct (String.eqb a "-h"); [rewrite bind_assoc; reflexivity|].
  destruct (String.eqb a "-o").
  { destruct rest; [reflexivity|]. rewrite bind_assoc. reflexivity. }
  destruct (String.eqb a "-s").
  { destruct rest as [|v rest]; [reflexivity|].
    destruct (scanned_1 (sscanf_d v)) as [n|]; [|reflexivity].
    destruct (n <? 1); [reflexivity|]. rewrite bind_assoc. reflexivity. }
  destruct (String.eqb a "-c").
  { rewrite bind_assoc. unfold bind at 1 3. cbn [get].
    destruct (no_channels s <? MAX_CHANNELS); [|reflexivity].
    destruct rest as [|v rest]; [reflexivity|].
    destruct (scanned_2 (sscanf_d_colon_d v)) as [[i r]|]; [|reflexivity].
    destruct (_ || _); [reflexivity|]. rewrite bind_assoc. reflexivity. }
  destruct (String.eqb a "-d").
  { destruct rest as [|v rest]; [reflexivity|].
    destruct (scanned_1 (sscanf_d v)) as [n|]; [|reflexivity].
    destruct (n <? 1); [reflexivity|]. rewrite bind_assoc. reflexivity. }
  reflexivity.
Qed.

Lemma then_ret_inv {A B} (m : M A) (b : B) s b' s' :
  bind m (fun _ => ret b) s = Returns b' s' -> b' = b /\ exists a, m s = Returns a s'.
Proof.
  intros H. apply bind_returns_inv in H as (a & t & Hm & Hr).
  injection Hr as <- <-. split; [reflexivity|]. exists a. exact Hm.
Qed.

Lemma then_ret_run {A B} (m : M A) (b : B) s a s' :
  m s = Returns a s' -> bind m (fun _ => ret b) s = Returns b s'.
Proof. intros H. rewrite (bind_returns _ _ _ _ _ H). reflexivity. Qed.

(** An option that is accepted takes exactly one value, and what follows
    the value plays no part. *)
Lemma option_step_returns {hdr : UsbDask} argv0 a rest s rest' s' :
  option_step argv0 a rest s = Returns rest' s' ->
  (exists v, rest = v :: rest') /\
  (forall suf, option_step argv0 a (rest ++ suf) s = Returns (rest' ++ suf) s').
Proof.
  unfold option_step.
  destruct (String.eqb a "-h").
  { intros H. apply bind_returns_inv in H as (? & ? & _ & H). discriminate H. }
  destruct (String.eqb a "-o").
  { destruct rest as [|v rest]; [discriminate|]. intros H.
    apply then_ret_inv in H as [-> [u Hm]]. split; [eauto|].
    intros suf. cbn [app]. apply (then_ret_run _ _ _ _ _ Hm). }
  destruct (String.eqb a "-s").
  { destruct rest as [|v rest]; [discriminate|]. cbn [app].
    destruct (scanned_1 (sscanf_d v)) as [n|]; [|discriminate].
    destruct (n <? 1); [discriminate|]. intros H.
    apply then_ret_inv in H as [-> [u Hm]]. split; [eauto|].
    intros suf. apply (then_ret_run _ _ _ _ _ Hm). }
  destruct (String.eqb a "-c").
  { unfold bind at 1 3. cbn [get].
    destruct (no_channels s <? MAX_CHANNELS); [|discriminate].
    destruct rest as [|v rest]; [discriminate|]. cbn [app].
    destruct (scanned_2 (sscanf_d_colon_d v)) as [[i r]|]; [|discriminate].
    destruct (_ || _); [discriminate|]. intros H.
    apply then_ret_inv in H as [-> [u Hm]]. split; [eauto|].
    intros suf. apply (then_ret_run _ _ _ _ _ Hm). }
  destruct (String.eqb a "-d").
  { destruct rest as [|v rest]; [discriminate|]. cbn [app].
    destruct (scanned_1 (sscanf_d v)) as [n|]; [|discriminate].
    destruct (n <? 1); [discriminate|]. intros H.
    apply then_ret_inv in H as [-> [u Hm]]. split; [eauto|].
    intros suf. apply (then_ret_run _ _ _ _ _ Hm). }
  discriminate.
Qed.

(** The recursion of [arguments_loop]: two arguments at a time. *)
Lemma arguments_ind (P : list string -> Prop) :
  P [] -> (forall a, P [a]) ->
  (forall a v rest, P rest -> P (a :: v :: rest)) ->
  forall l, P l.
Proof.
  intros H0 H1 H2 l.
  assert (H : P l /\ forall a, P (a :: l)); [|exact (proj1 H)].
  induction l as [|v rest [IH1 IH2]]; [auto|].
  split; [apply IH2|]. intros a. apply H2. exact IH1.
Qed.

(** Arguments that were accepted do not change what the loop does with the
    arguments after them. *)
Lemma arguments_loop_app {hdr : UsbDask} argv0 pre :
  forall s s1 suf,
  arguments_loop argv0 pre s = Returns tt s1 ->
  arguments_loop argv0 (pre ++ suf) s = arguments_loop argv0 suf s1.
Proof.
  induction pre as [| a | a v rest IH] using arguments_ind; intros s s1 suf Hrun.
  - injection Hrun as <-. reflexivity.
  - rewrite arguments_loop_cons in Hrun.
    apply bind_returns_inv in Hrun as (rest' & t & Hstep & _).
    apply option_step_returns in Hstep as [[v Hv] _]. discriminate Hv.
  - rewrite arguments_loop_cons in Hrun.
    apply bind_returns_inv in Hrun as (rest' & t & Hstep & Hrun).
    pose proof (option_step_returns _ _ _ _ _ _ Hstep) as [[v' Hv] Happ].
    injection Hv as <- <-.
    change ((a :: v :: rest) ++ suf) with (a :: (v :: rest) ++ suf).
    rewrite arguments_loop_cons. rewrite (bind_returns _ _ _ _ _ (Happ suf)).
    apply IH. exact Hrun.
Qed.


(** *** [add_channel] *)

Lemma add_channel_run {hdr : UsbDask} id_ range s :
  0 <= no_channels s < Z.of_nat (length (channel s)) ->
  add_channel id_ range s = Returns tt (with_channel s id_ range).
Proof.
  intros Hnc. unfold add_channel.
  rewrite (bind_returns _ _ _ _ _ (get_ok no_channels s)). cbv beta.
  rewrite (bind_returns _ _ _ _ _ (get_ok channel s)). cbv beta.
  destruct (lookup_lt_is_Some_2 (channel s) (Z.to_nat (no_channels s))) as [ch Hch]; [lia|].
  rewrite (bind_returns _ _ _ _ _
             (load_ok "channel" (channel s) (no_channels s) ch s (proj1 Hnc) Hch)).
  erewrite bind_returns by (apply store_ok; lia).
  unfold with_channel, new_channel. rewrite (chan_at_lookup _ _ _ Hch).
  destruct (range_code range) as [code|].
  - erewrite bind_returns.
    2:{ erewrite bind_returns.
        2:{ apply load_ok; [lia|]. apply list_lookup_insert_eq. lia. }
        apply store_ok. rewrite length_insert. lia. }
    rewrite list_insert_insert_eq. reflexivity.
  - reflexivity.
Qed.

Lemma add_channel_returns {hdr : UsbDask} id_ range s s' :
  add_channel id_ range s = Returns tt s' ->
  0 <= no_channels s < Z.of_nat (length (channel s)) /\ s' = with_channel s id_ range.
Proof.
  intros Hrun.
  assert (Hnc : 0 <= no_channels s < Z.of_nat (length (channel s))).
  { pose proof Hrun as H. unfold add_channel, bind, get, load in H.
    destruct (Z.ltb_spec (no_channels s) 0); [discriminate|].
    destruct (channel s !! Z.to_nat (no_channels s)) eqn:E; [|discriminate].
    apply lookup_lt_Some in E. lia. }
  split; [exact Hnc|]. rewrite add_channel_run in Hrun by exact Hnc. congruence.
Qed.

(** *** What accepted arguments leave behind *)

(** An accepted option writes nothing and takes no answer. *)
Lemma option_step_quiet {hdr : UsbDask} argv0 a rest s rest' s' :
  option_step argv0 a rest s = Returns rest' s' ->
  trace s' = trace s /\ inputs s' = inputs s.
Proof.
  unfold option_step.
  destruct (String.eqb a "-h").
  { intros H. apply bind_returns_inv in H as (? & ? & _ & H). discriminate H. }
  destruct (String.eqb a "-o").
  { destruct rest as [|v rest]; [discriminate|]. intros H.
    injection H as _ <-. auto. }
  destruct (String.eqb a "-s").
  { destruct rest as [|v rest]; [discriminate|].
    destruct (scanned_1 (sscanf_d v)) as [n|]; [|discriminate].
    destruct (n <? 1); [discriminate|]. intros H. injection H as _ <-. auto. }
  destruct (String.eqb a "-c").
  { unfold bind at 1. cbn [get].
    destruct (no_channels s <? MAX_CHANNELS); [|discriminate].
    destruct rest as [|v rest]; [discriminate|].
    destruct (scanned_2 (sscanf_d_colon_d v)) as [[i r]|]; [|discriminate].
    destruct (_ || _); [discriminate|]. intros H.
    apply then_ret_inv in H as [_ [[] Hm]].
    apply add_channel_returns in Hm as [_ ->]. auto. }
  destruct (String.eqb a "-d").
  { destruct rest as [|v rest]; [discriminate|].
    destruct (scanned_1 (sscanf_d v)) as [n|]; [|discriminate].
    destruct (n <? 1); [discriminate|]. intros H. injection H as _ <-. auto. }
  discriminate.
Qed.

(** A property that every accepted option keeps holds when the loop
    returns. *)
Lemma arguments_loop_invariant {hdr : UsbDask} (Inv : state -> Prop) argv0 :
  (forall a rest s rest' s',
     Inv s -> option_step argv0 a rest s = Returns rest' s' -> Inv s') ->
  forall rest s s1,
  Inv s -> arguments_loop argv0 rest s = Returns tt s1 -> Inv s1.
Proof.
  intros Hstep rest.
  induction rest as [| a | a v rest IH] using arguments_ind; intros s s1 HI Hrun.
  - injection Hrun as <-. exact HI.
  - rewrite arguments_loop_cons in Hrun.
    apply bind_returns_inv in Hrun as (rest' & t & Hs & _).
    apply option_step_returns in Hs as [[v Hv] _]. discriminate Hv.
  - rewrite arguments_loop_cons in Hrun.
    apply bind_returns_inv in Hrun as (rest' & t & Hs & Hrun).
    pose proof (option_step_returns _ _ _ _ _ _ Hs) as [[v' Hv] _].
    injection Hv as <- <-.
    apply (IH t s1); [|exact Hrun]. apply (Hstep _ _ _ _ _ HI Hs).
Qed.

Lemma process_arguments_quiet {hdr : UsbDask} argv s s1 :
  process_arguments argv s = Returns tt s1 ->
  trace s1 = trace s /\ inputs s1 = inputs s.
Proof.
  unfold process_arguments. intros H.
  apply bind_returns_inv in H as ([] & t & Hm & Hrun). injection Hm as <-.
  destruct argv as [|argv0 rest]; [injection Hrun as <-; auto|].
  apply (arguments_loop_invariant
           (fun u => trace u = trace s /\ inputs u = inputs s) (AStr argv0))
    with (rest := rest) (s := set_no_channels 0 s); [|auto|exact Hrun].
  intros a r u r' u' [Ht Hi] Hs. apply option_step_quiet in Hs as [-> ->]. auto.
Qed.


Lemma option_step_channels {hdr : UsbDask} argv0 a rest s rest' s' :
  option_step argv0 a rest s = Returns rest' s' ->
  0 <= no_channels s <= MAX_CHANNELS ->
  no_channels s' = no_channels s + (if String.eqb a "-c" then 1 else 0) /\
  no_channels s' <= MAX_CHANNELS.
Proof.
  unfold option_step.
  destruct (String.eqb_spec a "-h") as [->|_].
  { intros H. apply bind_returns_inv in H as (? & ? & _ & H). discriminate H. }
  destruct (String.eqb_spec a "-o") as [->|_].
  { destruct rest as [|v rest]; [discriminate|]. intros H Hb.
    injection H as _ <-. cbn. lia. }
  destruct (String.eqb_spec a "-s") as [->|_].
  { destruct rest as [|v rest]; [discriminate|].
    destruct (scanned_1 (sscanf_d v)) as [n|]; [|discriminate].
    destruct (n <? 1); [discriminate|]. intros H Hb. injection H as _ <-. cbn. lia. }
  destruct (String.eqb_spec a "-c") as [->|_].
  { unfold bind at 1. cbn [get].
    destruct (Z.ltb_spec (no_channels s) MAX_CHANNELS) as [Hlt|_]; [|discriminate].
    destruct rest as [|v rest]; [discriminate|].
    destruct (scanned_2 (sscanf_d_colon_d v)) as [[i r]|]; [|discriminate].
    destruct (_ || _); [discriminate|]. intros H Hnc.
    apply then_ret_inv in H as [_ [[] Hm]].
    apply add_channel_returns in Hm as [_ ->]. cbn.
    unfold MAX_CHANNELS in *. rewrite to_int_id by (unfold INT_MIN, INT_MAX; lia). lia. }
  destruct (String.eqb_spec a "-d") as [->|_].
  { destruct rest as [|v rest]; [discriminate|].
    destruct (scanned_1 (sscanf_d v)) as [n|]; [|discriminate].
    destruct (n <? 1); [discriminate|]. intros H Hb. injection H as _ <-. cbn. lia. }
  discriminate.
Qed.

Lemma arguments_loop_channels {hdr : UsbDask} argv0 rest :
  forall s s1,
  arguments_loop argv0 rest s = Returns tt s1 ->
  0 <= no_channels s <= MAX_CHANNELS ->
  no_channels s1 = no_channels s + channel_options rest /\
  0 <= no_channels s1 <= MAX_CHANNELS.
Proof.
  induction rest as [| a | a v rest IH] using arguments_ind; intros s s1 Hrun Hnc.
  - injection Hrun as <-. cbn. lia.
  - rewrite arguments_loop_cons in Hrun.
    apply bind_returns_inv in Hrun as (rest' & t & Hs & _).
    apply option_step_returns in Hs as [[v Hv] _]. discriminate Hv.
  - rewrite arguments_loop_cons in Hrun.
    apply bind_returns_inv in Hrun as (rest' & t & Hs & Hrun).
    pose proof (option_step_returns _ _ _ _ _ _ Hs) as [[v' Hv] _].
    injection Hv as <- <-.
    apply option_step_channels in Hs as [Hn Hle]; [|exact Hnc].
    destruct (IH t s1 Hrun) as [Hn1 Hb1].
    { destruct (String.eqb a "-c"); lia. }
    split; [|exact Hb1]. cbn [channel_options]. lia.
Qed.

Lemma process_arguments_loop {hdr : UsbDask} argv0 rest s s1 :
  process_arguments (argv0 :: rest) s = Returns tt s1 <->
  arguments_loop (AStr argv0) rest (set_no_channels 0 s) = Returns tt s1.
Proof. reflexivity. Qed.

(** After accepted arguments, a first argument that the loop refuses ends
    [process_arguments], and [main] with it, in [exit(-1)] after one line
    on [stderr]. *)
Lemma refused_argument {hdr : UsbDask} argv0 pre rest stack s s1 e :
  process_arguments (argv0 :: pre) s = Returns tt s1 ->
  arguments_loop (AStr argv0) rest s1 = Exits (-1) (set_trace (trace s1 ++ [e]) s1) ->
  process_arguments (argv0 :: pre ++ rest) s = Exits (-1) (set_trace (trace s ++ [e]) s1) /\
  main (argv0 :: pre ++ rest) stack s = Exits (-1) (set_trace (trace s ++ [e]) s1).
Proof.
  intros Hpre Hbad.
  destruct (process_arguments_quiet _ _ _ Hpre) as [Ht _].
  assert (H : process_arguments (argv0 :: pre ++ rest) s
              = Exits (-1) (set_trace (trace s ++ [e]) s1)).
  { apply process_arguments_loop in Hpre.
    change (process_arguments (argv0 :: pre ++ rest) s)
      with (arguments_loop (AStr argv0) (pre ++ rest) (set_no_channels 0 s)).
    rewrite (arguments_loop_app _ _ _ _ _ Hpre), Hbad, Ht. reflexivity. }
  split; [exact H|]. unfold main. apply bind_exits. exact H.
Qed.

(** C7 as stated fails: [sscanf] stops reading where the numbers end, so
    the value [3:1junk], which is not of the form [<channel id>:<range>], is
    taken as channel 3 with range 1, without a message and without
    [exit]. *)
Lemma trailing_text_accepted :
  sscanf_d_colon_d "3:1junk" = (2, [3; 1]) /\
  exists s',
    process_arguments (hdr := demo_header) ["prog"; "-c"; "3:1junk"]%string
                      (initial_state []) = Returns tt s' /\
    trace s' = [] /\ no_channels s' = 1 /\
    channel s' !! 0%nat = Some (mk_channel 3 (AD_B_1_V (UsbDask := demo_header))).
Proof.
  split; [reflexivity|]. eexists. split; [vm_compute; reflexivity|].
  repeat split.
Qed.

(** C7, amended.  After any arguments that were accepted,
    [process_arguments] ends the process with [exit(-1)], after one message
    on [stderr] and before anything else is written or any driver call is
    made, when the next argument is
    - [-c] with a value from which [sscanf] does not convert two numbers,
      or converts a channel id outside [0, 15] or a range outside [0, 3]
      (as for [16:0] and [3:9]), or without a value;
    - [-c] when [MAX_CHANNELS] channels were accepted already (a ninth
      [-c]);
    - an argument that is none of [-h], [-o], [-s], [-c], [-d];
    - [-o] without a value; [-s] or [-d] without a value, or with a value
      from which [sscanf] converts no number or a number below 1.
    Characters after the converted numbers are not looked at.  The
    configuration accepted so far is not used: the call does not return. *)
Theorem malformed_arguments_rejected {hdr : UsbDask}
    (argv0 : string) (pre : list string) (stack : list Z) (s s1 : state) :
  process_arguments (argv0 :: pre) s = Returns tt s1 ->
  let rejected (rest : list string) (fmt : string) (args : list arg) : Prop :=
    let final :=
      set_trace (trace s ++ [EvPrintf Stderr (String.append fmt NL) (AStr argv0 :: args)]) s1 in
    process_arguments (argv0 :: pre ++ rest) s = Exits (-1) final /\
    main (argv0 :: pre ++ rest) stack s = Exits (-1) final in
  no_channels s1 = channel_options pre /\
  (forall v rest,
     channel_options pre < MAX_CHANNELS ->
     (forall id_ range, sscanf_d_colon_d v = (2, [id_; range]) ->
                        id_ < 0 \/ 15 < id_ \/ range < 0 \/ 3 < range) ->
     rejected ("-c" :: v :: rest)%string "%s: Bad parameter '%s' given to '-c'."%string [AStr v]) /\
  (channel_options pre < MAX_CHANNELS ->
   rejected ["-c"%string] "%s: Bad parameter '%s' given to '-c'."%string [ANull]) /\
  (forall rest,
     MAX_CHANNELS <= channel_options pre ->
     rejected ("-c" :: rest)%string "%s: Too many channels."%string []) /\
  (forall a rest,
     a <> "-h"%string -> a <> "-o"%string -> a <> "-s"%string ->
     a <> "-c"%string -> a <> "-d"%string ->
     rejected (a :: rest) "%s: Unknown commandline argument '%s'."%string [AStr a]) /\
  rejected ["-o"%string] "%s: No file name given to '-o'."%string [] /\
  rejected ["-s"%string] "%s: Bad sample frequency given to '-s'."%string [] /\
  rejected ["-d"%string] "%s: Bad duration given to '-d'."%string [] /\
  (forall v rest,
     (forall n, sscanf_d v = (1, [n]) -> n < 1) ->
     rejected ("-s" :: v :: rest)%string "%s: Bad sample frequency given to '-s'."%string [] /\
     rejected ("-d" :: v :: rest)%string "%s: Bad duration given to '-d'."%string []).
Proof.
  intros Hpre rejected.
  assert (Hcount : no_channels s1 = channel_options pre).
  { apply process_arguments_loop in Hpre.
    apply arguments_loop_channels in Hpre as [-> _]; cbn; unfold MAX_CHANNELS; lia. }
  assert (Hscan1 : forall v, (forall n, sscanf_d v = (1, [n]) -> n < 1) ->
            match scanned_1 (sscanf_d v) with
            | Some n => (n <? 1) = true
            | None => True
            end).
  { intros v Hv. destruct (sscanf_d v) as [r l] eqn:E. unfold scanned_1.
    destruct r as [|[p|p|]|]; try exact Logic.I.
    destruct l as [|n [|? ?]]; try exact Logic.I.
    apply Z.ltb_lt. apply Hv. reflexivity. }
  split; [exact Hcount|].
  split.
  { intros v rest Hlt Hv. apply (refused_argument _ _ _ _ _ _ _ Hpre).
    rewrite arguments_loop_cons. unfold option_step. cbn [String.eqb Ascii.eqb Bool.eqb].
    unfold bind at 1 2. cbn [get]. cbv beta. rewrite Hcount.
    destruct (Z.ltb_spec (channel_options pre) MAX_CHANNELS) as [_|?]; [|lia].
    destruct (sscanf_d_colon_d v) as [r l] eqn:E. unfold scanned_2.
    destruct r as [|[[p|p|]|[p|p|]|]|]; try reflexivity.
    destruct l as [|i [|r [|? ?]]]; try reflexivity.
    destruct (Hv i r eq_refl) as [H|[H|[H|H]]].
    + apply Z.ltb_lt in H. rewrite H. reflexivity.
    + apply Z.gtb_lt in H. rewrite H, !orb_true_r. reflexivity.
    + apply Z.ltb_lt in H. rewrite H, !orb_true_r. reflexivity.
    + apply Z.gtb_lt in H. rewrite H, !orb_true_r. reflexivity. }
  split.
  { intros Hlt. apply (refused_argument _ _ _ _ _ _ _ Hpre).
    rewrite arguments_loop_cons. unfold option_step. cbn [String.eqb Ascii.eqb Bool.eqb].
    unfold bind at 1 2. cbn [get]. cbv beta. rewrite Hcount.
    destruct (Z.ltb_spec (channel_options pre) MAX_CHANNELS); [|lia]. reflexivity. }
  split.
  { intros rest Hge. apply (refused_argument _ _ _ _ _ _ _ Hpre).
    rewrite arguments_loop_cons. unfold option_step. cbn [String.eqb Ascii.eqb Bool.eqb].
    unfold bind at 1 2. cbn [get]. cbv beta. rewrite Hcount.
    destruct (Z.ltb_spec (channel_options pre) MAX_CHANNELS); [lia|]. reflexivity. }
  split.
  { intros a rest H1 H2 H3 H4 H5. apply (refused_argument _ _ _ _ _ _ _ Hpre).
    rewrite arguments_loop_cons. unfold option_step.
    apply String.eqb_neq in H1, H2, H3, H4, H5. rewrite H1, H2, H3, H4, H5. reflexivity. }
  split; [apply (refused_argument _ _ _ _ _ _ _ Hpre); reflexivity|].
  split; [apply (refused_argument _ _ _ _ _ _ _ Hpre); reflexivity|].
  split; [apply (refused_argument _ _ _ _ _ _ _ Hpre); reflexivity|].
  intros v rest Hv. pose proof (Hscan1 v Hv) as Hs.
  split; apply (refused_argument _ _ _ _ _ _ _ Hpre);
    rewrite arguments_loop_cons; unfold option_step; cbn [String.eqb Ascii.eqb Bool.eqb];
    (destruct (scanned_1 (sscanf_d v)); [rewrite Hs|]; reflexivity).
Qed.

Lemma malformed_arguments_rejected_witness :
  (exists final,
     process_arguments (hdr := demo_header) ["prog"; "-c"; "16:0"]%string (initial_state [])
     = Exits (-1) final) /\
  (exists final,
     process_arguments (hdr := demo_header) ["prog"; "-c"; "3:9"]%string (initial_state [])
     = Exits (-1) final) /\
  (exists final,
     process_arguments (hdr := demo_header)
       ["prog"; "-c"; "0:0"; "-c"; "1:0"; "-c"; "2:0"; "-c"; "3:0"; "-c"; "4:0";
        "-c"; "5:0"; "-c"; "6:0"; "-c"; "7:0"; "-c"; "8:0"]%string (initial_state [])
     = Exits (-1)
         (set_trace [EvPrintf Stderr (String.append "%s: Too many channels." NL) [AStr "prog"]]
                    final)).
Proof.
  assert (H0 : process_arguments (hdr := demo_header) ["prog"%string] (initial_state [])
               = Returns tt (set_no_channels 0 (initial_state []))) by reflexivity.
  pose proof (malformed_arguments_rejected (hdr := demo_header)
                "prog" [] [] _ _ H0) as (_ & Hbad & _).
  split; [|split].
  - eexists. refine (proj1 (Hbad "16:0"%string [] _ _)); [cbn; unfold MAX_CHANNELS; lia|].
    intros i r E. vm_compute in E. injection E as <- <-. lia.
  - eexists. refine (proj1 (Hbad "3:9"%string [] _ _)); [cbn; unfold MAX_CHANNELS; lia|].
    intros i r E. vm_compute in E. injection E as <- <-. lia.
  - eassert (H8 : process_arguments (hdr := demo_header)
               ["prog"; "-c"; "0:0"; "-c"; "1:0"; "-c"; "2:0"; "-c"; "3:0"; "-c"; "4:0";
                "-c"; "5:0"; "-c"; "6:0"; "-c"; "7:0"]%string (initial_state [])
               = Returns tt _) by (vm_compute; reflexivity).
    pose proof (malformed_arguments_rejected (hdr := demo_header)
                  "prog" _ [] _ _ H8) as (_ & _ & _ & Hninth & _).
    eexists. refine (proj1 (Hninth ["8:0"%string] _)). vm_compute. discriminate.
Defined.

(** ** [main]: the loop and what follows it *)

Lemma globals_kept_refl s : globals_kept s s.
Proof. unfold globals_kept. auto 10. Qed.

Lemma globals_kept_trace s t tr : globals_kept s t -> globals_kept s (set_trace tr t).
Proof. intros H. exact H. Qed.

Lemma globals_kept_inputs s t i : globals_kept s t -> globals_kept s (set_inputs i t).
Proof. intros H. exact H. Qed.

Lemma globals_kept_trans s t u : globals_kept s t -> globals_kept t u -> globals_kept s u.
Proof. unfold globals_kept. intuition congruence. Qed.

Lemma cleanup_events_kept s t : globals_kept s t -> cleanup_events t = cleanup_events s.
Proof. intros (_ & Hf & Hc & _). unfold cleanup_events. rewrite Hf, Hc. reflexivity. Qed.

Lemma clean_exit_run {A} c code s :
  clean_exit (A := A) c code s
  = Exits code
      (set_trace (trace s ++ EvDriver (UD_Release_Card c)
                    :: match file s with Some f => [EvFclose f] | None => [] end) s).
Proof.
  unfold clean_exit, bind, emit, get, exit. cbn.
  destruct (file s); cbn; [rewrite <- app_assoc|]; reflexivity.
Qed.

Lemma post_answer s (R : response -> state -> Prop) E T :
  (forall r rest, inputs s = r :: rest -> R r (set_inputs rest s)) ->
  post (answer s) R E T.
Proof. intros H. unfold answer. destruct (inputs s) as [|r rest]; [exact Logic.I|]. apply H. reflexivity. Qed.

Lemma post_ask e s (R : response -> state -> Prop) E T :
  (forall r rest, inputs s = r :: rest ->
     R r (set_inputs rest (set_trace (trace s ++ [e]) s))) ->
  post (ask e s) R E T.
Proof.
  intros H. unfold ask. apply post_bind, post_emit. apply post_answer.
  intros r rest Hi. apply H. exact Hi.
Qed.

Lemma post_ask_int e s (R : Z -> state -> Prop) E T :
  (forall v rest, inputs s = RInt v :: rest ->
     R v (set_inputs rest (set_trace (trace s ++ [e]) s))) ->
  post (ask_int e s) R E T.
Proof.
  intros H. unfold ask_int. apply post_bind, post_ask. intros r rest Hi.
  destruct r; try exact Logic.I. apply H. exact Hi.
Qed.

Lemma post_wait {A} s (R : A -> state -> Prop) E T : post (wait (A := A) s) R E T.
Proof. exact Logic.I. Qed.

Lemma post_clean_exit {A} c code s (R : A -> state -> Prop) (E : Z -> state -> Prop) T :
  E code (set_trace (trace s ++ EvDriver (UD_Release_Card c)
                       :: match file s with Some f => [EvFclose f] | None => [] end) s) ->
  post (clean_exit c code s) R E T.
Proof. intros H. rewrite clean_exit_run. exact H. Qed.

Lemma post_printf fmt args s (R : unit -> state -> Prop) E T :
  R tt (set_trace (trace s ++ [EvPrintf Stdout fmt args]) s) -> post (printf fmt args s) R E T.
Proof. intros H. exact H. Qed.

Lemma post_fprintf_stderr fmt args s (R : unit -> state -> Prop) E T :
  R tt (set_trace (trace s ++ [EvPrintf Stderr fmt args]) s) ->
  post (fprintf_stderr fmt args s) R E T.
Proof. intros H. exact H. Qed.

Section Main.
Context {hdr : UsbDask}.

(** [process_samples] never calls [exit] and leaves the globals and the
    script alone. *)
Lemma process_samples_keeps s buffer L O :
  post (process_samples buffer L O s)
       (fun _ t => globals_kept s t /\ inputs t = inputs s)
       (fun _ _ => False) (fun _ _ => True).
Proof.
  set (T := fun (_ : trap) (_ : state) => True).
  set (E := fun (_ : Z) (_ : state) => False).
  set (K := fun t => globals_kept s t /\ inputs t = inputs s).
  assert (K0 : K s) by (split; [apply globals_kept_refl|reflexivity]).
  assert (Kt : forall t tr, K t -> K (set_trace tr t)) by (intros t tr H; exact H).
  unfold process_samples.
  apply post_bind, post_get. apply post_bind, post_get.
  apply post_bind, post_int_div; [intros _|intros _; exact Logic.I].
  apply post_bind.
  eapply post_weaken;
    [apply (post_for_to (fun _ (_ : list (option float) * list (option float)) t => K t) _ E T)
    | |auto|auto].
  { exact K0. }
  { intros j [tv sm] t Hj HK.
    apply post_bind, post_store; [intros _|intros _; exact Logic.I].
    apply post_bind, post_load; [intros ch _ _|intros _; exact Logic.I].
    apply post_bind. rewrite ad_range_to_volt_run. cbn [post].
    apply post_bind, post_store; [intros _|intros _; exact Logic.I].
    apply post_ret. destruct (known_range _); [exact HK|apply Kt; exact HK]. }
  intros [tv sm] t1 HK1. cbv beta iota.
  apply post_bind.
  eapply post_weaken;
    [apply (post_for_to (fun _ (_ : list (option float)) t => K t) _ E T)| |auto|auto].
  { exact HK1. }
  { intros j sm' t Hj HK.
    apply post_bind, post_int_rem; [intros _|intros _; exact Logic.I].
    apply post_bind, post_load; [intros raw _ _|intros _; exact Logic.I].
    apply post_bind, post_load_init; [intros x _ _|intros _; exact Logic.I|intros _; exact Logic.I].
    apply post_bind, post_load_init; [intros y _ _|intros _; exact Logic.I|intros _; exact Logic.I].
    apply post_bind, post_store; [intros _|intros _; exact Logic.I].
    apply post_bind, post_int_rem; [intros _|intros _; exact Logic.I].
    apply post_bind.
    destruct (negb _); (apply post_fprintf_file; [intros _|intros _; exact Logic.I]);
      apply post_ret; apply Kt; exact HK. }
  intros sm' t2 HK2. cbv beta.
  apply post_bind.
  eapply post_weaken;
    [apply (post_for_to (fun _ (_ : unit) t => K t) _ E T)| |auto|auto].
  { exact HK2. }
  { intros j [] t Hj HK.
    apply post_bind, post_load; [intros ch _ _|intros _; exact Logic.I].
    apply post_bind, post_load_init; [intros x _ _|intros _; exact Logic.I|intros _; exact Logic.I].
    apply post_printf. apply Kt. exact HK. }
  intros u t3 HK3. cbv beta in HK3 |- *.
  apply post_bind, post_int_rem; [intros _|intros _; exact Logic.I].
  apply post_ret. exact HK3.
Qed.


Lemma exits_clean_intro s0 t :
  globals_kept s0 t ->
  exits_clean s0
    (set_trace (trace t ++ EvDriver (UD_Release_Card (to_U16 (card t)))
                  :: match file t with Some f => [EvFclose f] | None => [] end) t).
Proof.
  intros HK. exists (trace t). cbn. f_equal.
  rewrite <- (cleanup_events_kept _ _ HK). reflexivity.
Qed.

Lemma post_transfer c buf s (R : Z * list Z -> state -> Prop) E T :
  (forall err data rest,
     inputs s = RTransfer err data :: rest ->
     R (to_I16 err,
        take (length buf) (map to_I16 data ++ drop (length (map to_I16 data)) buf))
       (set_inputs rest
          (set_trace (trace s ++ [EvDriver (UD_AI_AsyncDblBufferTransfer c)]) s))) ->
  post (transfer c buf s) R E T.
Proof.
  intros H. unfold transfer. apply post_bind, post_ask. intros r rest Hi.
  destruct r; try exact Logic.I. apply post_ret. apply H. exact Hi.
Qed.

Lemma post_process_samples_kept s0 buffer L O t (R : Z -> state -> Prop) E :
  globals_kept s0 t ->
  (forall r u, globals_kept s0 u -> R r u) ->
  post (process_samples buffer L O t) R E (fun _ _ => True).
Proof.
  intros HK HR.
  eapply post_weaken; [apply (process_samples_keeps t buffer L O)| | |].
  - intros r u [Hu _]. apply HR. apply (globals_kept_trans _ _ _ HK Hu).
  - intros c u [].
  - intros tr u _. exact Logic.I.
Qed.

Lemma exits_clean_make s0 t c :
  globals_kept s0 t -> c = to_U16 (card s0) ->
  exits_clean s0
    (set_trace (trace t ++ EvDriver (UD_Release_Card c)
                  :: match file t with Some f => [EvFclose f] | None => [] end) t).
Proof.
  intros (_ & Hf & _) ->. exists (trace t). unfold cleanup_events.
  cbn [trace set_trace]. rewrite Hf. reflexivity.
Qed.

Lemma post_seq {A B} (m : M A) (k : A -> M B) s (Q : A -> state -> Prop) R E T :
  post (m s) Q E T -> (forall a t, Q a t -> post (k a t) R E T) ->
  post (bind m k s) R E T.
Proof.
  intros Hm Hk. apply post_bind. eapply post_weaken; [exact Hm| |auto|auto].
  exact Hk.
Qed.

(** The error branch of [main]'s loop and of what follows it. *)
Lemma fatal_branch_post s0 t (err : Z) (h : M unit) (E : Z -> state -> Prop) :
  globals_kept s0 t ->
  post (h t) (fun _ _ => False) E (fun _ _ => True) ->
  post ((if err <? 0 then h else ret tt) t)
       (fun _ u => globals_kept s0 u) E (fun _ _ => True).
Proof.
  intros HK Hh. destruct (err <? 0); [|exact HK].
  eapply post_weaken; [exact Hh| |auto|auto]. intros a u [].
Qed.

(** One turn of the loop of [main]: it returns with the globals as they
    were, or ends in [exit(1)] through [clean_exit]. *)
Lemma acquire_step_post s0 t1 l s :
  globals_kept s0 s ->
  post (acquire_step t1 l s)
       (fun _ t => globals_kept s0 t)
       (fun code t => code = 1 /\ exits_clean s0 t)
       (fun _ _ => True).
Proof.
  intros HK. pose proof HK as (_ & _ & Hcard & _).
  unfold acquire_step.
  apply post_bind, post_emit. apply post_bind, post_get.
  apply post_bind, post_ask. intros r rest Hi. destruct r; try exact Logic.I.
  cbv zeta. cbn [card set_trace set_inputs]. rewrite Hcard.
  eapply post_seq.
  { apply fatal_branch_post; [exact HK|].
    apply post_bind, post_fprintf_stderr. apply post_bind, post_emit.
    apply post_clean_exit. split; [reflexivity|].
    apply exits_clean_make; [exact HK|reflexivity]. }
  intros [] t HKt. apply post_bind, post_get.
  apply (post_seq _ _ _ (fun _ u => globals_kept s0 u)).
  - destruct (negb (HalfReady =? 0)); [|apply post_ret; exact HKt].
    apply post_bind, post_get. apply post_bind, post_printf.
    apply post_bind, post_printf.
    apply (post_seq _ _ _ (fun _ u => globals_kept s0 u)).
    { destruct (duration t <? 1); [apply post_printf|apply post_ret]; exact HKt. }
    intros [] u HKu. apply post_bind, post_transfer. intros e data rest' Hi'.
    eapply post_seq.
    { apply fatal_branch_post; [exact HKu|].
      apply post_bind, post_fprintf_stderr. apply post_bind, post_emit.
      apply post_clean_exit. split; [reflexivity|].
      apply exits_clean_make; [exact HKu|reflexivity]. }
    intros [] v HKv. cbv zeta. apply post_bind.
    apply (post_process_samples_kept s0); [exact HKv|]. intros r w HKw.
    apply post_ret. exact HKw.
  - intros l' u HKu. destruct (duration t <? 1).
    + apply post_bind, post_ask_int. intros v rest'' _.
      destruct (negb (v =? 0)); [apply post_bind, post_emit|]; apply post_ret; exact HKu.
    + apply post_bind, post_ask_int. intros v rest'' _. cbv zeta.
      destruct (_ <? _); apply post_ret; exact HKu.
Qed.

(** The loop of [main]. *)
Lemma acquire_post s0 t1 fuel :
  forall l s,
  globals_kept s0 s ->
  post (acquire fuel t1 l s)
       (fun _ t => globals_kept s0 t)
       (fun code t => code = 1 /\ exits_clean s0 t)
       (fun _ _ => True).
Proof.
  induction fuel as [|fuel IH]; intros l s HK; [exact Logic.I|].
  cbn [acquire]. eapply post_seq; [apply (acquire_step_post s0 t1 l s HK)|].
  intros [l'|l'] t HKt; [apply IH; exact HKt|exact HKt].
Qed.

(** What follows the loop never returns: it ends in [exit(0)] or, after a
    driver error, in [exit(1)], both through [clean_exit]. *)
Lemma drain_post s0 t1 l s :
  globals_kept s0 s ->
  post (drain t1 l s)
       (fun _ _ => False)
       (fun code t => (code = 0 \/ code = 1) /\ exits_clean s0 t)
       (fun _ _ => True).
Proof.
  intros HK. pose proof HK as (_ & _ & Hcard & _).
  unfold drain. apply post_bind, post_get.
  apply post_bind, post_ask. intros r rest Hi. destruct r; try exact Logic.I.
  cbv zeta. cbn [card set_trace set_inputs]. rewrite Hcard.
  eapply post_seq.
  { apply fatal_branch_post; [exact HK|].
    apply post_bind, post_fprintf_stderr.
    apply post_clean_exit. split; [auto|].
    apply exits_clean_make; [exact HK|reflexivity]. }
  intros [] t HKt. apply post_bind, post_ask_int. intros v rest' _. cbv zeta.
  apply post_bind, post_transfer. intros e data rest'' _.
  eapply post_seq.
  { apply fatal_branch_post; [exact HKt|].
    apply post_bind, post_fprintf_stderr.
    apply post_clean_exit. split; [auto|].
    apply exits_clean_make; [exact HKt|reflexivity]. }
  intros [] u HKu. apply post_bind, post_get. apply post_bind, post_get.
  apply post_bind, post_printf. apply post_bind.
  apply (post_process_samples_kept s0); [exact HKu|]. intros r w HKw.
  apply post_bind, post_emit.
  apply (post_seq _ _ _ (fun _ x => globals_kept s0 x)).
  { destruct (duration u <? 1); [apply post_bind, post_printf; apply post_emit|apply post_ret];
      exact HKw. }
  intros [] x HKx. apply post_clean_exit. split; [auto|].
  apply exits_clean_make; [exact HKx|reflexivity].
Qed.


Lemma ask_run e s r rest :
  inputs s = r :: rest ->
  ask e s = Returns r (set_inputs rest (set_trace (trace s ++ [e]) s)).
Proof. intros Hi. unfold ask, bind, emit, answer. cbn. rewrite Hi. reflexivity. Qed.

Lemma ask_int_run e s v rest :
  inputs s = RInt v :: rest ->
  ask_int e s = Returns v (set_inputs rest (set_trace (trace s ++ [e]) s)).
Proof.
  intros Hi. unfold ask_int. rewrite (bind_returns _ _ _ _ _ (ask_run e s _ _ Hi)).
  reflexivity.
Qed.

Lemma transfer_run c buf s err data rest :
  inputs s = RTransfer err data :: rest ->
  transfer c buf s
  = Returns (to_I16 err,
             take (length buf) (map to_I16 data ++ drop (length (map to_I16 data)) buf))
      (set_inputs rest (set_trace (trace s ++ [EvDriver (UD_AI_AsyncDblBufferTransfer c)]) s)).
Proof.
  intros Hi. unfold transfer. rewrite (bind_returns _ _ _ _ _ (ask_run _ s _ _ Hi)).
  reflexivity.
Qed.

Ltac run_step := erewrite bind_returns; [|reflexivity]; cbv beta.

(** States built by the setters, in normal form. *)
Ltac norm_state :=
  cbn [file_name file card sample_rate duration no_channels channel trace inputs
       set_file_name set_file set_card set_sample_rate set_duration set_no_channels
       set_channel set_trace set_inputs].

(** C8.  In the loop of [main] and in what follows it, a driver call that
    reports an error (a negative status) ends the process through
    [clean_exit] with status 1: after the message on [stderr] (and, in the
    loop, [UD_AI_AsyncClear]) the last things the process does are
    [UD_Release_Card(card)] and, if the data file is open, [fclose(file)].
    More generally every [exit] reached from the loop on has these as its
    last events, and its status is 0 or 1. *)
Theorem fatal_driver_errors_exit_through_clean_exit
    (fuel : nat) (t1 : Z) (l : locals) (s : state) :
  let cleanup :=
    EvDriver (UD_Release_Card (to_U16 (card s)))
    :: match file s with Some f => [EvFclose f] | None => [] end in
  (forall code s',
     (l' <- acquire fuel t1 l ;; drain t1 l') s = Exits code s' ->
     (code = 0 \/ code = 1) /\ exists before, trace s' = before ++ cleanup) /\
  (forall err hr st rest,
     inputs s = RHalfReady err hr st :: rest -> to_I16 err < 0 ->
     exists s',
       acquire (Datatypes.S fuel) t1 l s = Exits 1 s' /\
       trace s' = trace s
                  ++ [EvSleep 10; EvDriver (UD_AI_AsyncDblBufferHalfReady (card s));
                      EvPrintf Stderr (String.append "AI_AsyncDblBufferHalfReady Error: %d" NL)
                               [AInt (to_I16 err)];
                      EvDriver (UD_AI_AsyncClear (card s))]
                  ++ cleanup) /\
  (forall e hr st err data rest,
     inputs s = RHalfReady e hr st :: RTransfer err data :: rest ->
     0 <= to_I16 e -> hr <> 0 -> to_I16 err < 0 ->
     exists s',
       acquire (Datatypes.S fuel) t1 l s = Exits 1 s' /\
       trace s' = trace s
                  ++ [EvSleep 10; EvDriver (UD_AI_AsyncDblBufferHalfReady (card s));
                      EvPrintf Stdout (String.append NL (String.append "Buffer Half Ready..." NL)) [];
                      EvPrintf Stdout (String.append "Writing %d samples to the file '%s'..." NL)
                               [AInt 10240; AStr (file_name s)]]
                  ++ (if duration s <? 1
                      then [EvPrintf Stdout
                              (String.append "                            Press any key to stop..." NL)
                              []]
                      else [])
                  ++ [EvDriver (UD_AI_AsyncDblBufferTransfer (card s));
                      EvPrintf Stderr (String.append "AI_AsyncDblBufferTransfer Error: %d" NL)
                               [AInt (to_I16 err)];
                      EvDriver (UD_AI_AsyncClear (card s))]
                  ++ cleanup) /\
  (forall err cnt rest,
     inputs s = RClear err cnt :: rest -> to_I16 err < 0 ->
     exists s',
       drain t1 l s = Exits 1 s' /\
       trace s' = trace s
                  ++ [EvDriver (UD_AI_AsyncClear (card s));
                      EvPrintf Stderr (String.append "AI_AsyncClear Error: %d" NL)
                               [AInt (to_I16 err)]]
                  ++ cleanup) /\
  (forall e cnt t2 err data rest,
     inputs s = RClear e cnt :: RInt t2 :: RTransfer err data :: rest ->
     0 <= to_I16 e -> to_I16 err < 0 ->
     exists s',
       drain t1 l s = Exits 1 s' /\
       trace s' = trace s
                  ++ [EvDriver (UD_AI_AsyncClear (card s)); EvGetTickCount;
                      EvDriver (UD_AI_AsyncDblBufferTransfer (card s));
                      EvPrintf Stderr (String.append "AI_AsyncDblBufferTransfer Error: %d" NL)
                               [AInt (to_I16 err)]]
                  ++ cleanup).
Proof.
  intros cleanup.
  split; [|split; [|split; [|split]]].
  - intros code s' Hrun.
    assert (H : post ((l' <- acquire fuel t1 l ;; drain t1 l') s)
                     (fun _ _ => False)
                     (fun code t => (code = 0 \/ code = 1) /\ exits_clean s t)
                     (fun _ _ => True)).
    { eapply post_seq.
      - eapply post_weaken;
          [apply (acquire_post s t1 fuel l s (globals_kept_refl s))| | |auto].
        + intros a t H. exact H.
        + intros c t [-> H]. auto.
      - intros l' t HK. apply drain_post. exact HK. }
    rewrite Hrun in H. exact H.
  - intros err hr st rest Hi Herr. apply Z.ltb_lt in Herr.
    eexists. split.
    + cbn [acquire]. apply bind_exits. unfold acquire_step.
      run_step. run_step.
      erewrite bind_returns; [|apply ask_run; exact Hi]. cbv beta iota zeta.
      apply bind_exits. rewrite Herr.
      run_step. run_step. apply clean_exit_run.
    + cbn [trace set_trace set_inputs card file]. rewrite <- !app_assoc. reflexivity.
  - intros e hr st err data rest Hi He Hhr Herr.
    apply Z.ltb_lt in Herr. apply Z.ltb_ge in He. apply Z.eqb_neq in Hhr.
    destruct (duration s <? 1) eqn:Hd.
    + eexists. split.
      * cbn [acquire]. apply bind_exits. unfold acquire_step.
        run_step. run_step.
        erewrite bind_returns; [|apply ask_run; exact Hi]. cbv beta iota zeta.
        rewrite He. run_step. run_step. apply bind_exits. rewrite Hhr. cbn [negb].
        run_step. run_step. run_step. cbn [duration set_trace set_inputs]. rewrite Hd.
        run_step.
        erewrite bind_returns; [|apply transfer_run; reflexivity]. cbv beta iota zeta.
        apply bind_exits. rewrite Herr.
        run_step. run_step. apply clean_exit_run.
      * cbn [trace set_trace set_inputs card file]. rewrite <- !app_assoc. reflexivity.
    + eexists. split.
      * cbn [acquire]. apply bind_exits. unfold acquire_step.
        run_step. run_step.
        erewrite bind_returns; [|apply ask_run; exact Hi]. cbv beta iota zeta.
        rewrite He. run_step. run_step. apply bind_exits. rewrite Hhr. cbn [negb].
        run_step. run_step. run_step. cbn [duration set_trace set_inputs]. rewrite Hd.
        run_step.
        erewrite bind_returns; [|apply transfer_run; reflexivity]. cbv beta iota zeta.
        apply bind_exits. rewrite Herr.
        run_step. run_step. apply clean_exit_run.
      * cbn [trace set_trace set_inputs card file]. rewrite <- !app_assoc. reflexivity.
  - intros err cnt rest Hi Herr. apply Z.ltb_lt in Herr.
    eexists. split.
    + unfold drain. run_step.
      erewrite bind_returns; [|apply ask_run; exact Hi]. cbv beta iota zeta.
      apply bind_exits. rewrite Herr. run_step. apply clean_exit_run.
    + cbn [trace set_trace set_inputs card file]. rewrite <- !app_assoc. reflexivity.
  - intros e cnt t2 err data rest Hi He Herr.
    apply Z.ltb_lt in Herr. apply Z.ltb_ge in He.
    eexists. split.
    + unfold drain. run_step.
      erewrite bind_returns; [|apply ask_run; exact Hi]. cbv beta iota zeta.
      rewrite He. run_step.
      erewrite bind_returns; [|apply ask_int_run; reflexivity]. cbv beta iota zeta.
      erewrite bind_returns; [|apply transfer_run; reflexivity]. cbv beta iota zeta.
      apply bind_exits. rewrite Herr. run_step. apply clean_exit_run.
    + cbn [trace set_trace set_inputs card file]. rewrite <- !app_assoc. reflexivity.
Qed.


(** C9.  When [fopen] returns the null pointer, [main] reports it with
    [perror] and goes on: it enters its loop with [file] null, and what it
    does from there is what the loop and its sequel do. *)
Theorem fopen_failure_is_not_fatal
    (argv : list string) (stack : list Z) (s s0 s1 : state) (c t1 : Z)
    (script : list response) :
  process_arguments argv s = Returns tt s0 ->
  open_USB1901 s0 = Returns c s1 ->
  inputs s1 = RInt t1 :: ROpen None :: script ->
  let s2 :=
    set_trace
      (trace s1
       ++ [EvGetTickCount; EvFopen (file_name s1) "w"; EvPerror "fopen error: "]
       ++ (if duration s1 <? 1
           then [EvPrintf Stdout
                   (String.append "                            Press any key to stop..." NL) []]
           else []))
      (set_inputs script (set_file None (set_card c s1))) in
  file s2 = None /\
  main argv stack s
  = (l <- acquire (length script) (to_U32 t1) (mk_locals 0 0 stack) ;;
     drain (to_U32 t1) l) s2.
Proof.
  intros Hargs Hopen Hi s2. split; [reflexivity|].
  unfold main.
  rewrite (bind_returns _ _ _ _ _ Hargs). cbv beta.
  rewrite (bind_returns _ _ _ _ _ Hopen). cbv beta.
  run_step.
  erewrite bind_returns; [|apply ask_int_run; exact Hi]. cbv beta zeta.
  run_step.
  erewrite bind_returns; [|apply ask_run; reflexivity]. cbv beta iota.
  run_step. run_step. run_step.
  norm_state. subst s2. destruct (duration s1 <? 1).
  - run_step. run_step. norm_state. rewrite <- !app_assoc. reflexivity.
  - run_step. run_step. norm_state. rewrite <- !app_assoc. reflexivity.
Qed.

End Main.

Lemma fatal_driver_errors_exit_through_clean_exit_witness :
  let s := set_inputs [RHalfReady (-1) 0 0] demo_state in
  exists s',
    acquire (hdr := demo_header) 1 0 (mk_locals 0 0 []) s = Exits 1 s' /\
    trace s' = trace s
               ++ [EvSleep 10; EvDriver (UD_AI_AsyncDblBufferHalfReady (card s));
                   EvPrintf Stderr (String.append "AI_AsyncDblBufferHalfReady Error: %d" NL)
                            [AInt (to_I16 (-1))];
                   EvDriver (UD_AI_AsyncClear (card s))]
               ++ EvDriver (UD_Release_Card (to_U16 (card s)))
                  :: match file s with Some f => [EvFclose f] | None => [] end.
Proof.
  intros s.
  refine (proj1 (proj2 (fatal_driver_errors_exit_through_clean_exit (hdr := demo_header)
                          0 0 (mk_locals 0 0 []) s)) (-1) 0 0 [] eq_refl _).
  vm_compute. reflexivity.
Defined.

Lemma fopen_failure_is_not_fatal_witness :
  let argv := ["prog"; "-c"; "3:1"; "-d"; "1"]%string in
  let script :=
    [RScan 0 1 [mk_device 5 0]; RInt 0; RInt 0; RInt 0; RInt 0; RInt 0;
     RInt 100; ROpen None;
     RHalfReady 0 0 0; RInt 200; RHalfReady 0 0 0; RInt 1200;
     RClear 0 0; RInt 1300; RTransfer 0 []] in
  exists s',
    main (hdr := demo_header) argv [] (initial_state script) = Exits 0 s' /\
    file s' = None /\ In (EvPerror "fopen error: ") (trace s').
Proof.
  intros argv script.
  eassert (Ha : process_arguments (hdr := demo_header) argv (initial_state script)
                = Returns tt _) by (vm_compute; reflexivity).
  match type of Ha with
  | _ = Returns tt ?s0 =>
      eassert (Ho : open_USB1901 (hdr := demo_header) s0 = Returns _ _)
        by (vm_compute; reflexivity)
  end.
  destruct (fopen_failure_is_not_fatal (hdr := demo_header) argv [] _ _ _ _ _ _
              Ha Ho eq_refl) as [_ Hm].
  eexists. split; [rewrite Hm; vm_compute; reflexivity|].
  split; [reflexivity|]. cbn. tauto.
Defined.

(** * Further properties *)

(** ** More on [process_samples] *)

(** One step of a run whose outcome is computed. *)
Ltac step_ret := erewrite bind_returns; [|reflexivity]; cbv beta.

Ltac states :=
  cbn [file_name file card sample_rate duration no_channels channel trace inputs
       set_file_name set_file set_card set_sample_rate set_duration set_no_channels
       set_channel set_trace set_inputs].

Lemma bind_traps {A B} (m : M A) (k : A -> M B) s t s' :
  m s = Traps t s' -> bind m k s = Traps t s'.
Proof. unfold bind. intros ->. reflexivity. Qed.


(** Without a configured channel the call divides by zero before it writes
    anything. *)
Theorem process_samples_without_channels {hdr : UsbDask}
    (s : state) (buffer : list Z) (L O : Z) :
  no_channels s = 0 ->
  process_samples buffer L O s = Traps DivideByZero s.
Proof.
  intros Hnc. unfold process_samples.
  rewrite (bind_returns _ _ _ _ _ (get_ok no_channels s)). cbv beta.
  rewrite (bind_returns _ _ _ _ _ (get_ok channel s)). cbv beta.
  apply bind_traps. unfold int_div. rewrite Hnc. reflexivity.
Qed.

Lemma process_samples_without_channels_witness :
  process_samples (hdr := demo_header) [1; 2] 2 0 (initial_state [])
  = Traps DivideByZero (initial_state []).
Proof.
  exact (process_samples_without_channels (hdr := demo_header)
           (initial_state []) [1; 2] 2 0 eq_refl).
Defined.

Lemma fprintf_file_null fmt args s :
  file s = None -> fprintf_file fmt args s = Traps NullStream s.
Proof. intros Hf. unfold fprintf_file, bind, get. rewrite Hf. reflexivity. Qed.

Lemma null_file_trap {hdr : UsbDask} buffer L O s :
  1 <= no_channels s <= MAX_CHANNELS ->
  Z.of_nat (length (channel s)) = MAX_CHANNELS ->
  file s = None ->
  1 <= L -> buffer <> [] -> 0 <= O <= INT_MAX ->
  process_samples buffer L O s
  = Traps NullStream (set_trace (trace s ++ unknown_range_events s (no_channels s)) s).
Proof.
  intros Hnc Hlen Hfile HL Hbuf HO.
  destruct (scale_loop_run s Hnc Hlen) as (tv & sm & Hrun1 & Hl1 & Hl2 & Hcells).
  unfold MAX_CHANNELS in *. unfold process_samples.
  rewrite (bind_returns _ _ _ _ _ (get_ok no_channels s)). cbv beta.
  rewrite (bind_returns _ _ _ _ _ (get_ok channel s)). cbv beta.
  erewrite bind_returns;
    [|unfold int_div; destruct (Z.eqb_spec (no_channels s) 0); [lia|reflexivity]].
  cbv beta zeta.
  rewrite (bind_returns _ _ _ _ _ Hrun1). cbv beta iota.
  apply bind_traps. unfold for_to.
  destruct (Z.to_nat L) as [|n] eqn:En; [lia|]. cbn [for_range].
  apply bind_traps.
  set (t := set_trace _ s).
  change (0 + O) with O.
  rewrite (to_int_id O) by (unfold INT_MIN, INT_MAX in *; lia).
  rewrite (bind_returns _ _ _ _ _ (int_rem_ok O (no_channels s) t (proj1 HO) ltac:(lia))).
  assert (Hc : 0 <= O mod no_channels s < no_channels s) by (apply Z.mod_pos_bound; lia).
  set (c := O mod no_channels s) in *.
  destruct buffer as [|raw buffer]; [congruence|].
  rewrite (bind_returns _ _ _ _ _
             (load_ok "buffer" (raw :: buffer) 0 raw t ltac:(lia) eq_refl)).
  destruct (Hcells c Hc) as [Htv Hsm].
  rewrite (bind_returns _ _ _ _ _ (load_init_ok "toVolts" tv c _ t ltac:(lia) Htv)).
  rewrite (bind_returns _ _ _ _ _ (load_init_ok "sum" sm c _ t ltac:(lia) Hsm)).
  erewrite bind_returns by (apply store_ok; lia).
  rewrite (to_int_id (c + 1)) by (unfold INT_MIN, INT_MAX in *; lia).
  rewrite (bind_returns _ _ _ _ _ (int_rem_ok (c + 1) (no_channels s) t ltac:(lia) ltac:(lia))).
  apply bind_traps. destruct (negb _); apply fprintf_file_null; exact Hfile.
Qed.

(** With the data file not open, a call on at least one sample traps at its
    first [fprintf]: nothing was written to the file and no average is
    reported.  A call on no sample never touches the file and returns. *)
Theorem process_samples_null_file {hdr : UsbDask}
    (s : state) (buffer : list Z) (L O : Z) :
  1 <= no_channels s <= MAX_CHANNELS ->
  Z.of_nat (length (channel s)) = MAX_CHANNELS ->
  file s = None ->
  0 <= L <= Z.of_nat (length buffer) -> 0 <= O -> L + O <= INT_MAX ->
  (1 <= L ->
   process_samples buffer L O s
   = Traps NullStream (set_trace (trace s ++ unknown_range_events s (no_channels s)) s)) /\
  (L = 0 ->
   process_samples buffer L O s
   = Returns (O mod no_channels s)
       (set_trace (trace s ++ unknown_range_events s (no_channels s)
                   ++ map (average_event s buffer 0 O) (seqZ 0 (no_channels s))) s)).
Proof.
  intros Hnc Hlen Hfile HL HO Hmax.
  destruct (scale_loop_run s Hnc Hlen) as (tv & sm & Hrun1 & Hl1 & Hl2 & Hcells).
  unfold MAX_CHANNELS in *.
  split.
  - intros HL1. apply null_file_trap.
    + unfold MAX_CHANNELS. lia.
    + exact Hlen.
    + exact Hfile.
    + exact HL1.
    + intros ->. cbn in HL. lia.
    + lia.
  - intros ->. unfold process_samples.
    rewrite (bind_returns _ _ _ _ _ (get_ok no_channels s)). cbv beta.
    rewrite (bind_returns _ _ _ _ _ (get_ok channel s)). cbv beta.
    rewrite (bind_returns _ _ _ _ _
               (int_div_ok 0 (no_channels s) s ltac:(unfold INT_MAX in *; lia) ltac:(lia))).
    cbv beta zeta.
    rewrite (bind_returns _ _ _ _ _ Hrun1). cbv beta iota.
    step_ret.
    assert (Hsums : forall c, 0 <= c < no_channels s ->
              sm !! Z.to_nat c = Some (Some (channel_sum s buffer O c 0))).
    { intros c Hc. apply Hcells. exact Hc. }
    rewrite (bind_returns _ _ _ _ _
               (report_loop_run s _ buffer 0 O sm ltac:(unfold MAX_CHANNELS; lia) Hlen Hsums)).
    change (0 + O) with O.
    rewrite (to_int_id O) by (unfold INT_MIN, INT_MAX in *; lia).
    rewrite (bind_returns _ _ _ _ _ (int_rem_ok O (no_channels s) _ HO ltac:(lia))).
    unfold ret. rewrite <- app_assoc. reflexivity.
Qed.

Lemma process_samples_null_file_witness :
  let s := set_file None demo_state in
  process_samples (hdr := demo_header) [16384; 0] 2 0 s = Traps NullStream s /\
  exists s', process_samples (hdr := demo_header) [16384; 0] 0 1 s = Returns 1 s'.
Proof.
  intros s.
  destruct (process_samples_null_file (hdr := demo_header) s [16384; 0] 2 0) as [H2 _];
    try (cbn; unfold INT_MAX, MAX_CHANNELS; lia); [reflexivity|].
  destruct (process_samples_null_file (hdr := demo_header) s [16384; 0] 0 1) as [_ H0];
    try (cbn; unfold INT_MAX, MAX_CHANNELS; lia); [reflexivity|].
  split.
  - rewrite (H2 ltac:(lia)). reflexivity.
  - eexists. rewrite (H0 eq_refl). reflexivity.
Defined.

(** *** Rows *)

Lemma div_succ a C :
  0 < C -> 0 <= a -> (a + 1) / C = a / C + (if a mod C =? C - 1 then 1 else 0).
Proof.
  intros HC Ha. pose proof (Z.div_mod a C ltac:(lia)) as Hdm.
  pose proof (Z.mod_pos_bound a C HC) as Hr.
  destruct (Z.eqb_spec (a mod C) (C - 1)) as [He|Hne].
  - symmetry. apply (Z.div_unique (a + 1) C (a / C + 1) 0); lia.
  - symmetry. apply (Z.div_unique (a + 1) C (a / C + 0) (a mod C + 1)); lia.
Qed.

Lemma is_row_end_field {hdr : UsbDask} s buffer O i :
  is_row_end (field_event s buffer O i)
  = (sample_channel (no_channels s) O i =? no_channels s - 1).
Proof.
  unfold field_event, is_row_end.
  destruct (sample_channel (no_channels s) O i =? no_channels s - 1); reflexivity.
Qed.

Lemma rows_ended_app {hdr : UsbDask} t1 t2 :
  rows_ended (t1 ++ t2) = rows_ended t1 + rows_ended t2.
Proof. unfold rows_ended. rewrite List.filter_app, length_app. lia. Qed.

Lemma rows_ended_none {hdr : UsbDask} t :
  Forall (fun e => is_file_event e = false) t -> rows_ended t = 0.
Proof.
  induction 1 as [|e t He _ IH]; [reflexivity|].
  unfold rows_ended in *. cbn [List.filter].
  destruct e as [st fmt args| | | | | | | |]; try exact IH.
  destruct st; try exact IH. discriminate He.
Qed.

Lemma rows_ended_fields {hdr : UsbDask} s buffer O n :
  0 < no_channels s -> 0 <= O ->
  rows_ended (map (field_event s buffer O) (seqZ 0 (Z.of_nat n)))
  = (Z.of_nat n + O) / no_channels s - O / no_channels s.
Proof.
  intros Hnc HO. induction n as [|n IH].
  - change (Z.of_nat 0) with 0. rewrite seqZ_nil by lia. unfold rows_ended.
    cbn [map List.filter length]. change (Z.of_nat 0) with 0. change (0 + O) with O. lia.
  - replace (Z.of_nat (S n)) with (Z.of_nat n + 1) by lia.
    rewrite seqZ_snoc by lia. rewrite map_app, rows_ended_app, IH.
    replace (Z.of_nat n + 1 + O) with (Z.of_nat n + O + 1) by lia.
    rewrite (div_succ (Z.of_nat n + O)) by lia.
    unfold rows_ended at 1. cbn [map List.filter]. rewrite is_row_end_field.
    unfold sample_channel.
    destruct ((Z.of_nat n + O) mod no_channels s =? no_channels s - 1); cbn [length];
      [change (Z.of_nat 1) with 1|change (Z.of_nat 0) with 0]; lia.
Qed.

(** A call completes [(L + O) / C - O / C] rows: with an offset below [C],
    as the loop of [main] passes it, [(L + O) / C] rows, whatever part of a
    row the call before left. *)
Theorem rows_completed {hdr : UsbDask} (s : state) (buffer : list Z) (L O : Z) :
  samples_ready s buffer L O ->
  exists s',
    process_samples buffer L O s = Returns ((L + O) mod no_channels s) s' /\
    rows_ended (drop (length (trace s)) (trace s'))
    = (L + O) / no_channels s - O / no_channels s /\
    (O < no_channels s ->
     rows_ended (drop (length (trace s)) (trace s')) = (L + O) / no_channels s).
Proof.
  intros Hready. pose proof Hready as (Hnc & Hlen & Hfile & HL & HO & Hmax).
  eexists. split; [apply process_samples_run; exact Hready|].
  cbn [trace set_trace]. rewrite drop_app_length.
  assert (Hrows : rows_ended (samples_events s buffer L O)
                  = (L + O) / no_channels s - O / no_channels s).
  { unfold samples_events. rewrite !rows_ended_app.
    rewrite (rows_ended_none _ (unknown_range_events_no_file s _)).
    rewrite (rows_ended_none _ (average_events_no_file s buffer L O _)).
    replace L with (Z.of_nat (Z.to_nat L)) at 1 2 by lia.
    rewrite rows_ended_fields by lia. replace (Z.of_nat (Z.to_nat L)) with L by lia. lia. }
  split; [exact Hrows|]. intros HOlt. rewrite Hrows.
  rewrite (Z.div_small O) by lia. lia.
Qed.

Lemma rows_completed_witness :
  exists s',
    process_samples (hdr := demo_header) [16384; 16384; 0; 0] 4 0 demo_state
    = Returns ((4 + 0) mod no_channels demo_state) s' /\
    rows_ended (hdr := demo_header) (drop (length (trace demo_state)) (trace s'))
    = (4 + 0) / no_channels demo_state - 0 / no_channels demo_state /\
    (0 < no_channels demo_state ->
     rows_ended (hdr := demo_header) (drop (length (trace demo_state)) (trace s'))
     = (4 + 0) / no_channels demo_state).
Proof.
  exact (rows_completed (hdr := demo_header) demo_state [16384; 16384; 0; 0] 4 0 demo_ready).
Defined.

(** *** What a call leaves alone *)

Lemma only_printed_refl s : only_printed s s.
Proof.
  split; [apply globals_kept_refl|]. split; [reflexivity|].
  exists []. rewrite app_nil_r. split; [reflexivity|constructor].
Qed.

Lemma only_printed_print s t st fmt args :
  only_printed s t -> only_printed s (set_trace (trace t ++ [EvPrintf st fmt args]) t).
Proof.
  intros (HK & Hi & added & Ht & Hall). split; [exact HK|]. split; [exact Hi|].
  exists (added ++ [EvPrintf st fmt args]). cbn [trace set_trace].
  rewrite Ht, <- app_assoc. split; [reflexivity|].
  apply Forall_app. split; [exact Hall|]. constructor; [reflexivity|constructor].
Qed.

Lemma process_samples_post_only_printed {hdr : UsbDask} s buffer L O :
  post (process_samples buffer L O s)
       (fun _ t => only_printed s t) (fun _ _ => False) (fun _ t => only_printed s t).
Proof.
  set (K := only_printed s).
  set (T := fun (_ : trap) (t : state) => K t).
  set (E := fun (_ : Z) (_ : state) => False).
  assert (K0 : K s) by apply only_printed_refl.
  assert (Kp : forall t st fmt args, K t -> K (set_trace (trace t ++ [EvPrintf st fmt args]) t))
    by (intros; apply only_printed_print; assumption).
  unfold process_samples.
  apply post_bind, post_get. apply post_bind, post_get.
  apply post_bind, post_int_div; [intros _|intros _; exact K0].
  apply post_bind.
  eapply post_weaken;
    [apply (post_for_to (fun _ (_ : list (option float) * list (option float)) t => K t) _ E T)
    | |auto|auto].
  { exact K0. }
  { intros j [tv sm] t Hj HK.
    apply post_bind, post_store; [intros _|intros _; exact HK].
    apply post_bind, post_load; [intros ch _ _|intros _; exact HK].
    apply post_bind. rewrite ad_range_to_volt_run. cbn [post].
    assert (HK' : K (if known_range (AdRange ch) then t
                     else set_trace (trace t ++ [ev_unknown_range]) t)).
    { destruct (known_range _); [exact HK|apply Kp; exact HK]. }
    apply post_bind, post_store; [intros _|intros _; exact HK'].
    apply post_ret. exact HK'. }
  intros [tv sm] t1 HK1. cbv beta iota.
  apply post_bind.
  eapply post_weaken;
    [apply (post_for_to (fun _ (_ : list (option float)) t => K t) _ E T)| |auto|auto].
  { exact HK1. }
  { intros j sm' t Hj HK.
    apply post_bind, post_int_rem; [intros _|intros _; exact HK].
    apply post_bind, post_load; [intros raw _ _|intros _; exact HK].
    apply post_bind, post_load_init; [intros x _ _|intros _; exact HK|intros _; exact HK].
    apply post_bind, post_load_init; [intros y _ _|intros _; exact HK|intros _; exact HK].
    apply post_bind, post_store; [intros _|intros _; exact HK].
    apply post_bind, post_int_rem; [intros _|intros _; exact HK].
    apply post_bind.
    destruct (negb _); (apply post_fprintf_file; [intros _|intros _; exact HK]);
      apply post_ret; apply Kp; exact HK. }
  intros sm' t2 HK2. cbv beta.
  apply post_bind.
  eapply post_weaken;
    [apply (post_for_to (fun _ (_ : unit) t => K t) _ E T)| |auto|auto].
  { exact HK2. }
  { intros j [] t Hj HK.
    apply post_bind, post_load; [intros ch _ _|intros _; exact HK].
    apply post_bind, post_load_init; [intros x _ _|intros _; exact HK|intros _; exact HK].
    apply post_printf. apply Kp. exact HK. }
  intros u t3 HK3. cbv beta in HK3 |- *.
  apply post_bind, post_int_rem; [intros _|intros _; exact HK3].
  apply post_ret. exact HK3.
Qed.

(** Whatever its arguments and the state, a call of [process_samples] only
    prints: up to where it returns or traps it changes no global, takes no
    answer from the outside world and adds nothing to the trace but calls of
    [printf] and [fprintf] - no driver call, no [fclose]; and it never calls
    [exit]. *)
Theorem process_samples_only_prints {hdr : UsbDask} (s : state) (buffer : list Z) (L O : Z) :
  (forall r t, process_samples buffer L O s = Returns r t -> only_printed s t) /\
  (forall tr t, process_samples buffer L O s = Traps tr t -> only_printed s t) /\
  (forall c t, process_samples buffer L O s <> Exits c t).
Proof.
  pose proof (process_samples_post_only_printed s buffer L O) as H.
  split; [|split].
  - intros r t Hrun. rewrite Hrun in H. exact H.
  - intros tr t Hrun. rewrite Hrun in H. exact H.
  - intros c t Hrun. rewrite Hrun in H. exact H.
Qed.

(** *** Fewer samples than channels *)

Lemma division_by_zero_double (x : float) :
  Prim2SF (PrimFloat.div x (int_to_double 0)) = S754_nan \/
  exists neg, Prim2SF (PrimFloat.div x (int_to_double 0)) = S754_infinity neg.
Proof.
  rewrite FloatAxioms.div_spec.
  change (Prim2SF (int_to_double 0)) with (S754_zero false).
  destruct (Prim2SF x) as [neg|neg| |neg m e]; cbn; eauto.
Qed.

(** A call on fewer samples than there are channels divides every sum by
    [(double)0]: it returns, and no average it reports is a finite number.
    The call that follows the loop of [main], on the [AccessCnt] samples
    left, is such a call whenever fewer than [no_channels] samples are
    left. *)
Theorem short_call_averages_not_finite {hdr : UsbDask}
    (s : state) (buffer : list Z) (L O : Z) :
  samples_ready s buffer L O -> L < no_channels s ->
  exists s',
    process_samples buffer L O s = Returns ((L + O) mod no_channels s) s' /\
    Forall (fun e => exists n v,
              e = EvPrintf Stdout fmt_average [AInt n; ADouble v] /\
              (Prim2SF v = S754_nan \/ exists neg, Prim2SF v = S754_infinity neg))
           (console_events (drop (length (trace s)) (trace s'))).
Proof.
  intros Hready HL. pose proof Hready as (_ & _ & _ & HL0 & _).
  destruct (process_samples_added s buffer L O Hready) as (s' & Hrun & Hadded).
  exists s'. split; [exact Hrun|].
  rewrite Hadded, console_events_samples_events.
  apply List.Forall_forall. intros e He. apply List.in_map_iff in He as (c & <- & _).
  eexists _, _. split; [reflexivity|].
  rewrite Z.div_small by lia. apply division_by_zero_double.
Qed.

Lemma short_call_averages_not_finite_witness :
  exists s',
    process_samples (hdr := demo_header) [16384; 16384; 0; 0] 1 0 demo_state
    = Returns ((1 + 0) mod no_channels demo_state) s' /\
    Forall (fun e => exists n v,
              e = EvPrintf Stdout fmt_average [AInt n; ADouble v] /\
              (Prim2SF v = S754_nan \/ exists neg, Prim2SF v = S754_infinity neg))
           (console_events (drop (length (trace demo_state)) (trace s'))).
Proof.
  apply (short_call_averages_not_finite (hdr := demo_header) demo_state
           [16384; 16384; 0; 0] 1 0).
  - unfold samples_ready. cbn. unfold INT_MAX, MAX_CHANNELS.
    repeat split; try lia; discriminate.
  - cbn. lia.
Defined.

(** ** More on [process_arguments] *)

Lemma print_lines_run lines s :
  print_lines lines s
  = Returns tt (set_trace (trace s ++ map (fun l => EvPrintf Stdout (l ++ NL)%string []) lines) s).
Proof.
  revert s. induction lines as [|l lines IH]; intros s.
  - cbn [print_lines map]. rewrite app_nil_r. destruct s; reflexivity.
  - cbn [print_lines map]. unfold printf.
    erewrite bind_returns; [|reflexivity]. rewrite IH. cbn [trace set_trace].
    rewrite <- app_assoc. reflexivity.
Qed.

Lemma print_usage_run {hdr : UsbDask} argv0 s :
  print_usage argv0 s = Returns tt (set_trace (trace s ++ usage_events argv0) s).
Proof.
  unfold print_usage, printf. erewrite bind_returns; [|reflexivity].
  rewrite print_lines_run. cbn [trace set_trace]. rewrite <- app_assoc. reflexivity.
Qed.

(** After any accepted arguments, [-h] prints the usage text on [stdout]
    and ends the process with [exit(0)], whatever follows it on the command
    line; [main] ends there too, before any driver call. *)
Theorem help_option {hdr : UsbDask}
    (argv0 : string) (pre rest : list string) (stack : list Z) (s s1 : state) :
  process_arguments (argv0 :: pre) s = Returns tt s1 ->
  let final := set_trace (trace s ++ usage_events (AStr argv0)) s1 in
  process_arguments (argv0 :: pre ++ "-h"%string :: rest) s = Exits 0 final /\
  main (argv0 :: pre ++ "-h"%string :: rest) stack s = Exits 0 final.
Proof.
  intros Hpre final.
  destruct (process_arguments_quiet _ _ _ Hpre) as [Ht _].
  assert (H : process_arguments (argv0 :: pre ++ "-h"%string :: rest) s = Exits 0 final).
  { apply process_arguments_loop in Hpre.
    change (process_arguments (argv0 :: pre ++ "-h"%string :: rest) s)
      with (arguments_loop (AStr argv0) (pre ++ "-h"%string :: rest) (set_no_channels 0 s)).
    rewrite (arguments_loop_app _ _ _ _ _ Hpre).
    cbn [arguments_loop String.eqb Ascii.eqb Bool.eqb].
    rewrite (bind_returns _ _ _ _ _ (print_usage_run _ s1)).
    subst final. rewrite Ht. reflexivity. }
  split; [exact H|]. unfold main. apply bind_exits. exact H.
Qed.

Lemma help_option_witness :
  let s := initial_state [] in
  let s1 := set_sample_rate 50 (set_no_channels 0 s) in
  process_arguments (hdr := demo_header) ["prog"; "-s"; "50"; "-h"; "-x"]%string s
  = Exits 0 (set_trace (trace s ++ usage_events (AStr "prog")) s1).
Proof.
  intros s s1.
  exact (proj1 (help_option (hdr := demo_header) "prog" ["-s"; "50"]%string ["-x"%string]
                  [] s s1 eq_refl)).
Defined.

(** *** Accepted options *)

Lemma accepted_argument {hdr : UsbDask} argv0 pre rest s s1 s2 :
  process_arguments (argv0 :: pre) s = Returns tt s1 ->
  arguments_loop (AStr argv0) rest s1 = Returns tt s2 ->
  process_arguments (argv0 :: pre ++ rest) s = Returns tt s2.
Proof.
  intros Hpre Hrest. apply process_arguments_loop in Hpre.
  change (process_arguments (argv0 :: pre ++ rest) s)
    with (arguments_loop (AStr argv0) (pre ++ rest) (set_no_channels 0 s)).
  rewrite (arguments_loop_app _ _ _ _ _ Hpre). exact Hrest.
Qed.

Lemma range_code_some {hdr : UsbDask} r :
  0 <= r <= 3 ->
  exists code, range_code r = Some code /\ to_U16 code = code /\ known_range code = true.
Proof.
  intros Hr. pose proof AD_codes_U16 as HU.
  apply Forall_cons in HU as [H1 HU]. apply Forall_cons in HU as [H2 HU].
  apply Forall_cons in HU as [H3 HU]. apply Forall_cons in HU as [H4 _].
  assert (H : r = 0 \/ r = 1 \/ r = 2 \/ r = 3) by lia.
  unfold known_range, to_U16.
  destruct H as [H|[H|[H|H]]]; subst r; eexists; (split; [reflexivity|]);
    (split; [apply Z.mod_small; assumption|]);
    rewrite Z.eqb_refl, ?orb_true_r; reflexivity.
Qed.

(** What an accepted option did. *)
Lemma option_step_cases {hdr : UsbDask} argv0 a rest s rest' s' :
  option_step argv0 a rest s = Returns rest' s' ->
  (exists v, s' = set_file_name v s) \/
  (exists n, 1 <= n /\ s' = set_sample_rate n s) \/
  (exists n, 1 <= n /\ s' = set_duration n s) \/
  (exists i r, 0 <= i <= 15 /\ 0 <= r <= 3 /\
               0 <= no_channels s < MAX_CHANNELS /\
               no_channels s < Z.of_nat (length (channel s)) /\
               s' = with_channel s i r).
Proof.
  unfold option_step.
  destruct (String.eqb a "-h").
  { intros H. apply bind_returns_inv in H as (? & ? & _ & H). discriminate H. }
  destruct (String.eqb a "-o").
  { destruct rest as [|v r]; [discriminate|]. intros H. injection H as _ <-. eauto. }
  destruct (String.eqb a "-s").
  { destruct rest as [|v r]; [discriminate|].
    destruct (scanned_1 (sscanf_d v)) as [n|]; [|discriminate].
    destruct (Z.ltb_spec n 1) as [|Hn]; [discriminate|]. intros Hrun. injection Hrun as _ <-.
    right. left. eauto. }
  destruct (String.eqb a "-c").
  { unfold bind at 1. cbn [get].
    destruct (Z.ltb_spec (no_channels s) MAX_CHANNELS) as [Hlt|]; [|discriminate].
    destruct rest as [|v r]; [discriminate|].
    destruct (scanned_2 (sscanf_d_colon_d v)) as [[i x]|]; [|discriminate].
    destruct ((i <? 0) || (i >? 15) || (x <? 0) || (x >? 3)) eqn:Hchk; [discriminate|].
    rewrite !orb_false_iff in Hchk. destruct Hchk as [[[Hc1 Hc2] Hc3] Hc4].
    intros Hrun. apply then_ret_inv in Hrun as [_ [[] Hm]].
    apply add_channel_returns in Hm as [Hnc ->].
    right. right. right. exists i, x. repeat split; try lia. }
  destruct (String.eqb a "-d").
  { destruct rest as [|v r]; [discriminate|].
    destruct (scanned_1 (sscanf_d v)) as [n|]; [|discriminate].
    destruct (Z.ltb_spec n 1) as [|Hn]; [discriminate|]. intros Hrun. injection Hrun as _ <-.
    right. right. left. eauto. }
  discriminate.
Qed.

Lemma configuration_from_step {hdr : UsbDask} argv0 a rest s u rest' u' :
  configuration_from s u -> option_step argv0 a rest u = Returns rest' u' ->
  configuration_from s u'.
Proof.
  intros (Hl & Hnc & Hch & Hf & Hc & Hs & Hd) Hstep.
  apply option_step_cases in Hstep
    as [[v ->]|[(n & Hn & ->)|[(n & Hn & ->)|(i & r & Hi & Hr & Hlt & Hlen & ->)]]].
  - exact (conj Hl (conj Hnc (conj Hch (conj Hf (conj Hc (conj Hs Hd)))))).
  - exact (conj Hl (conj Hnc (conj Hch (conj Hf (conj Hc (conj (fun _ => Hn) Hd)))))).
  - exact (conj Hl (conj Hnc (conj Hch (conj Hf (conj Hc (conj Hs (or_intror Hn))))))).
  - unfold MAX_CHANNELS in *. unfold configuration_from, with_channel.
    cbn [file_name file card sample_rate duration no_channels channel
         set_channel set_no_channels].
    rewrite to_int_id by (unfold INT_MIN, INT_MAX; lia).
    rewrite length_insert.
    split; [exact Hl|]. split; [unfold MAX_CHANNELS; lia|].
    split; [|exact (conj Hf (conj Hc (conj Hs Hd)))].
    intros c Hc'. destruct (Z.eq_dec c (no_channels u)) as [->|Hne].
    + rewrite list_lookup_insert_eq by lia. eexists. split; [reflexivity|].
      destruct (range_code_some r Hr) as (code & Hcode & HU & Hk).
      unfold channel_configured, new_channel. rewrite Hcode, HU. cbn [id AdRange].
      unfold to_U16. rewrite Z.mod_small by lia. split; [lia|exact Hk].
    + rewrite list_lookup_insert_ne by lia. apply Hch. lia.
Qed.

Lemma process_arguments_configuration {hdr : UsbDask} argv s s1 :
  process_arguments argv s = Returns tt s1 -> configuration_from s s1.
Proof.
  unfold process_arguments. intros H.
  apply bind_returns_inv in H as ([] & t & Hm & Hrun). injection Hm as <-.
  assert (H0 : configuration_from s (set_no_channels 0 s)).
  { unfold configuration_from, MAX_CHANNELS.
    cbn [file_name file card sample_rate duration no_channels channel set_no_channels].
    split; [reflexivity|]. split; [lia|]. split; [intros c Hc; lia|]. auto. }
  destruct argv as [|argv0 rest]; [injection Hrun as <-; exact H0|].
  apply (arguments_loop_invariant (configuration_from s) (AStr argv0))
    with (rest := rest) (s := set_no_channels 0 s); [|exact H0|exact Hrun].
  intros a r u r' u' Hu Hs. apply (configuration_from_step _ _ _ _ _ _ _ Hu Hs).
Qed.

Lemma process_arguments_table {hdr : UsbDask} argv s s1 :
  process_arguments argv s = Returns tt s1 ->
  length (channel s1) = length (channel s) /\ 0 <= no_channels s1 <= MAX_CHANNELS.
Proof.
  intros H. apply process_arguments_configuration in H as (Hl & Hnc & _). auto.
Qed.

(** After any accepted arguments, an option with a value that passes the
    checks is accepted and has exactly this effect: [-o] sets the file name
    to its value as it is; [-s] and [-d] set the sample rate and the
    duration to the number [sscanf] converts, when it is at least 1; [-c]
    stores the channel id and the code of the range in the next entry of
    the table and counts the channel, when fewer than [MAX_CHANNELS] were
    accepted, the id is in [0, 15] and the range in [0, 3].  Nothing is
    printed. *)
Theorem accepted_options {hdr : UsbDask}
    (argv0 : string) (pre : list string) (s s1 : state) :
  process_arguments (argv0 :: pre) s = Returns tt s1 ->
  (forall v,
     process_arguments (argv0 :: pre ++ ["-o"; v]%string) s
     = Returns tt (set_file_name v s1)) /\
  (forall v n,
     sscanf_d v = (1, [n]) -> 1 <= n ->
     process_arguments (argv0 :: pre ++ ["-s"%string; v]) s
     = Returns tt (set_sample_rate n s1) /\
     process_arguments (argv0 :: pre ++ ["-d"%string; v]) s
     = Returns tt (set_duration n s1)) /\
  (forall v i r,
     sscanf_d_colon_d v = (2, [i; r]) -> 0 <= i <= 15 -> 0 <= r <= 3 ->
     no_channels s1 < MAX_CHANNELS ->
     Z.of_nat (length (channel s)) = MAX_CHANNELS ->
     exists code,
       range_code r = Some code /\
       process_arguments (argv0 :: pre ++ ["-c"%string; v]) s
       = Returns tt
           (set_no_channels (no_channels s1 + 1)
              (set_channel (<[Z.to_nat (no_channels s1) := mk_channel i code]> (channel s1))
                 s1))).
Proof.
  intros Hpre. split; [|split].
  - intros v. apply (accepted_argument _ _ _ _ _ _ Hpre). reflexivity.
  - intros v n Hv Hn. apply Z.ltb_ge in Hn.
    split; apply (accepted_argument _ _ _ _ _ _ Hpre);
      cbn [arguments_loop String.eqb Ascii.eqb Bool.eqb]; rewrite Hv; cbn [scanned_1];
      rewrite Hn; reflexivity.
  - intros v i r Hv Hi Hr Hnc Hlen.
    destruct (process_arguments_table _ _ _ Hpre) as [Hl Hb].
    destruct (range_code_some r Hr) as (code & Hcode & HU & _).
    exists code. split; [exact Hcode|].
    apply (accepted_argument _ _ _ _ _ _ Hpre).
    cbn [arguments_loop String.eqb Ascii.eqb Bool.eqb].
    rewrite (bind_returns _ _ _ _ _ (get_ok no_channels s1)). cbv beta.
    destruct (Z.ltb_spec (no_channels s1) MAX_CHANNELS) as [_|]; [|lia].
    rewrite Hv. cbn [scanned_2].
    assert (Hchk : (i <? 0) || (i >? 15) || (r <? 0) || (r >? 3) = false).
    { rewrite !orb_false_iff. repeat split; lia. }
    rewrite Hchk.
    rewrite (bind_returns _ _ _ _ _ (add_channel_run i r s1 ltac:(lia))).
    unfold ret, with_channel, new_channel. rewrite Hcode, HU.
    unfold to_U16. rewrite (Z.mod_small i) by lia.
    unfold MAX_CHANNELS in *.
    rewrite to_int_id by (unfold INT_MIN, INT_MAX; lia). reflexivity.
Qed.

Lemma accepted_options_witness :
  let s := initial_state [] in
  process_arguments (hdr := demo_header) ["prog"; "-o"; "out.csv"]%string s
  = Returns tt (set_file_name "out.csv" (set_no_channels 0 s)) /\
  process_arguments (hdr := demo_header) ["prog"; "-s"; "1000Hz"]%string s
  = Returns tt (set_sample_rate 1000 (set_no_channels 0 s)).
Proof.
  intros s.
  destruct (accepted_options (hdr := demo_header) "prog" [] s (set_no_channels 0 s) eq_refl)
    as (Ho & Hs & _).
  split; [apply Ho|]. apply (Hs "1000Hz"%string 1000); [reflexivity|lia].
Defined.

(** *** The configuration that parsing leaves *)

Lemma configured_channels_known {hdr : UsbDask} u n :
  (forall c, 0 <= c < n ->
     exists ch, channel u !! Z.to_nat c = Some ch /\ channel_configured ch) ->
  unknown_range_events u n = [].
Proof.
  intros Hch. unfold unknown_range_events.
  assert (H : forall l, (forall c, c ∈ l -> 0 <= c < n) ->
            flat_map (fun c => if known_range (AdRange (chan_at u c)) then []
                               else [ev_unknown_range]) l = []).
  { induction l as [|c l IH]; intros Hl; [reflexivity|]. cbn [flat_map].
    destruct (Hch c) as (ch & Hlook & _ & Hk); [apply Hl; left|].
    rewrite (chan_at_lookup _ _ _ Hlook), Hk. cbn [app]. apply IH.
    intros c' Hc'. apply Hl. right. exact Hc'. }
  apply H. intros c Hc. apply elem_of_seqZ in Hc. lia.
Qed.

(** When [process_arguments] returns, the configuration is well formed:
    between 0 and [MAX_CHANNELS] channels are counted, in a table of the
    size it had; every counted entry holds an id in [0, 15] and one of the
    four range codes, so that [ad_range_to_volt] never meets an unknown
    range in [process_samples]; a sample rate that was at least 1 still is;
    the duration is the one it was or at least 1; [file] and [card] are
    untouched, nothing was printed and no answer was taken. *)
Theorem parsed_configuration {hdr : UsbDask} (argv : list string) (s s1 : state) :
  process_arguments argv s = Returns tt s1 ->
  length (channel s1) = length (channel s) /\
  0 <= no_channels s1 <= MAX_CHANNELS /\
  (forall c, 0 <= c < no_channels s1 ->
     exists ch, channel s1 !! Z.to_nat c = Some ch /\
                0 <= id ch <= 15 /\
                In (AdRange ch) [AD_B_0_2_V; AD_B_1_V; AD_B_2_V; AD_B_10_V]) /\
  unknown_range_events s1 (no_channels s1) = [] /\
  (1 <= sample_rate s -> 1 <= sample_rate s1) /\
  (duration s1 = duration s \/ 1 <= duration s1) /\
  file s1 = file s /\ card s1 = card s /\
  trace s1 = trace s /\ inputs s1 = inputs s.
Proof.
  intros Hrun.
  pose proof (process_arguments_configuration _ _ _ Hrun)
    as (Hl & Hnc & Hch & Hf & Hc & Hs & Hd).
  destruct (process_arguments_quiet _ _ _ Hrun) as [Ht Hi].
  split; [exact Hl|]. split; [exact Hnc|]. split.
  { intros c Hc'. destruct (Hch c Hc') as (ch & Hlook & Hid & Hk).
    exists ch. split; [exact Hlook|]. split; [exact Hid|].
    unfold known_range in Hk. rewrite !orb_true_iff, !Z.eqb_eq in Hk.
    cbn [In]. intuition auto. }
  split; [apply configured_channels_known; exact Hch|].
  auto 10.
Qed.

Lemma parsed_configuration_witness :
  let s := initial_state [] in
  exists s1,
    process_arguments (hdr := demo_header) ["prog"; "-c"; "3:1"; "-d"; "5"]%string s
    = Returns tt s1 /\
    0 <= no_channels s1 <= MAX_CHANNELS /\
    unknown_range_events (hdr := demo_header) s1 (no_channels s1) = [].
Proof.
  intros s.
  eassert (Hrun : process_arguments (hdr := demo_header)
                    ["prog"; "-c"; "3:1"; "-d"; "5"]%string s = Returns tt _)
    by (vm_compute; reflexivity).
  pose proof (parsed_configuration (hdr := demo_header) _ _ _ Hrun)
    as (_ & Hnc & _ & Hk & _).
  eexists. split; [exact Hrun|]. split; [exact Hnc|exact Hk].
Defined.

(** *** Every way [process_arguments] can end *)

Lemma parse_outcome_bad {A} argv0 fmt args u :
  parse_outcome argv0 u (bad_option (A := A) fmt args u).
Proof. cbn. split; [reflexivity|]. right. split; [reflexivity|]. eauto. Qed.

Lemma option_step_outcome {hdr : UsbDask} argv0 a rest u :
  0 <= no_channels u -> Z.of_nat (length (channel u)) = MAX_CHANNELS ->
  parse_outcome argv0 u (option_step argv0 a rest u).
Proof.
  intros Hnc Hlen. unfold option_step.
  destruct (String.eqb a "-h").
  { rewrite (bind_returns _ _ _ _ _ (print_usage_run argv0 u)). cbn.
    split; [reflexivity|]. left. auto. }
  destruct (String.eqb a "-o").
  { destruct rest as [|v r]; [apply parse_outcome_bad|]. cbn. auto. }
  destruct (String.eqb a "-s").
  { destruct rest as [|v r]; [apply parse_outcome_bad|].
    destruct (scanned_1 (sscanf_d v)) as [n|]; [|apply parse_outcome_bad].
    destruct (n <? 1); [apply parse_outcome_bad|]. cbn. auto. }
  destruct (String.eqb a "-c").
  { rewrite (bind_returns _ _ _ _ _ (get_ok no_channels u)). cbv beta.
    destruct (Z.ltb_spec (no_channels u) MAX_CHANNELS) as [Hlt|]; [|apply parse_outcome_bad].
    destruct rest as [|v r]; [apply parse_outcome_bad|].
    destruct (scanned_2 (sscanf_d_colon_d v)) as [[i x]|]; [|apply parse_outcome_bad].
    destruct (_ || _); [apply parse_outcome_bad|].
    rewrite (bind_returns _ _ _ _ _ (add_channel_run i x u ltac:(lia))).
    cbn. auto. }
  destruct (String.eqb a "-d").
  { destruct rest as [|v r]; [apply parse_outcome_bad|].
    destruct (scanned_1 (sscanf_d v)) as [n|]; [|apply parse_outcome_bad].
    destruct (n <? 1); [apply parse_outcome_bad|]. cbn. auto. }
  apply parse_outcome_bad.
Qed.

Lemma arguments_loop_outcome {hdr : UsbDask} argv0 rest :
  forall u,
  0 <= no_channels u -> Z.of_nat (length (channel u)) = MAX_CHANNELS ->
  parse_outcome argv0 u (arguments_loop argv0 rest u).
Proof.
  induction rest as [| a | a v rest IH] using arguments_ind; intros u Hnc Hlen.
  - cbn. auto.
  - rewrite arguments_loop_cons.
    pose proof (option_step_outcome argv0 a [] u Hnc Hlen) as Hs.
    unfold bind. destruct (option_step argv0 a [] u) as [r t|c t|tr t|t] eqn:E;
      try exact Hs.
    apply option_step_returns in E as [[v Hv] _]. discriminate Hv.
  - rewrite arguments_loop_cons.
    pose proof (option_step_outcome argv0 a (v :: rest) u Hnc Hlen) as Hs.
    unfold bind. destruct (option_step argv0 a (v :: rest) u) as [r t|c t|tr t|t] eqn:E;
      try exact Hs.
    pose proof (option_step_returns _ _ _ _ _ _ E) as [[v' Hv] _]. injection Hv as <- <-.
    destruct Hs as [Ht Hi].
    assert (Hinv : 0 <= no_channels t /\ Z.of_nat (length (channel t)) = MAX_CHANNELS).
    { apply option_step_cases in E
        as [[x ->]|[(n & Hn & ->)|[(n & Hn & ->)|(i & r & Hi' & Hr & Hlt & Hl & ->)]]];
        try (split; assumption).
      unfold with_channel. cbn [no_channels channel set_channel set_no_channels].
      rewrite length_insert. unfold MAX_CHANNELS in *.
      rewrite to_int_id by (unfold INT_MIN, INT_MAX; lia). split; [lia|exact Hlen]. }
    pose proof (IH t (proj1 Hinv) (proj2 Hinv)) as Hrest.
    destruct (arguments_loop argv0 rest t) as [r' t'|c t'|tr t'|t']; cbn in Hrest |- *.
    + rewrite <- Ht, <- Hi. exact Hrest.
    + rewrite <- Ht, <- Hi. exact Hrest.
    + exact Hrest.
    + exact Hrest.
Qed.

(** With its table of [MAX_CHANNELS] entries, [process_arguments] ends in
    one of three ways, whatever the command line: it returns, having printed
    nothing; it ends the process with [exit(0)] after the usage text; or it
    ends the process with [exit(-1)] after one line on [stderr].  It never
    traps, never waits for the outside world and takes no answer from it:
    no driver call is made while the arguments are read. *)
Theorem process_arguments_outcomes {hdr : UsbDask} (argv : list string) (s : state) :
  Z.of_nat (length (channel s)) = MAX_CHANNELS ->
  (exists s1, process_arguments argv s = Returns tt s1 /\
              trace s1 = trace s /\ inputs s1 = inputs s) \/
  (exists s1, process_arguments argv s = Exits 0 s1 /\
              trace s1 = trace s ++ usage_events (AStr (hd EmptyString argv)) /\
              inputs s1 = inputs s) \/
  (exists s1 fmt args, process_arguments argv s = Exits (-1) s1 /\
              trace s1 = trace s ++ [EvPrintf Stderr fmt args] /\
              inputs s1 = inputs s).
Proof.
  intros Hlen. destruct argv as [|argv0 rest].
  { left. eexists. split; [reflexivity|]. auto. }
  change (process_arguments (argv0 :: rest) s)
    with (arguments_loop (AStr argv0) rest (set_no_channels 0 s)).
  pose proof (arguments_loop_outcome (AStr argv0) rest (set_no_channels 0 s)
                ltac:(cbn; lia) Hlen) as H.
  destruct (arguments_loop (AStr argv0) rest (set_no_channels 0 s)) as [[] t|c t|tr t|t];
    cbn in H; try contradiction.
  - left. exists t. split; [reflexivity|exact H].
  - destruct H as [Hi [[-> Ht]|[-> (fmt & args & Ht)]]].
    + right. left. exists t. auto.
    + right. right. exists t, fmt, args. auto.
Qed.

Lemma process_arguments_outcomes_witness :
  let s := initial_state [] in
  let argv := ["prog"; "-s"; "0"]%string in
  (exists s1, process_arguments (hdr := demo_header) argv s = Returns tt s1 /\
              trace s1 = trace s /\ inputs s1 = inputs s) \/
  (exists s1, process_arguments (hdr := demo_header) argv s = Exits 0 s1 /\
              trace s1 = trace s ++ usage_events (AStr (hd EmptyString argv)) /\
              inputs s1 = inputs s) \/
  (exists s1 fmt args, process_arguments (hdr := demo_header) argv s = Exits (-1) s1 /\
              trace s1 = trace s ++ [EvPrintf Stderr fmt args] /\
              inputs s1 = inputs s).
Proof.
  intros s argv.
  exact (process_arguments_outcomes (hdr := demo_header) argv s eq_refl).
Defined.

(** ** [open_USB1901] *)

Lemma driver_run c s v rest :
  inputs s = RInt v :: rest ->
  driver c s = Returns (to_I16 v) (set_inputs rest (set_trace (trace s ++ [EvDriver c]) s)).
Proof.
  intros Hi. unfold driver. rewrite (bind_returns _ _ _ _ _ (ask_int_run _ s _ _ Hi)).
  reflexivity.
Qed.

(** *** The choice of the device *)

Lemma first_USB_1901_from {hdr : UsbDask} mods s n :
  forall i : nat,
  (i + n <= length mods)%nat ->
  first_USB_1901 n (Z.of_nat i) mods s
  = Returns (match List.find (fun m => wModuleType m =? USB_1901) (take n (drop i mods)) with
             | Some m => to_U16 (wCardID m)
             | None => INVALID_CARD_ID
             end) s.
Proof.
  induction n as [|n IH]; intros i Hi; [reflexivity|].
  cbn [first_USB_1901].
  destruct (lookup_lt_is_Some_2 mods i) as [m Hm]; [lia|].
  rewrite (bind_returns _ _ _ _ _
             (load_ok "AvailModules" mods (Z.of_nat i) m s ltac:(lia)
                ltac:(rewrite Nat2Z.id; exact Hm))).
  rewrite (drop_S _ _ _ Hm). cbn [take List.find].
  destruct (wModuleType m =? USB_1901); [reflexivity|].
  replace (Z.of_nat i + 1) with (Z.of_nat (S i)) by lia. apply IH. lia.
Qed.

Lemma found_module_run {hdr : UsbDask} n mods s :
  (n <= length mods)%nat ->
  first_USB_1901 n 0 mods s = Returns (found_module n mods) s.
Proof.
  intros Hn. apply (first_USB_1901_from mods s n 0%nat). lia.
Qed.

(** Among the first [n] modules of the table the scan filled,
    [open_USB1901] takes the card id of the first one of type [USB_1901],
    as a [U16], and [INVALID_CARD_ID] when there is none. *)
Theorem first_USB_1901_finds_first {hdr : UsbDask}
    (n : nat) (mods : list USBDAQ_DEVICE) (s : state) :
  (n <= length mods)%nat ->
  first_USB_1901 n 0 mods s = Returns (found_module n mods) s.
Proof.
  intros Hn. apply (first_USB_1901_from mods s n 0%nat). lia.
Qed.

Lemma first_USB_1901_finds_first_witness :
  first_USB_1901 (hdr := demo_header) 3 0
    [mk_device 7 4; mk_device 5 2; mk_device 5 1] (initial_state [])
  = Returns 2 (initial_state []).
Proof.
  apply (first_USB_1901_finds_first (hdr := demo_header) 3
           [mk_device 7 4; mk_device 5 2; mk_device 5 1] (initial_state [])).
  cbn. lia.
Defined.

(** *** The arrays passed to the driver *)

Lemma channel_array_insert s (f : channel_t -> Z) k :
  0 <= k < MAX_CHANNELS ->
  <[Z.to_nat k := Some (f (chan_at s k))]>
    (map (fun c => Some (f (chan_at s c))) (seqZ 0 k)
     ++ replicate (Z.to_nat (MAX_CHANNELS - k)) None)
  = map (fun c => Some (f (chan_at s c))) (seqZ 0 (k + 1))
    ++ replicate (Z.to_nat (MAX_CHANNELS - (k + 1))) None.
Proof.
  intros Hk. 
  assert (Hlen : length (map (fun c => Some (f (chan_at s c))) (seqZ 0 k)) = Z.to_nat k).
  { rewrite length_map, length_seqZ. reflexivity. }
  replace (Z.to_nat k) with (length (map (fun c => Some (f (chan_at s c))) (seqZ 0 k)) + 0)%nat
    at 1 by lia.
  rewrite insert_app_r.
  replace (Z.to_nat (MAX_CHANNELS - k)) with (S (Z.to_nat (MAX_CHANNELS - (k + 1)))) by lia.
  cbn [replicate]. cbn [insert list_insert].
  rewrite seqZ_snoc by lia. rewrite map_app, <- app_assoc. reflexivity.
Qed.

Lemma channel_arrays_run s :
  0 <= no_channels s <= MAX_CHANNELS ->
  Z.of_nat (length (channel s)) = MAX_CHANNELS ->
  for_to (to_U16 (no_channels s)) (fun i '(Chans, AdRanges) =>
      ch <- load "channel" (channel s) i ;;
      Chans <- store "Chans" Chans i (Some (id ch)) ;;
      ch <- load "channel" (channel s) i ;;
      AdRanges <- store "AdRanges" AdRanges i (Some (AdRange ch)) ;;
      ret (Chans, AdRanges))
    (local_array Z MAX_CHANNELS, local_array Z MAX_CHANNELS) s
  = Returns (channel_array s id, channel_array s AdRange) s.
Proof.
  intros Hnc Hlen.
  unfold to_U16. rewrite Z.mod_small by (unfold MAX_CHANNELS in *; lia).
  set (body := fun (i : Z) (p : list (option Z) * list (option Z)) => _).
  pose (arr := fun (f : channel_t -> Z) (k : Z) =>
          map (fun c => Some (f (chan_at s c))) (seqZ 0 k)
          ++ replicate (Z.to_nat (MAX_CHANNELS - k)) (@None Z)).
  pose (I := fun (k : Z) (p : list (option Z) * list (option Z)) (t : state) =>
    t = s /\ p = (arr id k, arr AdRange k)).
  destruct (for_to_inv I body (no_channels s)
              (local_array Z MAX_CHANNELS, local_array Z MAX_CHANNELS) s)
    as (p & t & Hrun & Ht & Hp).
  - lia.
  - split; reflexivity.
  - intros j p t Hj [-> ->]. unfold body.
    assert (Hch : channel s !! Z.to_nat j = Some (chan_at s j))
      by (apply channel_lookup; [exact Hlen | lia]).
    assert (Hla : forall f, Z.of_nat (length (arr f j)) = MAX_CHANNELS).
    { intros f. unfold arr. rewrite length_app, length_map, length_seqZ, length_replicate. lia. }
    rewrite (bind_returns _ _ _ _ _ (load_ok "channel" _ j _ s ltac:(lia) Hch)).
    erewrite bind_returns by (apply store_ok; rewrite Hla; lia).
    rewrite (bind_returns _ _ _ _ _ (load_ok "channel" _ j _ s ltac:(lia) Hch)).
    erewrite bind_returns by (apply store_ok; rewrite Hla; lia).
    eexists _, _. split; [reflexivity|]. split; [reflexivity|].
    unfold arr. rewrite !channel_array_insert by lia. reflexivity.
  - rewrite Hrun, Ht, Hp. reflexivity.
Qed.

(** *** The ways [open_USB1901] ends *)

Lemma scan_interval s :
  1 <= sample_rate s ->
  int_div U1902_TIMEBASE (sample_rate s) s = Returns (U1902_TIMEBASE / sample_rate s) s /\
  to_U32 (U1902_TIMEBASE / sample_rate s) = U1902_TIMEBASE / sample_rate s.
Proof.
  intros Hr. split.
  - apply int_div_ok; unfold U1902_TIMEBASE, INT_MAX; lia.
  - unfold to_U32. apply Z.mod_small. unfold U1902_TIMEBASE.
    assert (0 <= 80000000 / sample_rate s) by (apply Z.div_pos; lia).
    assert (80000000 / sample_rate s <= 80000000) by (apply Z.div_le_upper_bound; nia).
    lia.
Qed.

Lemma demo_configured script : configured (set_inputs script demo_state).
Proof. unfold configured. cbn. unfold MAX_CHANNELS. lia. Defined.

(** Two states with the same globals and script, and traces that are equal
    up to the grouping of what was appended. *)
Ltac same_state :=
  unfold exit, ret; f_equal; states; unfold scan_events;
  repeat (cbn [app]; rewrite <- ?app_assoc); reflexivity.

(** The run of [open_USB1901] up to the answer of the scan. *)
Ltac open_prefix s Hready Hi :=
  let Hr := fresh "Hr" in let Hnc := fresh "Hnc" in let Hlen := fresh "Hlen" in
  let Hdiv := fresh "Hdiv" in let HU := fresh "HU" in
  pose proof Hready as (Hr & Hnc & Hlen);
  destruct (scan_interval s Hr) as [Hdiv HU];
  unfold open_USB1901; cbv zeta;
  rewrite (bind_returns _ _ _ _ _ (get_ok sample_rate s)); cbv beta;
  rewrite (bind_returns _ _ _ _ _ Hdiv); cbv beta;
  rewrite (bind_returns _ _ _ _ _ (get_ok no_channels s)); cbv beta;
  rewrite (bind_returns _ _ _ _ _ (get_ok channel s)); cbv beta;
  rewrite (bind_returns _ _ _ _ _ (channel_arrays_run s Hnc Hlen)); cbv beta iota;
  rewrite HU;
  step_ret; step_ret;
  erewrite bind_returns; [|apply ask_run; exact Hi]; cbv beta iota zeta.

(** The errors that end [open_USB1901] before a card is registered: a
    failed scan ends the process with [exit(1)], no module of type
    [USB_1901] among those found with [exit(2)], and a failed registration
    with [exit(3)], each after one line on [stderr]. *)
Theorem open_USB1901_early_exits {hdr : UsbDask}
    (s : state) (err num : Z) (mods : list USBDAQ_DEVICE) (rest : list response) :
  configured s ->
  inputs s = RScan err num mods :: rest ->
  let n := Z.to_nat (to_U16 num) in
  (to_I16 err < 0 ->
   open_USB1901 s
   = Exits 1 (set_inputs rest
        (set_trace (trace s ++ scan_events s
                    ++ [EvPrintf Stderr ("UD_Device_Scan Error: %d" ++ NL)%string
                          [AInt (to_I16 err)]]) s))) /\
  (0 <= to_I16 err -> (n <= length mods)%nat -> found_module n mods = INVALID_CARD_ID ->
   open_USB1901 s
   = Exits 2 (set_inputs rest
        (set_trace (trace s ++ scan_events s
                    ++ [EvPrintf Stderr ("No active USB_1901 USB device" ++ NL)%string []]) s))) /\
  (forall reg rest',
   0 <= to_I16 err -> (n <= length mods)%nat -> found_module n mods <> INVALID_CARD_ID ->
   rest = RInt reg :: rest' -> to_I16 reg < 0 ->
   open_USB1901 s
   = Exits 3 (set_inputs rest'
        (set_trace (trace s ++ scan_events s
                    ++ [register_call (found_module n mods);
                        EvPrintf Stderr ("UD_Register_Card Error: %d" ++ NL)%string
                          [AInt (to_I16 reg)]]) s))).
Proof.
  intros Hready Hi n. split; [|split].
  - intros Herr. apply Z.ltb_lt in Herr. open_prefix s Hready Hi.
    rewrite Herr. apply bind_exits. step_ret. same_state.
  - intros Herr Hn Hnone. apply Z.ltb_ge in Herr. open_prefix s Hready Hi.
    rewrite Herr. step_ret.
    rewrite (bind_returns _ _ _ _ _ (found_module_run n mods _ Hn)).
    rewrite Hnone, Z.eqb_refl. apply bind_exits. step_ret. same_state.
  - intros reg rest' Herr Hn Hsome -> Hreg.
    apply Z.ltb_ge in Herr. apply Z.ltb_lt in Hreg. apply Z.eqb_neq in Hsome.
    open_prefix s Hready Hi.
    rewrite Herr. step_ret.
    rewrite (bind_returns _ _ _ _ _ (found_module_run n mods _ Hn)).
    rewrite Hsome. step_ret.
    erewrite bind_returns; [|apply driver_run; reflexivity]. cbv beta.
    rewrite Hreg. apply bind_exits. step_ret. same_state.
Qed.

Lemma open_USB1901_early_exits_witness :
  let s := set_inputs [RScan 0 1 [mk_device 7 0]] demo_state in
  exists s', open_USB1901 (hdr := demo_header) s = Exits 2 s'.
Proof.
  intros s. eexists.
  refine (proj1 (proj2 (open_USB1901_early_exits (hdr := demo_header) s 0 1
                          [mk_device 7 0] [] (demo_configured _) eq_refl)) _ _ _).
  - apply Z.leb_le. reflexivity.
  - apply Nat.leb_le. reflexivity.
  - reflexivity.
Defined.

Lemma channel_array_first s (f : channel_t -> Z) :
  no_channels s = 1 -> channel_array s f !! Z.to_nat 0 = Some (Some (f (chan_at s 0))).
Proof. intros H. unfold channel_array. rewrite H. reflexivity. Qed.

Ltac driver_step := erewrite bind_returns; [|apply driver_run; reflexivity]; cbv beta.

(** With a device found and every driver call answered with a status that
    is not negative, [open_USB1901] returns the handle [UD_Register_Card]
    gave, after exactly these calls: the card is registered, the analog
    input configured, double buffering enabled, the scan interval set to
    [U1902_TIMEBASE / sample_rate] with a sample interval of 320 for one
    channel and 128 * 320 otherwise, and the acquisition of [AI_COUNT]
    samples started on the one channel or on the [no_channels] channels
    of the table, in the order and with the ranges of the table. *)
Theorem open_USB1901_opens {hdr : UsbDask}
    (s : state) (err num reg cfg mode intv rd : Z)
    (mods : list USBDAQ_DEVICE) (rest : list response) :
  configured s ->
  inputs s = RScan err num mods :: RInt reg :: RInt cfg :: RInt mode :: RInt intv
             :: RInt rd :: rest ->
  let n := Z.to_nat (to_U16 num) in
  let c := to_I16 reg in
  0 <= to_I16 err -> (n <= length mods)%nat -> found_module n mods <> INVALID_CARD_ID ->
  0 <= c -> 0 <= to_I16 cfg -> 0 <= to_I16 mode -> 0 <= to_I16 intv -> 0 <= to_I16 rd ->
  open_USB1901 s
  = Returns c
      (set_inputs rest
         (set_trace (trace s ++ scan_events s
                     ++ [register_call (found_module n mods); config_call c; mode_call c;
                         interval_call s c; read_call s c]) s)).
Proof.
  intros Hready Hi n c Herr Hn Hsome Hreg Hcfg Hmode Hintv Hrd.
  apply Z.ltb_ge in Herr, Hreg, Hcfg, Hmode, Hintv, Hrd. apply Z.eqb_neq in Hsome.
  open_prefix s Hready Hi.
  assert (HU16 : to_U16 (no_channels s) = no_channels s)
    by (unfold to_U16, MAX_CHANNELS in *; apply Z.mod_small; lia).
  rewrite HU16.
  rewrite Herr. step_ret.
  rewrite (bind_returns _ _ _ _ _ (found_module_run n mods _ Hn)).
  rewrite Hsome. step_ret.
  driver_step. fold c. rewrite Hreg. step_ret.
  driver_step. rewrite Hcfg. step_ret.
  driver_step. rewrite Hmode. step_ret.
  driver_step. rewrite Hintv. step_ret.
  unfold interval_call, read_call.
  destruct (Z.eqb_spec (no_channels s) 1) as [H1|H1].
  - erewrite bind_returns.
    2:{ erewrite bind_returns;
          [|apply load_init_ok; [lia|apply channel_array_first; exact H1]]. cbv beta.
        erewrite bind_returns;
          [|apply load_init_ok; [lia|apply channel_array_first; exact H1]]. cbv beta.
        driver_step. rewrite Hrd. reflexivity. }
    same_state.
  - erewrite bind_returns.
    2:{ driver_step. rewrite Hrd. reflexivity. }
    same_state.
Qed.

Lemma open_USB1901_opens_witness :
  let s := set_inputs [RScan 0 1 [mk_device 5 3]; RInt 0; RInt 0; RInt 0; RInt 0; RInt 0]
                      demo_state in
  exists s', open_USB1901 (hdr := demo_header) s = Returns 0 s' /\
             last (trace s')
             = Some (EvDriver (UD_AI_ContReadMultiChannels 0 2
                                 [Some 0; Some 1; None; None; None; None; None; None]
                                 [Some 3; Some 1; None; None; None; None; None; None]
                                 20480 0 2)).
Proof.
  intros s. eexists. split.
  - refine (open_USB1901_opens (hdr := demo_header) s 0 1 0 0 0 0 0
              [mk_device 5 3] [] (demo_configured _) eq_refl _ _ _ _ _ _ _ _);
      try (apply Z.leb_le; reflexivity); [apply Nat.leb_le; reflexivity|].
    vm_compute. discriminate.
  - reflexivity.
Defined.

(** Once the card is registered, a failed configuration call
    ([UD_AI_1902_Config], [UD_AI_AsyncDblBufferMode] or
    [UD_AI_1902_CounterInterval]) ends the process with [exit(1)] right
    after its line on [stderr]: the card is not released.  Only a failed
    start of the acquisition asks [GetLastError] and leaves through
    [clean_exit], which releases the card and closes the data file if it is
    open. *)
Theorem open_USB1901_late_failures {hdr : UsbDask}
    (s : state) (err num reg : Z) (mods : list USBDAQ_DEVICE) (rest : list response) :
  configured s ->
  inputs s = RScan err num mods :: RInt reg :: rest ->
  let n := Z.to_nat (to_U16 num) in
  let c := to_I16 reg in
  let before := trace s ++ scan_events s ++ [register_call (found_module n mods)] in
  0 <= to_I16 err -> (n <= length mods)%nat -> found_module n mods <> INVALID_CARD_ID ->
  0 <= c ->
  (forall cfg rest',
     rest = RInt cfg :: rest' -> to_I16 cfg < 0 ->
     open_USB1901 s
     = Exits 1 (set_inputs rest'
          (set_trace (before ++ [config_call c;
                        EvPrintf Stderr ("UD_AI_1902_Config Error: %d" ++ NL)%string
                          [AInt (to_I16 cfg)]]) s))) /\
  (forall cfg mode rest',
     rest = RInt cfg :: RInt mode :: rest' -> 0 <= to_I16 cfg -> to_I16 mode < 0 ->
     open_USB1901 s
     = Exits 1 (set_inputs rest'
          (set_trace (before ++ [config_call c; mode_call c;
                        EvPrintf Stderr ("UD_AI_AsyncDblBufferMode Error: %d" ++ NL)%string
                          [AInt (to_I16 mode)]]) s))) /\
  (forall cfg mode intv rest',
     rest = RInt cfg :: RInt mode :: RInt intv :: rest' ->
     0 <= to_I16 cfg -> 0 <= to_I16 mode -> to_I16 intv < 0 ->
     open_USB1901 s
     = Exits 1 (set_inputs rest'
          (set_trace (before ++ [config_call c; mode_call c; interval_call s c;
                        EvPrintf Stderr ("UD_AI_1902_CounterInterval Error: %d" ++ NL)%string
                          [AInt (to_I16 intv)]]) s))) /\
  (forall cfg mode intv rd dwError rest',
     rest = RInt cfg :: RInt mode :: RInt intv :: RInt rd :: RInt dwError :: rest' ->
     0 <= to_I16 cfg -> 0 <= to_I16 mode -> 0 <= to_I16 intv -> to_I16 rd < 0 ->
     open_USB1901 s
     = Exits 1 (set_inputs rest'
          (set_trace (before ++ [config_call c; mode_call c; interval_call s c; read_call s c;
                        EvDriver GetLastError; read_error_event s (to_I16 rd) dwError;
                        EvDriver (UD_Release_Card (to_U16 c))]
                      ++ match file s with Some f => [EvFclose f] | None => [] end) s))).
Proof.
  intros Hready Hi n c before Herr Hn Hsome Hreg.
  apply Z.ltb_ge in Herr, Hreg. apply Z.eqb_neq in Hsome.
  assert (HU16 : to_U16 (no_channels s) = no_channels s).
  { destruct Hready as (_ & Hnc & _).
    unfold to_U16, MAX_CHANNELS in *; apply Z.mod_small; lia. }
  subst before.
  split; [|split; [|split]].
  - intros cfg rest' -> Hcfg. apply Z.ltb_lt in Hcfg.
    open_prefix s Hready Hi. rewrite Herr. step_ret.
    rewrite (bind_returns _ _ _ _ _ (found_module_run n mods _ Hn)).
    rewrite Hsome. step_ret.
    driver_step. fold c. rewrite Hreg. step_ret.
    driver_step. rewrite Hcfg. apply bind_exits. step_ret. same_state.
  - intros cfg mode rest' -> Hcfg Hmode. apply Z.ltb_ge in Hcfg. apply Z.ltb_lt in Hmode.
    open_prefix s Hready Hi. rewrite Herr. step_ret.
    rewrite (bind_returns _ _ _ _ _ (found_module_run n mods _ Hn)).
    rewrite Hsome. step_ret.
    driver_step. fold c. rewrite Hreg. step_ret.
    driver_step. rewrite Hcfg. step_ret.
    driver_step. rewrite Hmode. apply bind_exits. step_ret. same_state.
  - intros cfg mode intv rest' -> Hcfg Hmode Hintv.
    apply Z.ltb_ge in Hcfg, Hmode. apply Z.ltb_lt in Hintv.
    open_prefix s Hready Hi. rewrite HU16. rewrite Herr. step_ret.
    rewrite (bind_returns _ _ _ _ _ (found_module_run n mods _ Hn)).
    rewrite Hsome. step_ret.
    driver_step. fold c. rewrite Hreg. step_ret.
    driver_step. rewrite Hcfg. step_ret.
    driver_step. rewrite Hmode. step_ret.
    driver_step. rewrite Hintv. apply bind_exits. step_ret.
    unfold interval_call. same_state.
  - intros cfg mode intv rd dwError rest' -> Hcfg Hmode Hintv Hrd.
    apply Z.ltb_ge in Hcfg, Hmode, Hintv. apply Z.ltb_lt in Hrd.
    open_prefix s Hready Hi. rewrite HU16. rewrite Herr. step_ret.
    rewrite (bind_returns _ _ _ _ _ (found_module_run n mods _ Hn)).
    rewrite Hsome. step_ret.
    driver_step. fold c. rewrite Hreg. step_ret.
    driver_step. rewrite Hcfg. step_ret.
    driver_step. rewrite Hmode. step_ret.
    driver_step. rewrite Hintv. step_ret.
    apply bind_exits. unfold interval_call, read_call, read_error_event.
    destruct (Z.eqb_spec (no_channels s) 1) as [H1|H1].
    + erewrite bind_returns;
        [|apply load_init_ok; [lia|apply channel_array_first; exact H1]]. cbv beta.
      erewrite bind_returns;
        [|apply load_init_ok; [lia|apply channel_array_first; exact H1]]. cbv beta.
      driver_step. rewrite Hrd.
      erewrite bind_returns; [|apply ask_int_run; reflexivity]. cbv beta.
      step_ret. rewrite clean_exit_run. same_state.
    + driver_step. rewrite Hrd.
      erewrite bind_returns; [|apply ask_int_run; reflexivity]. cbv beta.
      step_ret. rewrite clean_exit_run. same_state.
Qed.

Lemma open_USB1901_late_failures_witness :
  let s := set_inputs [RScan 0 1 [mk_device 5 3]; RInt 0; RInt (-1)] demo_state in
  exists s', open_USB1901 (hdr := demo_header) s = Exits 1 s' /\
             ~ In (EvDriver (UD_Release_Card 0)) (trace s').
Proof.
  intros s.
  destruct (open_USB1901_late_failures (hdr := demo_header) s 0 1 0 [mk_device 5 3]
              [RInt (-1)] (demo_configured _) eq_refl) as (Hcfg & _);
    try (apply Z.leb_le; reflexivity); [apply Nat.leb_le; reflexivity|vm_compute; discriminate|].
  eexists. split; [apply (Hcfg (-1) [] eq_refl); reflexivity|].
  cbn. intros H. repeat (destruct H as [H|H]; [discriminate H|]). exact H.
Defined.

(** *** Every way [open_USB1901] can end *)

Lemma post_driver c s (R : Z -> state -> Prop) E T :
  (forall v rest, inputs s = RInt v :: rest ->
     R (to_I16 v) (set_inputs rest (set_trace (trace s ++ [EvDriver c]) s))) ->
  post (driver c s) R E T.
Proof.
  intros H. unfold driver. apply post_bind, post_ask_int. intros v rest Hi.
  apply post_ret. apply H. exact Hi.
Qed.

Lemma post_first_USB_1901 {hdr : UsbDask} mods s n (R : Z -> state -> Prop) E
    (T : trap -> state -> Prop) :
  (forall c, R c s) -> (forall t, T t s) ->
  forall i, post (first_USB_1901 n i mods s) R E T.
Proof.
  intros HR HT. induction n as [|n IH]; intros i; [apply HR|].
  cbn [first_USB_1901]. apply post_bind, post_load; [|intros _; apply HT].
  intros m _ _. destruct (wModuleType m =? USB_1901); [apply HR|apply IH].
Qed.

(** An error branch of [open_USB1901] that leaves with [exit(code)]. *)
Lemma open_error_post s0 t (code : Z) fmt args (E : Z -> state -> Prop) (b : bool) :
  globals_kept s0 t ->
  (forall u, globals_kept s0 u -> E code u) ->
  post ((if b then fprintf_stderr fmt args ;;; exit code else ret tt) t)
       (fun _ u => globals_kept s0 u /\ b = false) E (fun _ _ => True).
Proof.
  intros HK HE. destruct b; [|split; [exact HK|reflexivity]].
  apply post_bind, post_fprintf_stderr. apply HE. exact HK.
Qed.

Lemma open_USB1901_post {hdr : UsbDask} s :
  post (open_USB1901 s)
       (fun c t => globals_kept s t /\ 0 <= c <= 32767)
       (fun code t => (code = 1 \/ code = 2 \/ code = 3) /\ globals_kept s t)
       (fun _ _ => True).
Proof.
  set (E := fun (code : Z) (t : state) => (code = 1 \/ code = 2 \/ code = 3) /\ globals_kept s t).
  set (T := fun (_ : trap) (_ : state) => True).
  assert (HE : forall code, code = 1 \/ code = 2 \/ code = 3 ->
                 forall u, globals_kept s u -> E code u) by (intros; split; assumption).
  unfold open_USB1901. cbv zeta.
  apply post_bind, post_get.
  apply post_bind, post_int_div; [intros _|intros _; exact Logic.I].
  apply post_bind, post_get. apply post_bind, post_get.
  apply (post_seq _ _ _ (fun _ u => globals_kept s u)).
  { eapply post_weaken;
      [apply (post_for_to (fun _ (_ : list (option Z) * list (option Z)) t => globals_kept s t)
                _ E T)| |auto|auto].
    - apply globals_kept_refl.
    - intros j [ch ra] t Hj HK.
      apply post_bind, post_load; [intros x _ _|intros _; exact Logic.I].
      apply post_bind, post_store; [intros _|intros _; exact Logic.I].
      apply post_bind, post_load; [intros y _ _|intros _; exact Logic.I].
      apply post_bind, post_store; [intros _|intros _; exact Logic.I].
      apply post_ret. exact HK.
    - intros a t H. exact H. }
  intros [Chans AdRanges] t HK.
  apply post_bind, post_printf. apply post_bind, post_printf.
  apply post_bind, post_ask. intros r rest Hi. destruct r; try exact Logic.I.
  cbv zeta.
  eapply post_seq; [apply (open_error_post s); [exact HK|apply HE; auto]|].
  intros [] u [HKu _].
  apply post_bind, post_first_USB_1901; [|intros; exact Logic.I]. intros card_num.
  eapply post_seq; [apply (open_error_post s); [exact HKu|apply HE; auto]|].
  intros [] v [HKv _].
  apply post_bind, post_driver. intros reg rest1 _.
  eapply post_seq; [apply (open_error_post s); [exact HKv|apply HE; auto]|].
  intros [] w [HKw Hreg].
  apply post_bind, post_driver. intros cfg rest2 _.
  eapply post_seq; [apply (open_error_post s); [exact HKw|apply HE; auto]|].
  intros [] x [HKx _].
  apply post_bind, post_driver. intros mode rest3 _.
  eapply post_seq; [apply (open_error_post s); [exact HKx|apply HE; auto]|].
  intros [] y [HKy _].
  apply post_bind, post_driver. intros intv rest4 _.
  eapply post_seq; [apply (open_error_post s); [exact HKy|apply HE; auto]|].
  intros [] z [HKz _].
  assert (Hc : 0 <= to_I16 reg <= 32767).
  { apply Z.ltb_ge in Hreg. split; [exact Hreg|].
    unfold to_I16. pose proof (Z.mod_pos_bound (reg + 32768) 65536). lia. }
  apply (post_seq _ _ _ (fun _ u => globals_kept s u)).
  { destruct (_ =? 1).
    - apply post_bind, post_load_init; [intros c0 _ _|intros _; exact Logic.I|intros _; exact Logic.I].
      apply post_bind, post_load_init; [intros r0 _ _|intros _; exact Logic.I|intros _; exact Logic.I].
      apply post_bind, post_driver. intros rd rest5 _.
      destruct (to_I16 rd <? 0); [|apply post_ret; exact HKz].
      apply post_bind, post_ask_int. intros dw rest6 _.
      apply post_bind, post_fprintf_stderr. apply post_clean_exit. apply HE; [auto|exact HKz].
    - apply post_bind, post_driver. intros rd rest5 _.
      destruct (to_I16 rd <? 0); [|apply post_ret; exact HKz].
      apply post_bind, post_ask_int. intros dw rest6 _.
      apply post_bind, post_fprintf_stderr. apply post_clean_exit. apply HE; [auto|exact HKz]. }
  intros [] u' HKu'. apply post_ret. split; [exact HKu'|exact Hc].
Qed.

(** Whatever the driver answers, [open_USB1901] changes no global: the
    handle it returns is not negative and is only returned, and when it ends
    the process the status is 1, 2 or 3. *)
Theorem open_USB1901_outcomes {hdr : UsbDask} (s : state) :
  (forall c t, open_USB1901 s = Returns c t -> globals_kept s t /\ 0 <= c <= 32767) /\
  (forall code t, open_USB1901 s = Exits code t ->
     (code = 1 \/ code = 2 \/ code = 3) /\ globals_kept s t).
Proof.
  pose proof (open_USB1901_post s) as H. split.
  - intros c t Hrun. rewrite Hrun in H. exact H.
  - intros code t Hrun. rewrite Hrun in H. exact H.
Qed.

(** ** More on the loop of [main] *)

(** *** The exit check *)

(** A turn that finds no buffer ready only checks whether to stop.  With
    no duration given ([duration < 1]) it stops when [kbhit] is not zero,
    and then reads the key.  With a duration of at most 2147483 seconds, for
    which [1000 * duration] is an [int], it stops when more than
    [1000 * duration] milliseconds have passed since [t1]; the time passed
    is computed in unsigned 32-bit arithmetic, so that a tick counter that
    wrapped around between [t1] and [t2] is handled. *)
Theorem idle_turn_exit_check {hdr : UsbDask}
    (t1 : Z) (l : locals) (s : state) (e st v : Z) (rest : list response) :
  inputs s = RHalfReady e 0 st :: RInt v :: rest ->
  0 <= to_I16 e ->
  let polled := set_inputs rest (set_trace (trace s ++ poll_events s) s) in
  (duration s < 1 -> v = 0 ->
   acquire_step t1 l s
   = Returns (inl l) (set_trace (trace polled ++ [EvKbhit]) polled)) /\
  (duration s < 1 -> v <> 0 ->
   acquire_step t1 l s
   = Returns (inr l) (set_trace (trace polled ++ [EvKbhit; EvGetch]) polled)) /\
  (1 <= duration s <= 2147483 -> 0 <= t1 < 2 ^ 32 ->
   acquire_step t1 l s
   = Returns (if 1000 * duration s <? (v - t1) mod 2 ^ 32 then inr l else inl l)
       (set_trace (trace polled ++ [EvGetTickCount]) polled)).
Proof.
  intros Hi He polled. apply Z.ltb_ge in He.
  split; [|split].
  - intros Hd ->. apply Z.ltb_lt in Hd. unfold acquire_step.
    step_ret. step_ret.
    erewrite bind_returns; [|apply ask_run; exact Hi]. cbv beta iota zeta.
    rewrite He. step_ret. step_ret. cbn [negb Z.eqb]. step_ret.
    states. rewrite Hd.
    erewrite bind_returns; [|apply ask_int_run; reflexivity]. cbv beta.
    cbn [negb Z.eqb]. subst polled. unfold poll_events. same_state.
  - intros Hd Hv. apply Z.ltb_lt in Hd. apply Z.eqb_neq in Hv. unfold acquire_step.
    step_ret. step_ret.
    erewrite bind_returns; [|apply ask_run; exact Hi]. cbv beta iota zeta.
    rewrite He. step_ret. step_ret. cbn [negb Z.eqb]. step_ret.
    states. rewrite Hd.
    erewrite bind_returns; [|apply ask_int_run; reflexivity]. cbv beta.
    rewrite Hv. cbn [negb]. step_ret. subst polled. unfold poll_events. same_state.
  - intros Hd Ht1. unfold acquire_step.
    step_ret. step_ret.
    erewrite bind_returns; [|apply ask_run; exact Hi]. cbv beta iota zeta.
    rewrite He. step_ret. step_ret. cbn [negb Z.eqb]. step_ret.
    states. destruct (Z.ltb_spec (duration s) 1) as [|_]; [lia|].
    erewrite bind_returns; [|apply ask_int_run; reflexivity]. cbv beta zeta.
    assert (Hms : to_U32 (to_int (1000 * duration s)) = 1000 * duration s).
    { rewrite to_int_id by (unfold INT_MIN, INT_MAX; lia).
      unfold to_U32. apply Z.mod_small. lia. }
    assert (Hel : to_U32 (to_U32 v - t1) = (v - t1) mod 2 ^ 32).
    { unfold to_U32. change 4294967296 with (2 ^ 32).
      rewrite Zminus_mod_idemp_l. reflexivity. }
    rewrite Hms, Hel. subst polled. unfold poll_events.
    destruct (1000 * duration s <? (v - t1) mod 2 ^ 32); same_state.
Qed.

Lemma idle_turn_exit_check_witness :
  let l := mk_locals 0 0 [] in
  let s := set_inputs [RHalfReady 0 0 0; RInt 5000] (set_duration 2 demo_state) in
  exists s', acquire_step (hdr := demo_header) 4294967000 l s = Returns (inr l) s'.
Proof.
  cbv zeta. eexists.
  rewrite (proj2 (proj2 (idle_turn_exit_check (hdr := demo_header) 4294967000
                           (mk_locals 0 0 [])
                           (set_inputs [RHalfReady 0 0 0; RInt 5000] (set_duration 2 demo_state))
                           0 0 5000 [] eq_refl ltac:(apply Z.leb_le; reflexivity))));
    [reflexivity|cbn; lia|lia].
Defined.

(** *** A turn that finds a buffer ready *)

Lemma transferred_length data buf : length (transferred data buf) = length buf.
Proof.
  unfold transferred. rewrite length_take, length_app, length_drop. lia.
Qed.

(** The run of a turn up to its call of [process_samples]. *)
Ltac to_samples s Hi He Hhr Herr :=
  unfold acquire_step; step_ret; step_ret;
  (erewrite bind_returns; [|apply ask_run; exact Hi]); cbv beta iota zeta;
  rewrite He; step_ret; step_ret; rewrite Hhr; cbn [negb];
  rewrite bind_assoc; step_ret;
  rewrite bind_assoc; step_ret;
  rewrite bind_assoc; step_ret;
  rewrite bind_assoc.

(** The run of a turn from its call of [transfer] to its call of
    [process_samples]. *)
Ltac through_transfer Hd Herr :=
  states; rewrite Hd; step_ret;
  rewrite bind_assoc;
  (erewrite bind_returns; [|apply transfer_run; reflexivity]); cbv beta iota zeta;
  rewrite Herr; rewrite bind_assoc; step_ret;
  rewrite bind_assoc;
  change (Z.quot AI_COUNT 2) with 10240.

(** [process_samples] in a state that has the globals of [s]. *)
Lemma process_samples_run_kept {hdr : UsbDask} s u buffer L O :
  globals_kept s u -> samples_ready s buffer L O ->
  process_samples buffer L O u
  = Returns ((L + O) mod no_channels s)
      (set_trace (trace u ++ samples_events s buffer L O) u).
Proof.
  intros (_ & Hf & _ & _ & _ & Hn & Hc) Hready.
  rewrite (process_samples_run u buffer L O).
  - rewrite Hn. unfold samples_events, unknown_range_events, field_event, average_event,
      sample_volts, scale_factor, channel_sum, sample_volts, scale_factor, chan_at.
    rewrite Hn, Hc. reflexivity.
  - unfold samples_ready. rewrite Hn, Hc, Hf. exact Hready.
Qed.

(** A turn that finds half of the double buffer ready, in a state
    [process_samples] can work in: the driver's data is taken into
    [buffer], its first [AI_COUNT / 2] cells are written out from the
    rotation offset the turn before left, the offset moves on to
    [(AI_COUNT / 2 + offset) mod no_channels], and [samples] grows by
    [AI_COUNT / 2]; then the exit check is made. *)
Theorem buffer_turn {hdr : UsbDask}
    (t1 : Z) (l : locals) (s : state) (e hr st err v : Z) (data : list Z)
    (rest : list response) :
  inputs s = RHalfReady e hr st :: RTransfer err data :: RInt v :: rest ->
  0 <= to_I16 e -> hr <> 0 -> 0 <= to_I16 err ->
  1 <= no_channels s <= MAX_CHANNELS ->
  Z.of_nat (length (channel s)) = MAX_CHANNELS ->
  file s <> None ->
  10240 <= Z.of_nat (length (buffer l)) ->
  0 <= offset l -> offset l + 10240 <= INT_MAX ->
  let buf := transferred data (buffer l) in
  exists r s' check,
    acquire_step t1 l s = Returns r s' /\
    locals_after r
    = mk_locals ((10240 + offset l) mod no_channels s) (to_int (samples l + 10240)) buf /\
    trace s' = trace s ++ poll_events s ++ half_ready_events s
               ++ samples_events s buf 10240 (offset l) ++ check /\
    (check = [EvKbhit] \/ check = [EvKbhit; EvGetch] \/ check = [EvGetTickCount]) /\
    inputs s' = rest.
Proof.
  intros Hi He Hhr Herr Hnc Hlen Hfile Hbuf HO Hmax buf.
  apply Z.ltb_ge in He, Herr. apply Z.eqb_neq in Hhr.
  assert (Hrun : forall u,
    globals_kept s u ->
    process_samples buf 10240 (offset l) u
    = Returns ((10240 + offset l) mod no_channels s)
        (set_trace (trace u ++ samples_events s buf 10240 (offset l)) u)).
  { intros u HKu. apply process_samples_run_kept; [exact HKu|].
    unfold samples_ready. subst buf. rewrite transferred_length.
    repeat split; try assumption; lia. }
  destruct (duration s <? 1) eqn:Hd.
  - destruct (v =? 0) eqn:Hv.
    + eexists _, _, [EvKbhit]. split.
      * to_samples s Hi He Hhr Herr. through_transfer Hd Herr.
        fold (transferred data (buffer l)). fold buf.
        erewrite bind_returns; [|apply Hrun; repeat split]. cbv beta. step_ret.
        erewrite bind_returns; [|apply ask_int_run; reflexivity]. cbv beta.
        rewrite Hv. cbn [negb]. reflexivity.
      * split; [reflexivity|]. split; [|split; [auto|reflexivity]].
        states. unfold poll_events, half_ready_events.
        rewrite Hd. repeat (cbn [app]; rewrite <- ?app_assoc). reflexivity.
    + eexists _, _, [EvKbhit; EvGetch]. split.
      * to_samples s Hi He Hhr Herr. through_transfer Hd Herr.
        fold (transferred data (buffer l)). fold buf.
        erewrite bind_returns; [|apply Hrun; repeat split]. cbv beta. step_ret.
        erewrite bind_returns; [|apply ask_int_run; reflexivity]. cbv beta.
        rewrite Hv. cbn [negb]. step_ret. reflexivity.
      * split; [reflexivity|]. split; [|split; [auto|reflexivity]].
        states. unfold poll_events, half_ready_events.
        rewrite Hd. repeat (cbn [app]; rewrite <- ?app_assoc). reflexivity.
  - destruct (to_U32 (to_int (1000 * duration s)) <? to_U32 (to_U32 v - t1)) eqn:Hc.
    + eexists _, _, [EvGetTickCount]. split.
      * to_samples s Hi He Hhr Herr. through_transfer Hd Herr.
        fold (transferred data (buffer l)). fold buf.
        erewrite bind_returns; [|apply Hrun; repeat split]. cbv beta. step_ret.
        erewrite bind_returns; [|apply ask_int_run; reflexivity]. cbv beta zeta.
        rewrite Hc. reflexivity.
      * split; [reflexivity|]. split; [|split; [auto|reflexivity]].
        states. unfold poll_events, half_ready_events.
        rewrite Hd. repeat (cbn [app]; rewrite <- ?app_assoc). reflexivity.
    + eexists _, _, [EvGetTickCount]. split.
      * to_samples s Hi He Hhr Herr. through_transfer Hd Herr.
        fold (transferred data (buffer l)). fold buf.
        erewrite bind_returns; [|apply Hrun; repeat split]. cbv beta. step_ret.
        erewrite bind_returns; [|apply ask_int_run; reflexivity]. cbv beta zeta.
        rewrite Hc. reflexivity.
      * split; [reflexivity|]. split; [|split; [auto|reflexivity]].
        states. unfold poll_events, half_ready_events.
        rewrite Hd. repeat (cbn [app]; rewrite <- ?app_assoc). reflexivity.
Qed.

Lemma buffer_turn_witness :
  let l := mk_locals 1 0 (replicate (Z.to_nat 10240) 0) in
  let s := set_inputs [RHalfReady 0 1 0; RTransfer 0 [1; 2; 3]; RInt 0] demo_state in
  exists r s',
    acquire_step (hdr := demo_header) 0 l s = Returns r s' /\
    locals_after r
    = mk_locals ((10240 + 1) mod 2) (to_int (0 + 10240))
        (transferred [1; 2; 3] (replicate (Z.to_nat 10240) 0)) /\
    inputs s' = [].
Proof.
  cbv zeta.
  destruct (buffer_turn (hdr := demo_header) 0 (mk_locals 1 0 (replicate (Z.to_nat 10240) 0))
              (set_inputs [RHalfReady 0 1 0; RTransfer 0 [1; 2; 3]; RInt 0] demo_state)
              0 1 0 0 0 [1; 2; 3] [] eq_refl)
    as (r & s' & check & Hrun & Hloc & _ & _ & Hin).
  - apply Z.leb_le. reflexivity.
  - lia.
  - apply Z.leb_le. reflexivity.
  - cbn [no_channels set_inputs demo_state]. unfold MAX_CHANNELS. lia.
  - reflexivity.
  - discriminate.
  - cbn [buffer]. rewrite length_replicate. lia.
  - cbn [offset]. lia.
  - cbn [offset]. unfold INT_MAX. lia.
  - exists r, s'. split; [exact Hrun|]. split; [exact Hloc|exact Hin].
Defined.

(** *** The rotation offset across the loop *)

Lemma process_samples_result {hdr : UsbDask} buffer L O s r s' :
  process_samples buffer L O s = Returns r s' ->
  no_channels s <> 0 /\ r = Z.rem (to_int (L + O)) (no_channels s).
Proof.
  intros Hrun. unfold process_samples in Hrun.
  apply bind_returns_inv in Hrun as (nc & t0 & Hget & Hrun).
  rewrite get_ok in Hget. injection Hget as <- <-.
  apply bind_returns_inv in Hrun as (chans & t0 & Hget & Hrun).
  apply bind_returns_inv in Hrun as (q & t1 & _ & Hrun).
  apply bind_returns_inv in Hrun as ([tv sm] & t2 & _ & Hrun).
  apply bind_returns_inv in Hrun as (sm' & t3 & _ & Hrun).
  apply bind_returns_inv in Hrun as (u & t4 & _ & Hrun).
  apply bind_returns_inv in Hrun as (r' & t5 & Hrem & Hrun).
  unfold int_rem in Hrem. destruct (Z.eqb_spec (no_channels s) 0) as [|Hne]; [discriminate|].
  unfold ret in Hrun, Hrem. split; [exact Hne|congruence].
Qed.

Lemma post_process_samples_offset {hdr : UsbDask} s0 buffer L O t
    (R : Z -> state -> Prop) E :
  globals_kept s0 t ->
  (forall u, globals_kept s0 u ->
     no_channels s0 <> 0 -> R (Z.rem (to_int (L + O)) (no_channels s0)) u) ->
  post (process_samples buffer L O t) R E (fun _ _ => True).
Proof.
  intros HK HR. pose proof (process_samples_keeps t buffer L O) as Hkeeps.
  destruct (process_samples buffer L O t) as [r u|c u|tr u|u] eqn:Erun; cbn in *;
    try tauto.
  apply process_samples_result in Erun as [Hne ->].
  destruct Hkeeps as [Hu _]. pose proof HK as (_ & _ & _ & _ & _ & Hn & _).
  rewrite Hn in *. apply HR; [|exact Hne]. apply (globals_kept_trans _ _ _ HK Hu).
Qed.

Lemma acquire_step_locals {hdr : UsbDask} s0 l0 t1 l s :
  1 <= no_channels s0 <= MAX_CHANNELS ->
  globals_kept s0 s -> locals_kept s0 l0 l ->
  post (acquire_step t1 l s)
       (fun r t => globals_kept s0 t /\ locals_kept s0 l0 (locals_after r))
       (fun _ _ => True) (fun _ _ => True).
Proof.
  intros Hnc HK HL. unfold acquire_step.
  set (Q := fun (r : locals + locals) (t : state) =>
              globals_kept s0 t /\ locals_kept s0 l0 (locals_after r)).
  apply post_bind, post_emit. apply post_bind, post_get.
  apply post_bind, post_ask. intros r rest Hi. destruct r; try exact Logic.I.
  cbv zeta.
  apply (post_seq _ _ _ (fun _ u => globals_kept s0 u)).
  { destruct (to_I16 err <? 0); [|exact HK].
    apply post_bind, post_fprintf_stderr. apply post_bind, post_emit.
    apply post_clean_exit. exact Logic.I. }
  intros [] t HKt. apply post_bind, post_get.
  apply (post_seq _ _ _ (fun l' u => globals_kept s0 u /\ locals_kept s0 l0 l')).
  - destruct (negb (HalfReady =? 0)); [|apply post_ret; split; assumption].
    apply post_bind, post_get. apply post_bind, post_printf.
    apply post_bind, post_printf.
    apply (post_seq _ _ _ (fun _ u => globals_kept s0 u)).
    { destruct (duration t <? 1); [apply post_printf|apply post_ret]; exact HKt. }
    intros [] u HKu. apply post_bind, post_transfer. intros e data rest' Hi'.
    apply (post_seq _ _ _ (fun _ u => globals_kept s0 u)).
    { destruct (to_I16 e <? 0); [|exact HKu].
      apply post_bind, post_fprintf_stderr. apply post_bind, post_emit.
      apply post_clean_exit. exact Logic.I. }
    intros [] w HKw. cbv zeta. apply post_bind.
    apply (post_process_samples_offset s0); [exact HKw|]. intros x HKx Hne.
    apply post_ret. split; [exact HKx|].
    destruct HL as [HO Hlen]. unfold locals_kept. cbn [offset buffer].
    fold (transferred data (buffer l)). rewrite transferred_length. split; [|exact Hlen].
    change (Z.quot AI_COUNT 2) with 10240. unfold MAX_CHANNELS in *.
    rewrite to_int_id by (unfold INT_MIN, INT_MAX; lia).
    rewrite rem_nonneg by lia. apply Z.mod_pos_bound. lia.
  - intros l' u [HKu HLu]. destruct (duration t <? 1).
    + apply post_bind, post_ask_int. intros v rest'' _.
      destruct (negb (v =? 0)); [apply post_bind, post_emit|]; apply post_ret; split; assumption.
    + apply post_bind, post_ask_int. intros v rest'' _. cbv zeta.
      destruct (_ <? _); apply post_ret; split; assumption.
Qed.

Lemma acquire_locals {hdr : UsbDask} s0 l0 t1 fuel :
  1 <= no_channels s0 <= MAX_CHANNELS ->
  forall l s,
  globals_kept s0 s -> locals_kept s0 l0 l ->
  post (acquire fuel t1 l s)
       (fun l' t => globals_kept s0 t /\ locals_kept s0 l0 l')
       (fun _ _ => True) (fun _ _ => True).
Proof.
  intros Hnc. induction fuel as [|fuel IH]; intros l s HK HL; [exact Logic.I|].
  cbn [acquire]. eapply post_seq; [apply (acquire_step_locals s0 l0 t1 l s Hnc HK HL)|].
  intros [l'|l'] t [HKt HLt]; [apply IH; assumption|split; assumption].
Qed.

(** However many turns the loop of [main] makes and whatever the driver
    answers, with between 1 and [MAX_CHANNELS] channels the rotation offset
    stays in [0, no_channels): when the loop ends, the offset it leaves for
    the last call of [process_samples] is in that range, the buffer still
    has its size, and no global has changed. *)
Theorem rotation_offset_invariant {hdr : UsbDask}
    (fuel : nat) (t1 : Z) (l l' : locals) (s s' : state) :
  1 <= no_channels s <= MAX_CHANNELS ->
  0 <= offset l < no_channels s ->
  acquire fuel t1 l s = Returns l' s' ->
  0 <= offset l' < no_channels s /\
  length (buffer l') = length (buffer l) /\
  globals_kept s s'.
Proof.
  intros Hnc HO Hrun.
  pose proof (acquire_locals s l t1 fuel Hnc l s (globals_kept_refl s)
                (conj HO eq_refl)) as H.
  rewrite Hrun in H. destruct H as [HK [HO' Hlen]]. auto.
Qed.

Lemma rotation_offset_invariant_witness :
  let s := set_inputs [RHalfReady 0 0 0; RInt 1] demo_state in
  exists l' s',
    acquire (hdr := demo_header) 2 0 (mk_locals 1 0 [0; 0]) s = Returns l' s' /\
    0 <= offset l' < no_channels s /\ length (buffer l') = 2%nat.
Proof.
  cbv zeta.
  eassert (Hrun : acquire (hdr := demo_header) 2 0 (mk_locals 1 0 [0; 0])
                    (set_inputs [RHalfReady 0 0 0; RInt 1] demo_state) = Returns _ _)
    by (vm_compute; reflexivity).
  destruct (rotation_offset_invariant (hdr := demo_header) 2 0 (mk_locals 1 0 [0; 0]) _
              (set_inputs [RHalfReady 0 0 0; RInt 1] demo_state) _
              ltac:(cbn; unfold MAX_CHANNELS; lia) ltac:(cbn; lia) Hrun) as (HO & Hlen & _).
  eexists _, _. split; [exact Hrun|]. split; [exact HO|exact Hlen].
Defined.

(** *** From the start of [main] to its loop *)

Lemma main_to_loop {hdr : UsbDask} argv stack s s0 s1 c t1 f script :
  process_arguments argv s = Returns tt s0 ->
  open_USB1901 s0 = Returns c s1 ->
  inputs s1 = RInt t1 :: ROpen f :: script ->
  main argv stack s
  = (l <- acquire (length script) (to_U32 t1) (mk_locals 0 0 stack) ;;
     drain (to_U32 t1) l)
      (set_trace (trace s1 ++ start_events s1 f)
         (set_inputs script (set_file f (set_card c s1)))).
Proof.
  intros Hargs Hopen Hi. unfold main.
  rewrite (bind_returns _ _ _ _ _ Hargs). cbv beta.
  rewrite (bind_returns _ _ _ _ _ Hopen). cbv beta.
  step_ret.
  erewrite bind_returns; [|apply ask_int_run; exact Hi]. cbv beta zeta.
  step_ret.
  erewrite bind_returns; [|apply ask_run; reflexivity]. cbv beta iota.
  step_ret. unfold start_events.
  destruct f as [f|]; step_ret; step_ret; states; destruct (duration s1 <? 1);
    step_ret; step_ret; states; rewrite <- ?app_assoc; reflexivity.
Qed.

(** When [fopen] succeeds, [main] enters its loop with the handle of the
    card in [card] and the stream in [file]; the time [t1] the duration is
    measured from was taken before the file was opened, and nothing is
    reported. *)
Theorem main_opens_file_then_loops {hdr : UsbDask}
    (argv : list string) (stack : list Z) (s s0 s1 : state) (c t1 : Z) (f : FILE)
    (script : list response) :
  process_arguments argv s = Returns tt s0 ->
  open_USB1901 s0 = Returns c s1 ->
  inputs s1 = RInt t1 :: ROpen (Some f) :: script ->
  let s2 :=
    set_trace
      (trace s1
       ++ [EvGetTickCount; EvFopen (file_name s1) "w"]
       ++ (if duration s1 <? 1
           then [EvPrintf Stdout
                   (String.append "                            Press any key to stop..." NL) []]
           else []))
      (set_inputs script (set_file (Some f) (set_card c s1))) in
  file s2 = Some f /\ card s2 = c /\
  main argv stack s
  = (l <- acquire (length script) (to_U32 t1) (mk_locals 0 0 stack) ;;
     drain (to_U32 t1) l) s2.
Proof.
  intros Hargs Hopen Hi s2. split; [reflexivity|]. split; [reflexivity|].
  rewrite (main_to_loop _ _ _ _ _ _ _ _ _ Hargs Hopen Hi). reflexivity.
Qed.

Lemma main_opens_file_then_loops_witness :
  let argv := ["prog"; "-c"; "3:1"; "-d"; "1"]%string in
  let script :=
    [RScan 0 1 [mk_device 5 0]; RInt 0; RInt 0; RInt 0; RInt 0; RInt 0;
     RInt 100; ROpen (Some (Stream "data.csv"));
     RHalfReady 0 0 0; RInt 200; RHalfReady 0 0 0; RInt 1200;
     RClear 0 0; RInt 1300; RTransfer 0 []] in
  exists s',
    main (hdr := demo_header) argv [] (initial_state script) = Exits 0 s' /\
    file s' = Some (Stream "data.csv") /\
    last (trace s') = Some (EvFclose (Stream "data.csv")).
Proof.
  intros argv script.
  eassert (Ha : process_arguments (hdr := demo_header) argv (initial_state script)
                = Returns tt _) by (vm_compute; reflexivity).
  match type of Ha with
  | _ = Returns tt ?s0 =>
      eassert (Ho : open_USB1901 (hdr := demo_header) s0 = Returns _ _)
        by (vm_compute; reflexivity)
  end.
  destruct (main_opens_file_then_loops (hdr := demo_header) _ [] _ _ _ _ _ _ _
              Ha Ho eq_refl) as (_ & _ & Hm).
  eexists. split; [rewrite Hm; vm_compute; reflexivity|].
  split; reflexivity.
Defined.

(** *** Runs that end in a trap *)








(** *** What follows the loop *)



(** *** The exit statuses of the program *)

Lemma post_modify f s (R : unit -> state -> Prop) E T :
  R tt (f s) -> post (modify f s) R E T.
Proof. intros H. exact H. Qed.

Lemma add_channel_never_exits {hdr : UsbDask} id_ range s (E : Z -> state -> Prop) :
  post (add_channel id_ range s) (fun _ _ => True) E (fun _ _ => True).
Proof.
  unfold add_channel.
  apply post_bind, post_get. apply post_bind, post_get.
  apply post_bind, post_load; [intros ch _ _|intros _; exact Logic.I].
  apply post_bind, post_store; [intros _|intros _; exact Logic.I].
  apply (post_seq _ _ _ (fun _ _ => True)).
  - destruct (range_code range); [|exact Logic.I].
    apply post_bind, post_load; [intros ch' _ _|intros _; exact Logic.I].
    apply post_store; intros _; exact Logic.I.
  - intros chans t _. exact Logic.I.
Qed.

Lemma option_step_exit_codes {hdr : UsbDask} argv0 a rest s :
  post (option_step argv0 a rest s)
       (fun _ _ => True) (fun c _ => c = 0 \/ c = -1) (fun _ _ => True).
Proof.
  assert (Hbad : forall (A : Type) fmt args u,
            post (bad_option (A := A) fmt args u)
                 (fun _ _ => True) (fun c _ => c = 0 \/ c = -1) (fun _ _ => True)).
  { intros A fmt args u. cbn. auto. }
  unfold option_step.
  destruct (String.eqb a "-h").
  { rewrite (bind_returns _ _ _ _ _ (print_usage_run argv0 s)). cbn. auto. }
  destruct (String.eqb a "-o").
  { destruct rest as [|v r]; [apply Hbad|exact Logic.I]. }
  destruct (String.eqb a "-s").
  { destruct rest as [|v r]; [apply Hbad|].
    destruct (scanned_1 (sscanf_d v)) as [n|]; [|apply Hbad].
    destruct (n <? 1); [apply Hbad|exact Logic.I]. }
  destruct (String.eqb a "-c").
  { apply post_bind, post_get.
    destruct (no_channels s <? MAX_CHANNELS); [|apply Hbad].
    destruct rest as [|v r]; [apply Hbad|].
    destruct (scanned_2 (sscanf_d_colon_d v)) as [[i x]|]; [|apply Hbad].
    destruct (_ || _); [apply Hbad|].
    eapply post_seq; [apply add_channel_never_exits|]. intros [] t _. exact Logic.I. }
  destruct (String.eqb a "-d").
  { destruct rest as [|v r]; [apply Hbad|].
    destruct (scanned_1 (sscanf_d v)) as [n|]; [|apply Hbad].
    destruct (n <? 1); [apply Hbad|exact Logic.I]. }
  apply Hbad.
Qed.

Lemma arguments_loop_exit_codes {hdr : UsbDask} argv0 rest :
  forall s,
  post (arguments_loop argv0 rest s)
       (fun _ _ => True) (fun c _ => c = 0 \/ c = -1) (fun _ _ => True).
Proof.
  induction rest as [| a | a v rest IH] using arguments_ind; intros s.
  - exact Logic.I.
  - rewrite arguments_loop_cons.
    pose proof (option_step_exit_codes argv0 a [] s) as Hs.
    unfold bind. destruct (option_step argv0 a [] s) as [r t|c t|tr t|t] eqn:E;
      try exact Hs.
    apply option_step_returns in E as [[v Hv] _]. discriminate Hv.
  - rewrite arguments_loop_cons.
    pose proof (option_step_exit_codes argv0 a (v :: rest) s) as Hs.
    unfold bind. destruct (option_step argv0 a (v :: rest) s) as [r t|c t|tr t|t] eqn:E;
      try exact Hs.
    pose proof (option_step_returns _ _ _ _ _ _ E) as [[v' Hv] _]. injection Hv as <- <-.
    apply IH.
Qed.

Lemma main_post {hdr : UsbDask} argv stack s :
  post (main argv stack s)
       (fun _ _ => False)
       (fun c _ => c = -1 \/ c = 0 \/ c = 1 \/ c = 2 \/ c = 3)
       (fun _ _ => True).
Proof.
  unfold main.
  apply (post_seq _ _ _ (fun _ _ => True)).
  { unfold process_arguments. apply post_bind, post_modify.
    destruct argv as [|argv0 rest]; [exact Logic.I|].
    eapply post_weaken; [apply arguments_loop_exit_codes|auto| |auto].
    intros c t [->| ->]; auto. }
  intros [] s0 _.
  apply (post_seq _ _ _ (fun _ _ => True)).
  { eapply post_weaken; [apply open_USB1901_post|auto| |auto].
    intros c t [[->|[->| ->]] _]; auto. }
  intros c s1 _. apply post_bind, post_modify.
  apply post_bind, post_ask_int. intros t1 rest1 _. cbv zeta.
  apply post_bind, post_get. apply post_bind, post_ask. intros r rest2 _.
  destruct r as [| | | | |f]; try exact Logic.I.
  apply post_bind, post_modify.
  apply (post_seq _ _ _ (fun _ _ => True)).
  { destruct f; [apply post_ret|apply post_emit]; exact Logic.I. }
  intros [] s2 _. apply post_bind, post_get.
  apply (post_seq _ _ _ (fun _ _ => True)).
  { destruct (_ <? 1); [apply post_printf|apply post_ret]; exact Logic.I. }
  intros [] s3 _. apply post_bind, post_get.
  apply (post_seq _ _ _ (fun _ _ => True)).
  { eapply post_weaken;
      [apply (acquire_post s3 _ _ _ s3 (globals_kept_refl s3))|auto| |auto].
    intros code t [-> _]. auto. }
  intros l s4 _.
  eapply post_weaken; [apply (drain_post s4 _ l s4 (globals_kept_refl s4))| | |auto].
  - intros a t [].
  - intros code t [[->| ->] _]; auto.
Qed.

(** [main] never returns: a run ends in a call of [exit], unless it traps
    or waits for the outside world for ever.  The status it ends with is
    -1 (a refused command line), 0 (the usage text, or a completed
    acquisition), 1 (a driver error), 2 (no device) or 3 (the device could
    not be registered). *)
Theorem main_exit_statuses {hdr : UsbDask} (argv : list string) (stack : list Z) (s : state) :
  (forall r s', main argv stack s <> Returns r s') /\
  (forall code s', main argv stack s = Exits code s' ->
     code = -1 \/ code = 0 \/ code = 1 \/ code = 2 \/ code = 3).
Proof.
  pose proof (main_post argv stack s) as H. split.
  - intros r s' Hrun. rewrite Hrun in H. exact H.
  - intros code s' Hrun. rewrite Hrun in H. exact H.
Qed.
